(** * crediball: the monitoring, dedup and rate-limit loop of the football bot

    A shallow embedding of [bot.py] (class [FootballTwitterBot]) together with
    the parts of [ai_processor.py], [twitter_manager.py] and [config.py] it
    calls, and the properties of the control loop.

    Layout:
    - [Py]      Python values: strings as code-point lists, slices, numbers;
    - [Format]  [_format_final_tweet];
    - [Ai]      [AIProcessor._call_groq_api], [is_football_related],
                [rewrite_tweet];
    - [Bot]     the bot state, the collaborators' answers as an oracle, a
                state-and-exception monad, and [run_cycle] with its helpers;
    - [Text], [Json]   more of Python's strings, and the values of [json.load];
    - [Conf], [Settings], [Env]   [config.py]: the roster of journalists, the
                settings, the environment and the [.env] file, with the
                writers of [setup_posting.py];
    - [Errors]  [error_handler.py];
    - [Manager], [Startup]   the start of [twitter_manager.py] and [bot.py],
                and [health_check.py];
    - the theorems: the properties of the control loop, then those of the
      rest of the code. *)

From stdpp Require Import gmap list strings pretty sorting.
From Stdlib Require Import ZArith Lia.

Local Open Scope Z_scope.

(** * Python values *)

Module Py.

(** A Python [str] is a sequence of Unicode code points; [len] counts code
    points, so an emoji outside the BMP has length one. *)
Definition str := list N.

(** An ASCII literal as a [str]. *)
Fixpoint lit (s : string) : str :=
  match s with
  | EmptyString => []
  | String a s' => Ascii.N_of_ascii a :: lit s'
  end.

(** ["\n"] *)
Definition NL : str := [10%N].

(** [len(x)] *)
Definition len {A} (l : list A) : Z := Z.of_nat (length l).

(** [x[:k]] for an integer [k] of either sign. *)
Definition slice_to {A} (k : Z) (l : list A) : list A :=
  if 0 <=? k then take (Z.to_nat k) l
  else take (length l - Z.to_nat (- k)) l.

(** [x[-n:]] for a positive [n]: the last [n] entries, all of [x] when it has
    fewer. *)
Definition slice_last {A} (n : nat) (l : list A) : list A :=
  drop (length l - n) l.

(** [x[1:-1]] *)
Definition slice_inner {A} (l : list A) : list A :=
  drop 1 (take (length l - 1) l).

(** [str.isspace] on one code point: the Unicode white-space characters. *)
Definition isspace (c : N) : bool :=
  ((9 <=? c) && (c <=? 13) || (28 <=? c) && (c <=? 32)
   || (c =? 133) || (c =? 160) || (c =? 5760)
   || (8192 <=? c) && (c <=? 8202)
   || (c =? 8232) || (c =? 8233) || (c =? 8239) || (c =? 8287)
   || (c =? 12288))%N.

Fixpoint lstrip (s : str) : str :=
  match s with
  | c :: s' => if isspace c then lstrip s' else s
  | [] => []
  end.

(** [s.strip()] *)
Definition strip (s : str) : str := reverse (lstrip (reverse (lstrip s))).

(** [s.upper()], exact on ASCII text: the letters a-z are mapped to A-Z and
    every other code point is kept. *)
Definition upper (s : str) : str :=
  (λ c, if (97 <=? c) && (c <=? 122) then c - 32 else c)%N <$> s.

(** [s.startswith('"') and s.endswith('"')] *)
Definition quoted (s : str) : bool :=
  match s, reverse s with
  | 34%N :: _, 34%N :: _ => true
  | _, _ => false
  end.

(** A number read by [json.load]: an [int], or a [float] written as a decimal
    literal, [PyFloat d p] standing for [d / 10^p] ([95.0] is [PyFloat 950 1]).
    For literals of at most 15 significant digits the float is determined by
    the decimal and [repr] gives the decimal's digits back. *)
Inductive num :=
| PyInt (n : Z)
| PyFloat (digits : Z) (places : nat).

(** [x >= k] and [x < k] for an integer [k]; exact on floats too, since
    rounding to a float is monotone and keeps integers of this size. *)
Definition ge (x : num) (k : Z) : bool :=
  match x with
  | PyInt n => k <=? n
  | PyFloat d p => k * 10 ^ Z.of_nat p <=? d
  end.

Definition lt (x : num) (k : Z) : bool :=
  match x with
  | PyInt n => n <? k
  | PyFloat d p => d <? k * 10 ^ Z.of_nat p
  end.

(** The [p] decimal digits of [f], most significant first. *)
Fixpoint frac_digits (p : nat) (f : Z) : str :=
  match p with
  | O => []
  | S p' => frac_digits p' (f / 10) ++ [Z.to_N (48 + f mod 10)]
  end.

Fixpoint drop_zeros (s : str) : str :=
  match s with
  | 48%N :: s' => drop_zeros s'
  | _ => s
  end.

(** [str(x)], which is what an f-string field [{x}] inserts: the decimal
    digits of an [int]; for a float the fixed-point [repr] (the form Python
    uses for magnitudes from 1e-4 up to 1e16), with trailing zeros removed but
    at least one digit after the point. *)
Definition to_str (x : num) : str :=
  match x with
  | PyInt n => lit (pretty n)
  | PyFloat d p =>
      let a := Z.abs d in
      let frac := reverse (drop_zeros (reverse (frac_digits p (a mod 10 ^ Z.of_nat p)))) in
      (if d <? 0 then lit "-" else []) ++ lit (pretty (a / 10 ^ Z.of_nat p))
        ++ lit "." ++ (if frac is [] then lit "0" else frac)
  end.

End Py.

(** * Formatting the final tweet ([bot.py], [_format_final_tweet]) *)

Module Format.
Import Py.

(** The four symbols of the reliability scale. *)
Definition green_circle : str := [0x1F7E2%N].
Definition yellow_circle : str := [0x1F7E1%N].
Definition orange_circle : str := [0x1F7E0%N].
Definition red_circle : str := [0x1F534%N].

(** The [if]/[elif] chain at the head of [_format_final_tweet]. *)
Definition reliability_emoji (reliability_score : num) : str :=
  if ge reliability_score 90 then green_circle
  else if ge reliability_score 70 then yellow_circle
  else if ge reliability_score 50 then orange_circle
  else red_circle.

(** The text the function appends to the rewritten text:
    [f"\n\nSource - @{username}\n[Reliability Score: {emoji} - {score}%]"]. *)
Definition attribution (username : str) (reliability_score : num) : str :=
  NL ++ NL ++ lit "Source - @" ++ username ++ NL
    ++ lit "[Reliability Score: " ++ reliability_emoji reliability_score
    ++ lit " - " ++ to_str reliability_score ++ lit "%]".

(** The three assignments that build [formatted_tweet]. *)
Definition assemble (rewritten_text username : str) (reliability_score : num) : str :=
  let formatted_tweet := rewritten_text ++ NL ++ NL in
  let formatted_tweet := formatted_tweet ++ lit "Source - @" ++ username ++ NL in
  formatted_tweet ++ lit "[Reliability Score: " ++ reliability_emoji reliability_score
    ++ lit " - " ++ to_str reliability_score ++ lit "%]".

Definition _format_final_tweet (rewritten_text username : str)
    (reliability_score : num) (tier : str) : str :=
  let formatted_tweet := assemble rewritten_text username reliability_score in
  if 280 <? len formatted_tweet then
    let max_rewritten_length := 280 - len (attribution username reliability_score) in
    if 50 <? max_rewritten_length then
      let rewritten_text := slice_to (max_rewritten_length - 3) rewritten_text ++ lit "..." in
      assemble rewritten_text username reliability_score
    else formatted_tweet
  else formatted_tweet.

(** The format as the specification words it: the rewritten text, two
    newlines, the source line, a newline and the score line, with the symbol
    chosen by the four ranges of the score. *)
Definition spec_emoji (score : num) : str :=
  if ge score 90 then green_circle
  else if ge score 70 && lt score 90 then yellow_circle
  else if ge score 50 && lt score 70 then orange_circle
  else if lt score 50 then red_circle
  else [].

Definition spec_format (rewrittenText sourceIdentifier : str) (score : num) : str :=
  rewrittenText ++ (NL ++ NL) ++ (lit "Source - @" ++ sourceIdentifier) ++ NL
    ++ (lit "[Reliability Score: " ++ spec_emoji score ++ lit " - " ++ to_str score
        ++ lit "%]").

End Format.

(** * The language-model client ([ai_processor.py]) *)

Module Ai.
Import Py.

(** What one [session.post] to the chat-completions endpoint can give:
    a response with its status and, when the body has it,
    [data['choices'][0]['message']['content']]; a timeout; or any other
    exception. *)
Inductive http_reply :=
| HttpResponse (status : Z) (content : option str)
| HttpTimeout
| HttpFailure.

(** [_call_groq_api]: the stripped content of a 200 response, [None] for any
    other status and for every exception (a 200 body without the content
    field raises inside the [try] and ends in the last handler). *)
Definition _call_groq_api (reply : http_reply) : option str :=
  match reply with
  | HttpResponse status content =>
      if status =? 200 then
        match content with
        | Some content => Some (strip content)
        | None => None
        end
      else None
  | HttpTimeout => None
  | HttpFailure => None
  end.

(** [is_football_related]: [reply] is the answer to the classification
    prompt built from [text]. An empty or missing response is [False]. *)
Definition is_football_related (reply : http_reply) (text : str) : bool :=
  match _call_groq_api reply with
  | Some ((_ :: _) as response) =>
      let result := upper (strip response) in
      bool_decide (result = lit "YES")
  | _ => false
  end.

(** [rewrite_tweet]: [reply] is the answer to the rewrite prompt. *)
Definition rewrite_tweet (reply : http_reply) (original_text journalist_username : str)
    (reliability_score : num) : option str :=
  match _call_groq_api reply with
  | Some ((_ :: _) as response) =>
      let rewritten := strip response in
      let rewritten := if quoted rewritten then slice_inner rewritten else rewritten in
      let rewritten :=
        if 200 <? len rewritten then slice_to 197 rewritten ++ lit "..." else rewritten in
      Some rewritten
  | _ => None
  end.

(** The classification failed: the call gave no usable response. *)
Definition classification_failed (reply : http_reply) : Prop :=
  _call_groq_api reply = None.

End Ai.

(** * The bot ([bot.py], with [twitter_manager.py] and [config.py]) *)

Module Bot.
Import Py Format.

(** ** Data *)

(** An entry of [journalists.json]. The bot reads [tier] and the
    configuration reads [enabled] with [dict.get], so both may be absent. *)
Record journalist := Journalist {
  username : str;
  reliability_score : num;
  tier : option str;
  enabled : option bool
}.

(** The dictionary [get_user_tweets] builds for a tweet (the fields the bot
    reads, and the date). *)
Record tweet := Tweet {
  tweet_id : Z;
  tweet_text : str;
  created_at : Z
}.

Record Config := {
  journalists : list journalist;
  tweets_per_check : Z;
  max_posts_per_day : Z;
  min_post_interval : Z
}.

(** [Config.get_enabled_journalists]: [j.get('enabled', True)]. *)
Definition get_enabled_journalists (config : Config) : list journalist :=
  filter (λ j, default true (enabled j) = true) (journalists config).

(** The messages the bot hands to [error_handler.send_error]. *)
Inductive notice :=
| MonitoringError (username : str)   (* "Error monitoring {username}: {e}" *)
| TweetError (username : str)        (* "Error processing tweet from {username}: {e}" *)
| PostFailed (username : str)        (* "Failed to post tweet from {username}" *)
| FootballTweetError                 (* "Error processing football tweet: {e}" *)
| CycleError.                        (* "Bot cycle error: {e}" *)

(** What the bot does, in the order it does it: its calls to the
    collaborators and the clocks, and its writes to the budget and the cache.
    The clock events carry the value read, [Count] the value written to
    [post_count_today], [Evict] the identifiers a cap of the cache dropped. *)
Inductive event :=
| Today (now : Z)              (* datetime.now() in _check_daily_reset *)
| Fetch (username : str)       (* the search behind get_user_tweets *)
| Classify (t : tweet)         (* ai_processor.is_football_related *)
| Gate (now : Z)               (* time.time() in _can_post *)
| Rewrite (t : tweet)          (* ai_processor.rewrite_tweet *)
| Publish (text : str)         (* the poster behind twitter_manager.post_tweet *)
| Posted (now : Z)             (* time.time() stored in last_post_time *)
| Count (posts : Z)            (* post_count_today written *)
| Notify (n : notice)          (* error_handler.send_error *)
| Evict (ids : gset Z)         (* processed_tweets cut down *)
| Sleep (seconds : Z).         (* asyncio.sleep *)

(** The collaborators and the clocks: what each answers to the call made
    when [k] events have happened. Times are whole seconds, so that the
    arithmetic of the gate is exact. [set_order] is the order in which
    [list(s)] enumerates a set, which Python leaves unspecified. *)
Record world := {
  datetime_now : nat → Z;
  time_time : nat → Z;
  api_search : nat → option (list tweet);    (* None: the search raised *)
  groq : nat → Ai.http_reply;
  poster_post_tweet : nat → option bool;     (* None: the poster raised *)
  set_order : nat → gset Z → list Z
}.

(** [set_order] lists each element of the set once and nothing else, as
    [list(s)] does in Python. *)
Definition enumerates (w : world) : Prop :=
  ∀ k s, NoDup (set_order w k s) ∧ ∀ x, x ∈ set_order w k s ↔ x ∈ s.

(** The fields of [FootballTwitterBot] the cycle reads or writes, the
    [initialized] flag of its [TwitterManager], and the events so far. *)
Record bot := {
  processed_tweets : gset Z;
  last_post_time : Z;
  post_count_today : Z;
  daily_reset_time : Z;
  initialized : bool;
  trace : list event
}.

Definition set_processed_tweets (v : gset Z) (self : bot) : bot :=
  {| processed_tweets := v; last_post_time := last_post_time self;
     post_count_today := post_count_today self;
     daily_reset_time := daily_reset_time self;
     initialized := initialized self; trace := trace self |}.

Definition set_last_post_time (v : Z) (self : bot) : bot :=
  {| processed_tweets := processed_tweets self; last_post_time := v;
     post_count_today := post_count_today self;
     daily_reset_time := daily_reset_time self;
     initialized := initialized self; trace := trace self |}.

Definition set_post_count_today (v : Z) (self : bot) : bot :=
  {| processed_tweets := processed_tweets self; last_post_time := last_post_time self;
     post_count_today := v;
     daily_reset_time := daily_reset_time self;
     initialized := initialized self; trace := trace self |}.

Definition set_daily_reset_time (v : Z) (self : bot) : bot :=
  {| processed_tweets := processed_tweets self; last_post_time := last_post_time self;
     post_count_today := post_count_today self;
     daily_reset_time := v;
     initialized := initialized self; trace := trace self |}.

Definition set_trace (v : list event) (self : bot) : bot :=
  {| processed_tweets := processed_tweets self; last_post_time := last_post_time self;
     post_count_today := post_count_today self;
     daily_reset_time := daily_reset_time self;
     initialized := initialized self; trace := v |}.

(** Midnight of the day of [now], for a clock counting seconds. *)
Definition midnight (now : Z) : Z := now - now mod 86400.

(** [__init__] followed by a successful [initialize]. *)
Definition init (now : Z) : bot :=
  {| processed_tweets := ∅; last_post_time := 0; post_count_today := 0;
     daily_reset_time := midnight now; initialized := true; trace := [] |}.

(** ** State and exceptions *)

Inductive exn := RuntimeError.

Inductive outcome (A : Type) :=
| Done (a : A)
| Raised (e : exn).
Arguments Done {A} a.
Arguments Raised {A} e.

Definition M (A : Type) : Type := bot → outcome A * bot.

Definition ret {A} (a : A) : M A := λ self, (Done a, self).

Definition bind {A B} (m : M A) (f : A → M B) : M B := λ self,
  match m self with
  | (Done a, self') => f a self'
  | (Raised e, self') => (Raised e, self')
  end.

Definition raise {A} (e : exn) : M A := λ self, (Raised e, self).

(** [try: m  except Exception as e: h e] *)
Definition try_except {A} (m : M A) (h : exn → M A) : M A := λ self,
  match m self with
  | (Done a, self') => (Done a, self')
  | (Raised e, self') => h e self'
  end.

Definition get : M bot := λ self, (Done self, self).

Definition modify (f : bot → bot) : M unit := λ self, (Done tt, f self).

(** The events [evs] happen. *)
Definition log (evs : list event) (self : bot) : bot :=
  set_trace (trace self ++ evs) self.

Definition emit (e : event) : M unit := modify (log [e]).

Notation "'let*' x ':=' m 'in' k" := (bind m (λ x, k))
  (at level 10, x name, m at level 100, k at level 200).
Notation "m '>>' k" := (bind m (λ _, k))
  (at level 90, right associativity).

(** [for x in l: body x]; an exception leaving the body ends the loop. *)
Fixpoint for_each {A} (l : list A) (body : A → M unit) : M unit :=
  match l with
  | [] => ret tt
  | x :: l' => body x >> for_each l' body
  end.

(** The final state of a computation. *)
Definition exec {A} (m : M A) (self : bot) : bot := (m self).2.

(** ** The cycle *)

Section Run.
Variable w : world.
Variable config : Config.

(** Ask the world, and record the event. *)
Definition consult {A} (oracle : world → nat → A) (e : A → event) : M A :=
  let* self := get in
  let a := oracle w (length (trace self)) in
  emit (e a) >> ret a.

(** An assignment to [self.post_count_today]. *)
Definition assign_post_count_today (v : Z) : M unit :=
  modify (set_post_count_today v) >> emit (Count v).

(** [error_handler.send_error] *)
Definition send_error (n : notice) : M unit := emit (Notify n).

(** [TwitterManager.get_user_tweets]: an exception of the search gives the
    empty list. *)
Definition get_user_tweets (username : str) (limit : Z) : M (list tweet) :=
  let* self := get in
  if negb (initialized self) then raise RuntimeError
  else
    let* found := consult api_search (λ _, Fetch username) in
    ret (default [] found).

(** [TwitterManager.post_tweet]: an exception of the poster gives [False]. *)
Definition post_tweet (text : str) : M bool :=
  let* self := get in
  if negb (initialized self) then raise RuntimeError
  else
    let* success := consult poster_post_tweet (λ _, Publish text) in
    ret (default false success).

Definition is_football_related (t : tweet) : M bool :=
  let* reply := consult groq (λ _, Classify t) in
  ret (Ai.is_football_related reply (tweet_text t)).

Definition rewrite_tweet (t : tweet) (j : journalist) : M (option str) :=
  let* reply := consult groq (λ _, Rewrite t) in
  ret (Ai.rewrite_tweet reply (tweet_text t) (username j) (reliability_score j)).

Definition _check_daily_reset : M unit :=
  let* now := consult datetime_now Today in
  let today_start := midnight now in
  let* self := get in
  if daily_reset_time self <? today_start then
    assign_post_count_today 0 >>
    modify (set_daily_reset_time today_start)
  else ret tt.

Definition _can_post : M bool :=
  let* current_time := consult time_time Gate in
  let* self := get in
  if current_time - last_post_time self <? min_post_interval config then ret false
  else if max_posts_per_day config <=? post_count_today self then ret false
  else ret true.

Definition _is_recent_tweet (t : tweet) : bool := true.

Definition _process_football_tweet (t : tweet) (j : journalist) : M unit :=
  try_except
    (let* can_post := _can_post in
     if negb can_post then ret tt
     else
       let* rewritten_text := rewrite_tweet t j in
       match rewritten_text with
       | Some ((_ :: _) as rewritten_text) =>
           let formatted_tweet :=
             _format_final_tweet rewritten_text (username j) (reliability_score j)
               (default (lit "unknown") (tier j)) in
           let* success := post_tweet formatted_tweet in
           if success then
             let* now := consult time_time Posted in
             modify (set_last_post_time now) >>
             let* self := get in
             assign_post_count_today (post_count_today self + 1)
           else send_error (PostFailed (username j))
       | _ => ret tt
       end)
    (λ e, send_error FootballTweetError).

(** The cap of the cache, lines 120 to 123:
    [if len(s) > 10000: s = set(list(s)[-5000:])]. *)
Definition limit_processed_tweets : M unit :=
  let* self := get in
  let seen := processed_tweets self in
  if 10000 <? Z.of_nat (size seen) then
    let kept : gset Z :=
      list_to_set (slice_last 5000 (set_order w (length (trace self)) seen)) in
    emit (Evict (seen ∖ kept)) >> modify (set_processed_tweets kept)
  else ret tt.

(** The body of the loop over the tweets of a journalist. *)
Definition monitor_tweet (j : journalist) (t : tweet) : M unit :=
  try_except
    (let* self := get in
     if bool_decide (tweet_id t ∈ processed_tweets self) then ret tt
     else if negb (_is_recent_tweet t) then ret tt
     else
       let* is_football := is_football_related t in
       (if is_football then _process_football_tweet t j else ret tt) >>
       modify (λ self,
         set_processed_tweets ({[tweet_id t]} ∪ processed_tweets self) self) >>
       limit_processed_tweets)
    (λ e, send_error (TweetError (username j))).

Definition _monitor_journalist (j : journalist) : M unit :=
  try_except
    (let* tweets := get_user_tweets (username j) (tweets_per_check config) in
     match tweets with
     | [] => ret tt
     | _ => for_each tweets (monitor_tweet j)
     end)
    (λ e, raise e).

(** The body of the loop over the journalists. *)
Definition visit (j : journalist) : M unit :=
  try_except
    (_monitor_journalist j >> emit (Sleep 2))
    (λ e, send_error (MonitoringError (username j))).

Definition run_cycle : M unit :=
  try_except
    (_check_daily_reset >>
     let* self := get in
     if max_posts_per_day config <=? post_count_today self then ret tt
     else for_each (journalists config) visit)
    (λ e, send_error CycleError).

(** The main loop of [main.py], cut after [n] cycles. *)
Fixpoint run_cycles (n : nat) : M unit :=
  match n with
  | O => ret tt
  | S n' => run_cycle >> run_cycles n'
  end.

End Run.

(** ** Reading a trace *)

Definition classified (tr : list event) : list Z :=
  omap (λ e, if e is Classify t then Some (tweet_id t) else None) tr.

Definition fetched (tr : list event) : list str :=
  omap (λ e, if e is Fetch u then Some u else None) tr.

Definition published (tr : list event) : list str :=
  omap (λ e, if e is Publish text then Some text else None) tr.

Definition posted (tr : list event) : list Z :=
  omap (λ e, if e is Posted now then Some now else None) tr.

Definition counts (tr : list event) : list Z :=
  omap (λ e, if e is Count posts then Some posts else None) tr.

Definition notified (tr : list event) : list notice :=
  omap (λ e, if e is Notify n then Some n else None) tr.

Definition evicted (tr : list event) : gset Z :=
  ⋃ omap (λ e, if e is Evict ids then Some ids else None) tr.

(** How often the classifier was called on the tweet [id]. *)
Definition classifications (tr : list event) (id : Z) : nat :=
  length (filter (λ x, x = id) (classified tr)).

(** Events of the cycle that touch neither the cache nor the budget. *)
Definition quiet (e : event) : Prop :=
  match e with
  | Today _ | Fetch _ | Sleep _ | Notify _ => True
  | _ => False
  end.

(** The events of the publish flow. *)
Definition flow_event (e : event) : Prop :=
  match e with
  | Gate _ | Rewrite _ | Publish _ | Posted _ | Count _ | Notify _ => True
  | _ => False
  end.

(** ** The paths of the publish flow, and the invariants of the cycle *)

Section Properties.
Variable w : world.
Variable config : Config.

(** The five ways through [_process_football_tweet], with the state each
    ends in: deferred at the gate; no rewritten text; [post_tweet] raised;
    the post failed; the post succeeded. *)
Inductive publish_flow (t : tweet) (j : journalist) (self : bot) : bot → Prop :=
| flow_deferred :
    time_time w (length (trace self)) - last_post_time self < min_post_interval config
    ∨ max_posts_per_day config ≤ post_count_today self →
    publish_flow t j self (log [Gate (time_time w (length (trace self)))] self)
| flow_no_rewrite :
    min_post_interval config ≤ time_time w (length (trace self)) - last_post_time self →
    post_count_today self < max_posts_per_day config →
    (∀ c r, Ai.rewrite_tweet (groq w (length (trace self) + 1)%nat) (tweet_text t) (username j)
              (reliability_score j) ≠ Some (c :: r)) →
    publish_flow t j self (log [Gate (time_time w (length (trace self))); Rewrite t] self)
| flow_raised rewritten_text :
    min_post_interval config ≤ time_time w (length (trace self)) - last_post_time self →
    post_count_today self < max_posts_per_day config →
    Ai.rewrite_tweet (groq w (length (trace self) + 1)%nat) (tweet_text t) (username j)
      (reliability_score j) = Some rewritten_text →
    rewritten_text ≠ [] →
    initialized self = false →
    publish_flow t j self
      (log [Gate (time_time w (length (trace self))); Rewrite t; Notify FootballTweetError] self)
| flow_failed rewritten_text :
    min_post_interval config ≤ time_time w (length (trace self)) - last_post_time self →
    post_count_today self < max_posts_per_day config →
    Ai.rewrite_tweet (groq w (length (trace self) + 1)%nat) (tweet_text t) (username j)
      (reliability_score j) = Some rewritten_text →
    rewritten_text ≠ [] →
    initialized self = true →
    default false (poster_post_tweet w (length (trace self) + 2)%nat) = false →
    publish_flow t j self
      (log [Gate (time_time w (length (trace self))); Rewrite t;
            Publish (_format_final_tweet rewritten_text (username j)
                       (reliability_score j) (default (lit "unknown") (tier j)));
            Notify (PostFailed (username j))] self)
| flow_posted rewritten_text :
    min_post_interval config ≤ time_time w (length (trace self)) - last_post_time self →
    post_count_today self < max_posts_per_day config →
    Ai.rewrite_tweet (groq w (length (trace self) + 1)%nat) (tweet_text t) (username j)
      (reliability_score j) = Some rewritten_text →
    rewritten_text ≠ [] →
    initialized self = true →
    default false (poster_post_tweet w (length (trace self) + 2)%nat) = true →
    publish_flow t j self
      (set_post_count_today (post_count_today self + 1)
         (set_last_post_time (time_time w (length (trace self) + 3)%nat)
            (log [Gate (time_time w (length (trace self))); Rewrite t;
                  Publish (_format_final_tweet rewritten_text (username j)
                             (reliability_score j) (default (lit "unknown") (tier j)));
                  Posted (time_time w (length (trace self) + 3)%nat);
                  Count (post_count_today self + 1)] self))).

(** The daily cap: the counter, and every value ever written to it. *)
Definition within_cap (self : bot) : Prop :=
  (0 ≤ post_count_today self ≤ max_posts_per_day config)
  ∧ Forall (λ c, 0 ≤ c ≤ max_posts_per_day config) (counts (trace self)).

(** The posts so far are spaced, and every call of the publisher came after
    the gate. *)
Definition paced (last_post : Z) (tr : list event) : Prop :=
  last_post = default 0 (last (posted tr))
  ∧ Forall (λ t, t ≤ last_post ∧ ∃ i, (i < length tr)%nat ∧ t = time_time w i) (posted tr)
  ∧ StronglySorted (λ t1 t2, t1 ≤ t2 ∧ min_post_interval config ≤ t2 - t1) (posted tr)
  ∧ ∀ p text, tr !! p = Some (Publish text) →
      min_post_interval config ≤ time_time w p - default 0 (last (posted (take p tr))).

Definition paced_bot (self : bot) : Prop := paced (last_post_time self) (trace self).

(** Every classified tweet is in the cache or was dropped from it, and a
    tweet that was never dropped was classified at most once. *)
Definition deduped (self : bot) : Prop :=
  (∀ id, id ∈ classified (trace self) →
         id ∈ processed_tweets self ∨ id ∈ evicted (trace self))
  ∧ (∀ id, id ∉ evicted (trace self) → (classifications (trace self) id ≤ 1)%nat).

End Properties.

End Bot.

(** * Scenarios: concrete rosters and worlds *)

Module Scenario.
Import Py Bot.

(** The integers [m], [m+1], ..., [n] of them. *)
Fixpoint ids_from (m : Z) (n : nat) : list Z :=
  match n with
  | O => []
  | S n' => m :: ids_from (m + 1) n'
  end.

(** The order in which CPython enumerates a set of small non-negative
    [int]s: an [int] hashes to itself and sits in the slot of its hash, so
    while the table is larger than every element (32768 slots for 10001
    entries) the slots, read in order, give the elements in increasing
    order, whatever the order of insertion. *)
Definition ascending (k : nat) (s : gset Z) : list Z :=
  merge_sort Z.le (elements s).

Definition yes : Ai.http_reply := Ai.HttpResponse 200 (Some (lit "YES")).
Definition no : Ai.http_reply := Ai.HttpResponse 200 (Some (lit "NO")).

(** The clock: ten seconds for every event. *)
Definition clock (k : nat) : Z := 1700000000 + 10 * Z.of_nat k.

Definition signing (id : Z) : tweet :=
  Tweet id (lit "Player X signs for Club Y") 1699990000.

(** Every source shows the same two tweets, the model says yes to
    everything and the poster posts. *)
Definition eager : world :=
  {| datetime_now := clock; time_time := clock;
     api_search := λ _, Some [signing 101; signing 102];
     groq := λ _, yes;
     poster_post_tweet := λ _, Some true;
     set_order := ascending |}.

(** The same feed while the model times out. *)
Definition timeouts : world :=
  {| datetime_now := clock; time_time := clock;
     api_search := λ _, Some [signing 101; signing 102];
     groq := λ _, Ai.HttpTimeout;
     poster_post_tweet := λ _, Some true;
     set_order := ascending |}.

(** One source shows 10001 tweets, the newest first: identifiers 10000,
    9999, ..., 0, none about football. *)
Definition descending : world :=
  {| datetime_now := clock; time_time := clock;
     api_search := λ _, Some (signing <$> reverse (ids_from 0 (Z.to_nat 10001)));
     groq := λ _, no;
     poster_post_tweet := λ _, Some true;
     set_order := ascending |}.

Definition journo : journalist :=
  Journalist (lit "exampleJourno") (PyFloat 950 1) (Some (lit "tier1")) None.

Definition benched : journalist :=
  Journalist (lit "benched") (PyInt 60) (Some (lit "tier3")) (Some false).

Definition settings (js : list journalist) (max_posts interval : Z) : Config :=
  {| journalists := js; tweets_per_check := 10;
     max_posts_per_day := max_posts; min_post_interval := interval |}.

(** The bot after [initialize], with one post made at [last_post]. *)
Definition running (last_post : Z) : bot :=
  {| processed_tweets := ∅; last_post_time := last_post; post_count_today := 1;
     daily_reset_time := midnight 1700000000; initialized := true; trace := [] |}.

End Scenario.

(** ** What the publisher is given *)

Module BotMore.
Import Py Format Bot.
(** The call of the publisher at position [p] of the trace comes three
    events after the classification of a tweet to which the model said yes,
    then the gate, then the rewrite of that tweet, and it publishes the
    formatted rewritten text. *)
Definition vetted_at (w : world) (tr : list event) (p : nat) (text : str) : Prop :=
  ∃ t j rewritten,
    (3 ≤ p)%nat
    ∧ tr !! (p - 3)%nat = Some (Classify t)
    ∧ Ai.is_football_related (groq w (p - 3)%nat) (tweet_text t) = true
    ∧ tr !! (p - 2)%nat = Some (Gate (time_time w (p - 2)%nat))
    ∧ tr !! (p - 1)%nat = Some (Rewrite t)
    ∧ Ai.rewrite_tweet (groq w (p - 1)%nat) (tweet_text t) (username j)
        (reliability_score j) = Some rewritten
    ∧ rewritten ≠ []
    ∧ text = _format_final_tweet rewritten (username j) (reliability_score j)
               (default (lit "unknown") (tier j)).

Definition vetted (w : world) (tr : list event) : Prop :=
  ∀ p text, tr !! p = Some (Publish text) → vetted_at w tr p text.
End BotMore.

(** * More of the repository: values, configuration, notifications *)

(** ** More of Python's [str] *)

Module Text.
Import Py.

(** [s.startswith(prefix)] *)
Definition startswith (prefix s : str) : bool := bool_decide (prefix `prefix_of` s).

(** [needle in s] for two strings: [needle] occurs in [s]. *)
Fixpoint contains (needle s : str) : bool :=
  startswith needle s
  || match s with
     | [] => false
     | _ :: s' => contains needle s'
     end.

(** [s.rstrip()] *)
Definition rstrip (s : str) : str := reverse (lstrip (reverse s)).

(** [s.split(sep, 1)] for a separator of one character: the text before the
    first [sep] and, when there is one, the text after it. *)
Fixpoint split_once (sep : N) (s : str) : str * option str :=
  match s with
  | [] => ([], None)
  | c :: s' =>
      if (c =? sep)%N then ([], Some s')
      else let '(before, after) := split_once sep s' in (c :: before, after)
  end.

(** What reading a text file does to line ends (universal newlines): CR LF
    and a lone CR become LF. *)
Fixpoint universal_newlines (s : str) : str :=
  match s with
  | 13%N :: s' =>
      match s' with
      | 10%N :: s'' => 10%N :: universal_newlines s''
      | _ => 10%N :: universal_newlines s'
      end
  | c :: s' => c :: universal_newlines s'
  | [] => []
  end.

(** [for line in f]: the lines of a text, each with its LF when it has one. *)
Fixpoint lines_of (s : str) : list str :=
  match s with
  | [] => []
  | c :: s' =>
      if (c =? 10)%N then [c] :: lines_of s'
      else match lines_of s' with
           | [] => [[c]]
           | line :: lines => (c :: line) :: lines
           end
  end.

(** [s.lower()] on ASCII text, where it is exact: A-Z become a-z. The
    functions of the repository only compare lower-cased names, and are
    modelled for any lower-casing function; this one is used to run them. *)
Definition ascii_lower (s : str) : str :=
  (λ c, if (65 <=? c) && (c <=? 90) then c + 32 else c)%N <$> s.

End Text.

(** ** Values read by [json.load] *)

Module Json.
Import Py.

(** A Python object as [json.load] builds it. [JNonFinite] is one of the
    floats nan, inf and -inf, which Python's parser accepts (NaN, Infinity);
    the code below treats the three alike. An object is the list of its
    items in insertion order, with distinct keys. *)
#[warnings="-register-all"]
Inductive json :=
| JNull
| JBool (b : bool)
| JNum (x : num)
| JNonFinite
| JStr (s : str)
| JList (items : list json)
| JDict (items : list (str * json)).

(** The exceptions that matter below. *)
Inductive error := TypeError | KeyError | AttributeError | ValueError | RuntimeError.

Inductive result (A : Type) :=
| Ok (a : A)
| Raise (e : error).
Arguments Ok {A} a.
Arguments Raise {A} e.

Definition and_then {A B} (r : result A) (f : A → result B) : result B :=
  match r with
  | Ok a => f a
  | Raise e => Raise e
  end.

(** [key in d] and [d.get(key)] for a [dict]. *)
Fixpoint dict_get (d : list (str * json)) (key : str) : option json :=
  match d with
  | [] => None
  | (k, v) :: d' => if decide (k = key) then Some v else dict_get d' key
  end.

(** [d[key] = value]: an existing key keeps its place. *)
Fixpoint dict_set (d : list (str * json)) (key : str) (value : json) : list (str * json) :=
  match d with
  | [] => [(key, value)]
  | (k, v) :: d' =>
      if decide (k = key) then (k, value) :: d' else (k, v) :: dict_set d' key value
  end.

(** [bool(v)] *)
Definition truthy (v : json) : bool :=
  match v with
  | JNull => false
  | JBool b => b
  | JNum (PyInt n) => negb (n =? 0)
  | JNum (PyFloat d _) => negb (d =? 0)
  | JNonFinite => true
  | JStr s => if s is [] then false else true
  | JList l => if l is [] then false else true
  | JDict d => if d is [] then false else true
  end.

(** [v[key]] for a string [key]: only a [dict] can be indexed by a string. *)
Definition getitem (v : json) (key : str) : result json :=
  match v with
  | JDict d =>
      match dict_get d key with
      | Some x => Ok x
      | None => Raise KeyError
      end
  | _ => Raise TypeError
  end.

(** [field in v] for a string [field]: a key of a [dict], an element of a
    list, a substring of a string; the other values are not containers. *)
Definition contains (v : json) (field : str) : result bool :=
  match v with
  | JDict d => Ok (bool_decide (is_Some (dict_get d field)))
  | JList l => Ok (existsb (λ x, if x is JStr s then bool_decide (s = field) else false) l)
  | JStr s => Ok (Text.contains field s)
  | _ => Raise TypeError
  end.

(** [iter(v)], as a [for] loop uses it: the elements of a list, the keys of
    a [dict], the characters of a string. *)
Definition iterate (v : json) : result (list json) :=
  match v with
  | JList l => Ok l
  | JDict d => Ok ((λ kv, JStr kv.1) <$> d)
  | JStr s => Ok ((λ c, JStr [c]) <$> s)
  | _ => Raise TypeError
  end.

(** What opening and parsing a JSON file can give. *)
Inductive json_file :=
| NoFile                    (* FileNotFoundError *)
| Malformed                 (* json.JSONDecodeError *)
| Unreadable                (* any other exception of open or load *)
| Parsed (data : json).

End Json.

(** ** The roster of journalists ([config.py]) *)

Module Conf.
Import Py Json.

(** [x <= k] for an integer [k]. *)
Definition le (x : num) (k : Z) : bool :=
  match x with
  | PyInt n => n <=? k
  | PyFloat d p => d <=? k * 10 ^ Z.of_nat p
  end.

Definition required_fields : list str :=
  [lit "username"; lit "reliability_score"; lit "tier"].

(** The loop over [required_fields] in [_validate_journalist]:
    [Ok false] stands for its [return False]. *)
Fixpoint has_fields (fields : list str) (journalist : json) : result bool :=
  match fields with
  | [] => Ok true
  | field :: fields' =>
      and_then (contains journalist field) (λ present,
        if negb present then Ok false else has_fields fields' journalist)
  end.

(** [isinstance(score, (int, float)) and 0 <= score <= 100]. A [bool] is an
    [int] in Python, [True] being 1 and [False] 0. *)
Definition score_in_range (score : json) : bool :=
  match score with
  | JBool _ => true
  | JNum x => ge x 0 && le x 100
  | _ => false
  end.

(** [isinstance(username, str) and username.strip()], as a truth value. *)
Definition username_given (username : json) : bool :=
  match username with
  | JStr s => if strip s is [] then false else true
  | _ => false
  end.

Definition _validate_journalist (journalist : json) : result bool :=
  and_then (has_fields required_fields journalist) (λ complete,
    if negb complete then Ok false
    else
      and_then (getitem journalist (lit "reliability_score")) (λ score,
        if negb (score_in_range score) then Ok false
        else
          and_then (getitem journalist (lit "username")) (λ username,
            if negb (username_given username) then Ok false
            else Ok true))).

(** The loop of [load_journalists] that collects the valid entries. *)
Fixpoint valid_journalists (entries : list json) : result (list json) :=
  match entries with
  | [] => Ok []
  | journalist :: entries' =>
      and_then (_validate_journalist journalist) (λ valid,
        and_then (valid_journalists entries') (λ rest,
          Ok (if valid then journalist :: rest else rest)))
  end.

(** [load_journalists]: the new value of [self.journalists]. Every
    exception ends in a handler that sets the empty list. *)
Definition load_journalists (file : json_file) : list json :=
  match file with
  | Parsed (JDict data) =>
      let journalists := default (JList []) (dict_get data (lit "journalists")) in
      match and_then (iterate journalists) valid_journalists with
      | Ok valid => valid
      | Raise _ => []
      end
  | _ => []
  end.

(** The part of a [Config] that holds the roster, and [journalists.json]. *)
Record Config := {
  journalists : list json;
  journalists_json : json_file
}.

(** [save_journalists]. [writable] says whether the file could be written;
    when not, the exception is logged and the file stays as it was. *)
Definition save_journalists (writable : bool) (self : Config) : Config :=
  if writable then
    {| journalists := journalists self;
       journalists_json := Parsed (JDict [(lit "journalists", JList (journalists self))]) |}
  else self.

(** [add_journalist]: the value returned and the configuration after. *)
Definition add_journalist (username : str) (reliability_score : json) (tier : str)
    (writable : bool) (self : Config) : result (bool * Config) :=
  let new_journalist :=
    JDict [(lit "username", JStr username);
           (lit "reliability_score", reliability_score);
           (lit "tier", JStr tier);
           (lit "enabled", JBool true)] in
  and_then (_validate_journalist new_journalist) (λ valid,
    if valid then
      let self := {| journalists := journalists self ++ [new_journalist];
                     journalists_json := journalists_json self |} in
      Ok (true, save_journalists writable self)
    else Ok (false, self)).

(** [get_enabled_journalists]: [j.get('enabled', True)] asks for a [dict]. *)
Fixpoint get_enabled_journalists (journalists : list json) : result (list json) :=
  match journalists with
  | [] => Ok []
  | j :: journalists' =>
      match j with
      | JDict d =>
          and_then (get_enabled_journalists journalists') (λ rest,
            Ok (if truthy (default (JBool true) (dict_get d (lit "enabled")))
                then j :: rest else rest))
      | _ => Raise AttributeError
      end
  end.

Section Names.
(** [str.lower], the lower-casing of Unicode; the code only compares its
    results. *)
Variable lower : str → str.

(** [journalist['username'].lower() == username.lower()] *)
Definition named (journalist : json) (username : str) : result bool :=
  and_then (getitem journalist (lit "username")) (λ name,
    match name with
    | JStr s => Ok (bool_decide (lower s = lower username))
    | _ => Raise AttributeError
    end).

(** [journalist['reliability_score'] = new_score] *)
Definition set_score (journalist : json) (new_score : json) : json :=
  match journalist with
  | JDict d => JDict (dict_set d (lit "reliability_score") new_score)
  | _ => journalist
  end.

(** The loop of [update_journalist_score]: the roster with the score of the
    first journalist of that name replaced, [None] when the loop ends
    without a match. *)
Fixpoint update_first (username : str) (new_score : json) (journalists : list json) :
    result (option (list json)) :=
  match journalists with
  | [] => Ok None
  | journalist :: journalists' =>
      and_then (named journalist username) (λ found,
        if found then Ok (Some (set_score journalist new_score :: journalists'))
        else and_then (update_first username new_score journalists') (λ updated,
               Ok ((journalist ::.) <$> updated)))
  end.

Definition update_journalist_score (username : str) (new_score : json) (writable : bool)
    (self : Config) : result (bool * Config) :=
  and_then (update_first username new_score (journalists self)) (λ updated,
    match updated with
    | Some journalists' =>
        Ok (true, save_journalists writable
                    {| journalists := journalists';
                       journalists_json := journalists_json self |})
    | None => Ok (false, self)
    end).

(** The loop of [remove_journalist]: the roster without the first journalist
    of that name. *)
Fixpoint remove_first (username : str) (journalists : list json) :
    result (option (list json)) :=
  match journalists with
  | [] => Ok None
  | journalist :: journalists' =>
      and_then (named journalist username) (λ found,
        if found then Ok (Some journalists')
        else and_then (remove_first username journalists') (λ removed,
               Ok ((journalist ::.) <$> removed)))
  end.

Definition remove_journalist (username : str) (writable : bool) (self : Config) :
    result (bool * Config) :=
  and_then (remove_first username (journalists self)) (λ removed,
    match removed with
    | Some journalists' =>
        Ok (true, save_journalists writable
                    {| journalists := journalists';
                       journalists_json := journalists_json self |})
    | None => Ok (false, self)
    end).

(** [TweetTester.get_journalist_by_username] of [test_tweet.py]. *)
Fixpoint get_journalist_by_username (username : str) (journalists : list json) :
    result (option json) :=
  match journalists with
  | [] => Ok None
  | journalist :: journalists' =>
      and_then (named journalist username) (λ found,
        if found then Ok (Some journalist)
        else get_journalist_by_username username journalists')
  end.

End Names.

(** A journalist as [_validate_journalist] wants it: an object with a
    [tier], a numeric [reliability_score] from 0 to 100 and a [username]
    that is a string with a character that is not white space. *)
Definition well_formed (journalist : json) : Prop :=
  ∃ d score name,
    journalist = JDict d
    ∧ is_Some (dict_get d (lit "tier"))
    ∧ dict_get d (lit "reliability_score") = Some score
    ∧ score_in_range score = true
    ∧ dict_get d (lit "username") = Some (JStr name)
    ∧ ∃ c, c ∈ name ∧ isspace c = false.

End Conf.

(** ** The settings ([config.py], [load_settings]) *)

Module Settings.
Import Py Json.

Record Settings := {
  check_interval : json;
  tweets_per_check : json;
  max_posts_per_day : json;
  min_post_interval : json;
  groq_model : json;
  max_tweet_length : json;
  here_we_go_accounts : json;
  transfer_complete_emoji : json
}.

(** The text of [transfer_complete_emoji] in the source file, whose emoji is
    stored as the four characters U+00F0 U+0178 U+0161 U+00A8. *)
Definition transfer_completed : str :=
  [240; 376; 353; 168]%N ++ lit "TRANSFER COMPLETED" ++ [240; 376; 353; 168]%N.

Definition _set_default_settings : Settings :=
  {| check_interval := JNum (PyInt 300);
     tweets_per_check := JNum (PyInt 10);
     max_posts_per_day := JNum (PyInt 50);
     min_post_interval := JNum (PyInt 300);
     groq_model := JStr (lit "llama3-8b-8192");
     max_tweet_length := JNum (PyInt 280);
     here_we_go_accounts := JList [JStr (lit "FabrizioRomano"); JStr (lit "David_Ornstein")];
     transfer_complete_emoji := JStr transfer_completed |}.

(** [settings.get(key, default)] *)
Definition get (settings : list (str * json)) (key : string) (default_value : json) : json :=
  default default_value (dict_get settings (lit key)).

(** [load_settings]: a file that is missing, malformed or unreadable gives
    the defaults, and so does one whose content is not an object, since
    [settings.get] then raises inside the [try]. *)
Definition load_settings (file : json_file) : Settings :=
  match file with
  | Parsed (JDict settings) =>
      {| check_interval := get settings "check_interval" (JNum (PyInt 300));
         tweets_per_check := get settings "tweets_per_check" (JNum (PyInt 10));
         max_posts_per_day := get settings "max_posts_per_day" (JNum (PyInt 50));
         min_post_interval := get settings "min_post_interval" (JNum (PyInt 300));
         groq_model := get settings "groq_model" (JStr (lit "llama3-8b-8192"));
         max_tweet_length := get settings "max_tweet_length" (JNum (PyInt 280));
         here_we_go_accounts :=
           get settings "here_we_go_accounts"
             (JList [JStr (lit "FabrizioRomano"); JStr (lit "David_Ornstein")]);
         transfer_complete_emoji :=
           get settings "transfer_complete_emoji" (JStr transfer_completed) |}
  | _ => _set_default_settings
  end.

(** The keys [load_settings] reads. *)
Definition keys : list str :=
  lit <$> ["check_interval"; "tweets_per_check"; "max_posts_per_day"; "min_post_interval";
           "groq_model"; "max_tweet_length"; "here_we_go_accounts";
           "transfer_complete_emoji"]%string.

End Settings.

(** ** The environment and the [.env] file ([config.py], [setup_posting.py]) *)

Module Env.
Import Py Text Json.

(** [os.environ] *)
Abbreviation environ := (gmap str str).

(** [os.getenv(key)] *)
Definition getenv (env : environ) (key : string) : option str := env !! lit key.

(** A variable that is set and not empty: the truth value of
    [os.getenv(key)]. *)
Definition is_set (env : environ) (key : string) : bool :=
  match getenv env key with
  | Some (_ :: _) => true
  | _ => false
  end.

(** [os.environ[key] = value]. CPython refuses an empty name, a name with
    [=] in it, and a NUL character in either. *)
Definition setenv (key value : str) (env : environ) : result environ :=
  if bool_decide (key = []) || bool_decide (61%N ∈ key)
     || bool_decide (0%N ∈ key) || bool_decide (0%N ∈ value)
  then Raise ValueError
  else Ok (<[key := value]> env).

(** The body of the loop of [_load_env_file]. The unpacking of the split
    cannot fail, as the line has a [=]. *)
Definition load_line (line : str) (env : environ) : result environ :=
  let line := strip line in
  if (if line is [] then false else true) && negb (startswith (lit "#") line)
     && bool_decide (61%N ∈ line)
  then
    match split_once 61 line with
    | (key, Some value) => setenv key value env
    | (_, None) => Raise ValueError
    end
  else Ok env.

Fixpoint load_lines (lines : list str) (env : environ) : result environ :=
  match lines with
  | [] => Ok env
  | line :: lines' => and_then (load_line line env) (load_lines lines')
  end.

(** [_load_env_file]: [dotenv] is the content of [.env], [None] when there
    is no such file. An exception of [os.environ] is not caught. *)
Definition _load_env_file (dotenv : option str) (env : environ) : result environ :=
  match dotenv with
  | Some content => load_lines (lines_of (universal_newlines content)) env
  | None => Ok env
  end.

(** The attributes [load_environment_variables] sets. *)
Record Secrets := {
  groq_api_key : str;
  webhook_url : option str;
  twitter_username : option str;
  twitter_password : option str;
  twitter_email : option str;
  twitter_posting_mode : str;
  twitter_post_username : option str;
  twitter_post_password : option str;
  twitter_post_email : option str
}.

(** [load_environment_variables]: the attributes and [os.environ] after, or
    the [ValueError] for a missing or empty [GROQ_API_KEY]. *)
Definition load_environment_variables (dotenv : option str) (env : environ) :
    result (Secrets * environ) :=
  and_then (_load_env_file dotenv env) (λ env,
    match getenv env "GROQ_API_KEY" with
    | Some ((_ :: _) as key) =>
        Ok ({| groq_api_key := key;
               webhook_url := getenv env "WEBHOOK_URL";
               twitter_username := getenv env "TWITTER_USERNAME";
               twitter_password := getenv env "TWITTER_PASSWORD";
               twitter_email := getenv env "TWITTER_EMAIL";
               twitter_posting_mode :=
                 default (lit "simulator") (getenv env "TWITTER_POSTING_MODE");
               twitter_post_username := getenv env "TWITTER_POST_USERNAME";
               twitter_post_password := getenv env "TWITTER_POST_PASSWORD";
               twitter_post_email := getenv env "TWITTER_POST_EMAIL" |}, env)
    | _ => Raise ValueError
    end).

(** *** [setup_posting.py] *)

(** The [env_content] of [setup_real_posting]. *)
Definition real_posting_content (username password email : str) : str :=
  let env_content :=
    lit "# Twitter Posting Credentials" ++ NL
      ++ lit "TWITTER_POSTING_MODE=real" ++ NL
      ++ lit "TWITTER_POST_USERNAME=" ++ username ++ NL
      ++ lit "TWITTER_POST_PASSWORD=" ++ password ++ NL in
  if email is [] then env_content
  else env_content ++ lit "TWITTER_POST_EMAIL=" ++ email ++ NL.

(** [setup_real_posting]: the content of [.env] after. The user name and the
    e-mail address come from [input(...).strip()], the password from
    [getpass] as typed. [writable] says whether the file could be written. *)
Definition setup_real_posting (username_typed password email_typed : str)
    (writable : bool) (dotenv : option str) : option str :=
  let username := strip username_typed in
  let email := strip email_typed in
  if (if username is [] then true else false) || (if password is [] then true else false)
  then dotenv
  else if writable then Some (real_posting_content username password email)
  else dotenv.

(** [setup_simulation_mode] *)
Definition setup_simulation_mode (writable : bool) (dotenv : option str) : option str :=
  if writable then
    Some (lit "# Twitter Posting Credentials" ++ NL
            ++ lit "TWITTER_POSTING_MODE=simulator" ++ NL)
  else dotenv.

(** A text that fits on one line of a file and in a variable: no CR, no LF,
    no NUL. *)
Definition one_line (s : str) : Prop := Forall (λ c, c ≠ 10 ∧ c ≠ 13 ∧ c ≠ 0)%N s.

End Env.

(** ** Notifications ([error_handler.py]) *)

Module Errors.
Import Py.

(** What the webhook does with one POST. *)
Inductive webhook_reply :=
| Answered (status : Z)
| TimedOut
| Unreachable.

(** The JSON body of a notification; [timestamp] is the time read when the
    body is built. *)
Record payload := Payload {
  payload_error_type : str;
  payload_message : str;
  payload_error_count : Z;
  payload_bot_name : str;
  payload_timestamp : option Z
}.

(** The records the handler writes to the log. *)
Inductive record :=
| Reported (error_type error_message : str)   (* error: "[{error_type}] {error_message}" *)
| NotSent                                      (* warning: webhook URL not configured *)
| Delivered                                    (* debug: sent successfully *)
| Rejected (status : Z)                        (* warning: notification failed: {status} *)
| Expired                                      (* warning: notification timed out *)
| Undelivered                                  (* error: failed to send *)
| NothingToTest                                (* warning: no webhook URL for testing *)
| TestCompleted.                               (* info: webhook test completed *)

(** An [ErrorHandler], with the requests it has sent to the webhook and
    what it has logged. *)
Record ErrorHandler := {
  webhook_url : option str;
  error_count : Z;
  last_error_time : option Z;
  requests : list payload;
  logged : list record
}.

(** [ErrorHandler(webhook_url)] *)
Definition new (webhook_url : option str) : ErrorHandler :=
  {| webhook_url := webhook_url; error_count := 0; last_error_time := None;
     requests := []; logged := [] |}.

(** The outside of one call: the two readings of [datetime.now()], in
    [send_error] and in the body, and the answer of the webhook. *)
Record moment := {
  now : Z;
  stamp : Z;
  reply : webhook_reply
}.

Definition log (r : record) (self : ErrorHandler) : ErrorHandler :=
  {| webhook_url := webhook_url self; error_count := error_count self;
     last_error_time := last_error_time self; requests := requests self;
     logged := logged self ++ [r] |}.

(** The truth value of [self.webhook_url]. *)
Definition has_url (self : ErrorHandler) : bool :=
  match webhook_url self with
  | Some (_ :: _) => true
  | _ => false
  end.

(** [_send_webhook_notification]: the request goes out, and every outcome,
    exceptions included, ends in a log record. *)
Definition _send_webhook_notification (m : moment) (error_message error_type : str)
    (include_timestamp : bool) (self : ErrorHandler) : ErrorHandler :=
  let body :=
    {| payload_error_type := error_type;
       payload_message := error_message;
       payload_error_count := error_count self;
       payload_bot_name := lit "Football Twitter Bot";
       payload_timestamp := if include_timestamp then Some (stamp m) else None |} in
  let self :=
    {| webhook_url := webhook_url self; error_count := error_count self;
       last_error_time := last_error_time self; requests := requests self ++ [body];
       logged := logged self |} in
  match reply m with
  | Answered status => if status =? 200 then log Delivered self else log (Rejected status) self
  | TimedOut => log Expired self
  | Unreachable => log Undelivered self
  end.

Definition send_error (m : moment) (error_message error_type : str)
    (include_timestamp : bool) (self : ErrorHandler) : ErrorHandler :=
  let self :=
    {| webhook_url := webhook_url self; error_count := error_count self + 1;
       last_error_time := Some (now m); requests := requests self;
       logged := logged self |} in
  let self := log (Reported error_type error_message) self in
  if has_url self
  then _send_webhook_notification m error_message error_type include_timestamp self
  else log NotSent self.

Definition send_info (m : moment) (message : str) : ErrorHandler → ErrorHandler :=
  send_error m message (lit "INFO") true.

Definition send_warning (m : moment) (message : str) : ErrorHandler → ErrorHandler :=
  send_error m message (lit "WARNING") true.

Definition send_critical (m : moment) (message : str) : ErrorHandler → ErrorHandler :=
  send_error m message (lit "CRITICAL") true.

Definition send_daily_summary (m : moment) (posts_count errors_count : Z) :
    ErrorHandler → ErrorHandler :=
  send_info m (lit "Daily Summary - Posts: " ++ to_str (PyInt posts_count)
                 ++ lit ", Errors: " ++ to_str (PyInt errors_count)).

(** [get_error_stats]: [total_errors], [last_error_time] and
    [webhook_configured]. *)
Record stats := {
  total_errors : Z;
  stats_last_error_time : option Z;
  webhook_configured : bool
}.

Definition get_error_stats (self : ErrorHandler) : stats :=
  {| total_errors := error_count self;
     stats_last_error_time := last_error_time self;
     webhook_configured := if webhook_url self is Some _ then true else false |}.

(** [test_webhook]: the value returned and the handler after. *)
Definition test_webhook (m : moment) (self : ErrorHandler) : bool * ErrorHandler :=
  if negb (has_url self) then (false, log NothingToTest self)
  else
    let self :=
      _send_webhook_notification m (lit "Webhook test from Football Twitter Bot")
        (lit "TEST") true self in
    (true, log TestCompleted self).

(** The notifications a caller can ask for. *)
Inductive notification :=
| AnError (error_message error_type : str) (include_timestamp : bool)
| AnInfo (message : str)
| AWarning (message : str)
| ACritical (message : str)
| ADailySummary (posts_count errors_count : Z).

Definition deliver (self : ErrorHandler) (call : moment * notification) : ErrorHandler :=
  let '(m, n) := call in
  match n with
  | AnError error_message error_type include_timestamp =>
      send_error m error_message error_type include_timestamp self
  | AnInfo message => send_info m message self
  | AWarning message => send_warning m message self
  | ACritical message => send_critical m message self
  | ADailySummary posts_count errors_count =>
      send_daily_summary m posts_count errors_count self
  end.

(** The [error_type] a notification goes out with. *)
Definition kind (n : notification) : str :=
  match n with
  | AnError _ error_type _ => error_type
  | AnInfo _ | ADailySummary _ _ => lit "INFO"
  | AWarning _ => lit "WARNING"
  | ACritical _ => lit "CRITICAL"
  end.

End Errors.

(** ** Starting up ([twitter_manager.py], [twitter_poster.py], [bot.py],
    [health_check.py]) *)

Module Manager.
Import Py Json Env.

Inductive poster := TwitterPoster | TwitterPosterSimulator.

Record TwitterManager := {
  poster_used : option poster;
  initialized : bool;
  posting_enabled : bool
}.

(** [TwitterManager()] *)
Definition new : TwitterManager :=
  {| poster_used := None; initialized := false; posting_enabled := false |}.

(** [TwitterPoster.initialize]: whether it returns; otherwise it raises.
    [login] says whether the browser could be started and the login went
    through. *)
Definition poster_initialize (env : environ) (login : bool) : bool :=
  is_set env "TWITTER_POST_USERNAME" && is_set env "TWITTER_POST_PASSWORD" && login.

(** [TwitterManager.initialize]. [api_error] is the text of the exception of
    [API()], if it raises one. *)
Definition initialize (env : environ) (api_error : option str) (login : bool) :
    TwitterManager + str :=
  match api_error with
  | Some reason => inr reason
  | None =>
      let posting_mode := default (lit "simulator") (getenv env "TWITTER_POSTING_MODE") in
      if bool_decide (posting_mode = lit "real")
         && is_set env "TWITTER_POST_USERNAME" && is_set env "TWITTER_POST_PASSWORD"
      then
        if poster_initialize env login
        then inl {| poster_used := Some TwitterPoster; initialized := true;
                    posting_enabled := true |}
        else inl {| poster_used := Some TwitterPosterSimulator; initialized := true;
                    posting_enabled := false |}
      else inl {| poster_used := Some TwitterPosterSimulator; initialized := true;
                  posting_enabled := false |}
  end.

(** [post_tweet] of the two posters, after their [initialize]. [browser] is
    what the automation of the browser gives: [Some true] when the post went
    through, [Some false] when the button was disabled, [None] for an
    exception. *)
Definition poster_post_tweet (p : poster) (browser : option bool) : bool :=
  match p with
  | TwitterPosterSimulator => true
  | TwitterPoster => default false browser
  end.

(** [TwitterManager.post_tweet] *)
Definition post_tweet (browser : option bool) (self : TwitterManager) : result bool :=
  if negb (initialized self) then Raise RuntimeError
  else
    match poster_used self with
    | Some p => Ok (poster_post_tweet p browser)
    | None => Ok false
    end.

End Manager.

Module Startup.
Import Py Json.

(** [AIProcessor.test_connection]: [True] for a 200 response, [False] for
    any other and for every exception. *)
Definition test_connection (reply : Ai.http_reply) : bool :=
  match reply with
  | Ai.HttpResponse status _ => status =? 200
  | Ai.HttpTimeout => false
  | Ai.HttpFailure => false
  end.

(** [FootballTwitterBot.initialize]: the manager, or the text of the
    exception raised again, and the error handler after. *)
Definition initialize (env : Env.environ) (api_error : option str) (login : bool)
    (reply : Ai.http_reply) (m : Errors.moment) (error_handler : Errors.ErrorHandler) :
    (Manager.TwitterManager + str) * Errors.ErrorHandler :=
  match Manager.initialize env api_error login with
  | inl manager =>
      let _ := test_connection reply in
      (inl manager, error_handler)
  | inr e =>
      (inr e,
       Errors.send_error m (lit "Bot initialization failed: " ++ e) (lit "ERROR") true
         error_handler)
  end.

(** [HealthChecker._check_ai_connection]: [True] unless [test_connection]
    raises, which it does not. *)
Definition _check_ai_connection (reply : Ai.http_reply) : bool :=
  match Ok (test_connection reply) with
  | Ok _ => true
  | Raise _ => false
  end.

(** The body of the answer of [health_check], without its times. *)
Record status := {
  overall : str;
  ai_processor : str;
  config : str;
  journalists_configured : Z;
  enabled_journalists : Z
}.

(** [HealthChecker.health_check]: the HTTP status and the body; an
    exception gives 500 and the body [None] stands for the error body. *)
Definition health_check (reply : Ai.http_reply) (journalists : list json) :
    Z * option status :=
  let ai_status := _check_ai_connection reply in
  match Conf.get_enabled_journalists journalists with
  | Ok enabled =>
      (200,
       Some {| overall := if ai_status then lit "healthy" else lit "degraded";
               ai_processor := if ai_status then lit "healthy" else lit "unhealthy";
               config := if 0 <? len journalists then lit "healthy" else lit "unhealthy";
               journalists_configured := len journalists;
               enabled_journalists := len enabled |})
  | Raise _ => (500, None)
  end.

End Startup.

(** ** Concrete cases *)

Module Cases.
Import Py Json Bot.

(** A bot during a day: the day of its last reset, the posts it has made,
    and whether its Twitter manager was initialized. *)
Definition at_work (reset_day posts : Z) (ready : bool) : bot :=
  {| processed_tweets := ∅; last_post_time := 0; post_count_today := posts;
     daily_reset_time := reset_day; initialized := ready; trace := [] |}.

(** An entry of [journalists.json]. *)
Definition entry (username : string) (reliability_score : json) : json :=
  JDict [(lit "username", JStr (lit username));
         (lit "reliability_score", reliability_score);
         (lit "tier", JStr (lit "tier1"))].

Definition reporter : json := entry "exampleJourno" (JNum (PyFloat 950 1)).
Definition insider : json := entry "transferDesk" (JNum (PyInt 72)).

(** [journalists.json] with these entries, and a configuration that has
    loaded it. *)
Definition roster_file (entries : list json) : json_file :=
  Parsed (JDict [(lit "journalists", JList entries)]).

Definition roster (entries : list json) : Conf.Config :=
  {| Conf.journalists := entries; Conf.journalists_json := roster_file entries |}.

(** A webhook that answers 500. *)
Definition outage : Errors.moment :=
  {| Errors.now := 1700000000; Errors.stamp := 1700000001;
     Errors.reply := Errors.Answered 500 |}.

End Cases.

(** * Properties *)

Import Py Format Bot.

(** ** The values *)

Example to_str_float : to_str (PyFloat 950 1) = lit "95.0".
Proof. reflexivity. Qed.

Example to_str_float_digits : to_str (PyFloat 8725 2) = lit "87.25".
Proof. reflexivity. Qed.

Example to_str_float_zeros : to_str (PyFloat 500 2) = lit "5.0".
Proof. reflexivity. Qed.

Example to_str_int : to_str (PyInt 95) = lit "95".
Proof. reflexivity. Qed.

Example strip_spaces : strip (lit "  yes " ++ NL) = lit "yes".
Proof. reflexivity. Qed.

Example classify_yes :
  Ai.is_football_related (Ai.HttpResponse 200 (Some (lit " yes "))) (lit "x") = true.
Proof. reflexivity. Qed.

Example classify_server_error :
  Ai.is_football_related (Ai.HttpResponse 500 (Some (lit "YES"))) (lit "x") = false.
Proof. reflexivity. Qed.

Example rewrite_unquotes :
  Ai.rewrite_tweet (Ai.HttpResponse 200 (Some ([34%N] ++ lit "Here we go" ++ [34%N])))
    [] [] (PyInt 0)
  = Some (lit "Here we go").
Proof. reflexivity. Qed.

(** ** The format *)

Section FormatFacts.

Lemma len_app {A} (l1 l2 : list A) : len (l1 ++ l2) = len l1 + len l2.
Proof. unfold len. rewrite length_app. lia. Qed.

Lemma len_nonneg {A} (l : list A) : 0 ≤ len l.
Proof. unfold len. lia. Qed.

Lemma lt_not_ge (x : num) (k : Z) : lt x k = negb (ge x k).
Proof. destruct x; simpl; apply Z.ltb_antisym. Qed.

Lemma spec_emoji_correct (score : num) : spec_emoji score = reliability_emoji score.
Proof.
  unfold spec_emoji, reliability_emoji. rewrite !lt_not_ge.
  destruct (ge score 90), (ge score 70), (ge score 50); reflexivity.
Qed.

Lemma assemble_attribution (text username : str) (score : num) :
  assemble text username score = text ++ attribution username score.
Proof. unfold assemble, attribution. by rewrite <- !app_assoc. Qed.

Lemma spec_format_assemble (text username : str) (score : num) :
  spec_format text username score = assemble text username score.
Proof.
  unfold spec_format, assemble. rewrite spec_emoji_correct.
  by rewrite <- !app_assoc.
Qed.

Lemma slice_to_nonneg {A} (k : Z) (l : list A) :
  0 ≤ k → slice_to k l = take (Z.to_nat k) l.
Proof. intros Hk. unfold slice_to. by rewrite (proj2 (Z.leb_le 0 k) Hk). Qed.

End FormatFacts.

(** ** The bot *)

#[local] Arguments lit : simpl never.
#[local] Arguments _format_final_tweet : simpl never.
#[local] Arguments Ai.rewrite_tweet : simpl never.
#[local] Arguments Ai.is_football_related : simpl never.
#[local] Arguments slice_last : simpl never.

Section BotFacts.
Variable w : world.
Variable config : Config.

#[local] Abbreviation publish_flow := (Bot.publish_flow w config).
#[local] Abbreviation within_cap := (Bot.within_cap config).
#[local] Abbreviation paced := (Bot.paced w config).
#[local] Abbreviation paced_bot := (Bot.paced_bot w config).
#[local] Abbreviation visit := (Bot.visit w config).

Lemma log_log (e1 e2 : list event) (self : bot) :
  log e2 (log e1 self) = log (e1 ++ e2) self.
Proof. unfold log, set_trace. simpl. by rewrite <- app_assoc. Qed.

Lemma consult_run {A} (oracle : world → nat → A) (e : A → event) (self : bot) :
  consult w oracle e self
  = (Done (oracle w (length (trace self))),
     log [e (oracle w (length (trace self)))] self).
Proof. reflexivity. Qed.


Lemma can_post_run (self : bot) :
  let now := time_time w (length (trace self)) in
  _can_post w config self
  = (Done (if now - last_post_time self <? min_post_interval config then false
           else if max_posts_per_day config <=? post_count_today self then false
           else true),
     log [Gate now] self).
Proof.
  intros now. unfold _can_post, bind. rewrite consult_run. fold now. simpl.
  by repeat case_match.
Qed.

Lemma post_tweet_run (text : str) (self : bot) :
  initialized self = true →
  post_tweet w text self
  = (Done (default false (poster_post_tweet w (length (trace self)))),
     log [Publish text] self).
Proof. intros Hinit. unfold post_tweet, bind. simpl. by rewrite Hinit. Qed.

Lemma post_tweet_raise (text : str) (self : bot) :
  initialized self = false →
  post_tweet w text self = (Raised RuntimeError, self).
Proof. intros Hinit. unfold post_tweet, bind. simpl. by rewrite Hinit. Qed.

Lemma rewrite_tweet_run (t : tweet) (j : journalist) (self : bot) :
  rewrite_tweet w t j self
  = (Done (Ai.rewrite_tweet (groq w (length (trace self))) (tweet_text t)
             (username j) (reliability_score j)),
     log [Rewrite t] self).
Proof. reflexivity. Qed.

Lemma is_football_related_run (t : tweet) (self : bot) :
  is_football_related w t self
  = (Done (Ai.is_football_related (groq w (length (trace self))) (tweet_text t)),
     log [Classify t] self).
Proof. reflexivity. Qed.

Lemma processed_tweets_log (evs : list event) (self : bot) :
  processed_tweets (log evs self) = processed_tweets self.
Proof. reflexivity. Qed.

Lemma trace_log (evs : list event) (self : bot) :
  trace (log evs self) = trace self ++ evs.
Proof. reflexivity. Qed.

Lemma length_trace_log (evs : list event) (self : bot) :
  length (trace (log evs self)) = (length (trace self) + length evs)%nat.
Proof. simpl. apply length_app. Qed.

Ltac normalize_log :=
  rewrite ?log_log, ?length_trace_log; cbn [app length Nat.add].

Lemma process_football_tweet_run (t : tweet) (j : journalist) (self : bot) :
  ∃ self', _process_football_tweet w config t j self = (Done tt, self')
           ∧ publish_flow t j self self'.
Proof.
  unfold _process_football_tweet, try_except, bind at 1.
  rewrite can_post_run. cbv zeta.
  destruct (Z.ltb_spec (time_time w (length (trace self)) - last_post_time self)
              (min_post_interval config)) as [Hi|Hi].
  { eexists; split; [reflexivity|]. apply flow_deferred. by left. }
  destruct (Z.leb_spec (max_posts_per_day config) (post_count_today self)) as [Hc|Hc].
  { eexists; split; [reflexivity|]. apply flow_deferred. by right. }
  cbn [negb]. unfold bind at 1. rewrite rewrite_tweet_run. normalize_log.
  destruct (Ai.rewrite_tweet _ _ _ _) as [[|c r]|] eqn:Hrw.
  1, 3: eexists; split; [reflexivity|]; apply flow_no_rewrite; [done|done|];
    intros c' r'; rewrite Hrw; discriminate.
  unfold bind at 1.
  destruct (initialized self) eqn:Hinit.
  - rewrite post_tweet_run by done. normalize_log.
    destruct (default false (poster_post_tweet w (length (trace self) + 2)%nat)) eqn:Hpost.
    + unfold bind at 1. rewrite consult_run. normalize_log.
      eexists; split; [|by eapply flow_posted].
      unfold bind, modify, get, assign_post_count_today, emit, modify, bind.
      unfold log, set_trace, set_post_count_today, set_last_post_time. simpl.
      by rewrite <- app_assoc.
    + unfold send_error, emit, modify. normalize_log.
      eexists; split; [reflexivity|]. by eapply flow_failed.
  - rewrite post_tweet_raise by done. unfold send_error, emit, modify. normalize_log.
    eexists; split; [reflexivity|]. by eapply flow_raised.
Qed.


Lemma process_football_tweet_done (t : tweet) (j : journalist) (self : bot) :
  _process_football_tweet w config t j self
  = (Done tt, exec (_process_football_tweet w config t j) self).
Proof.
  destruct (process_football_tweet_run t j self) as (self' & Hrun & _).
  unfold exec. by rewrite Hrun.
Qed.

Lemma limit_processed_tweets_under (self : bot) :
  Z.of_nat (size (processed_tweets self)) ≤ 10000 →
  limit_processed_tweets w self = (Done tt, self).
Proof.
  intros Hsize. unfold limit_processed_tweets, bind, get.
  by rewrite (proj2 (Z.ltb_ge _ _) Hsize).
Qed.

Lemma limit_processed_tweets_over (self : bot) :
  10000 < Z.of_nat (size (processed_tweets self)) →
  let seen := processed_tweets self in
  let kept : gset Z :=
    list_to_set (slice_last 5000 (set_order w (length (trace self)) seen)) in
  limit_processed_tweets w self
  = (Done tt, set_processed_tweets kept (log [Evict (seen ∖ kept)] self)).
Proof.
  intros Hsize seen kept. unfold limit_processed_tweets, bind, get.
  by rewrite (proj2 (Z.ltb_lt _ _) Hsize).
Qed.

Lemma limit_processed_tweets_done (self : bot) :
  limit_processed_tweets w self = (Done tt, exec (limit_processed_tweets w) self).
Proof.
  destruct (Z.le_gt_cases (Z.of_nat (size (processed_tweets self))) 10000) as [H|H].
  - unfold exec. by rewrite limit_processed_tweets_under.
  - unfold exec. by rewrite limit_processed_tweets_over.
Qed.

Lemma monitor_tweet_seen (j : journalist) (t : tweet) (self : bot) :
  tweet_id t ∈ processed_tweets self →
  monitor_tweet w config j t self = (Done tt, self).
Proof.
  intros Hseen. unfold monitor_tweet, try_except, bind at 1, get.
  by rewrite bool_decide_eq_true_2.
Qed.

(** The state after a tweet that was not seen before: classified, put
    through the publish flow when relevant, marked, and the cache capped. *)
Lemma monitor_tweet_unseen (j : journalist) (t : tweet) (self : bot) :
  tweet_id t ∉ processed_tweets self →
  let relevant :=
    Ai.is_football_related (groq w (length (trace self))) (tweet_text t) in
  let s1 := log [Classify t] self in
  let s2 := if relevant then exec (_process_football_tweet w config t j) s1 else s1 in
  let s3 := set_processed_tweets ({[tweet_id t]} ∪ processed_tweets s2) s2 in
  monitor_tweet w config j t self = (Done tt, exec (limit_processed_tweets w) s3).
Proof.
  intros Hnew relevant s1 s2 s3. unfold monitor_tweet, try_except, bind at 1, get.
  rewrite bool_decide_eq_false_2 by done. cbn [_is_recent_tweet negb].
  unfold bind at 1. rewrite is_football_related_run. fold relevant s1.
  unfold bind at 1.
  assert (Hs2 : (if relevant then _process_football_tweet w config t j else ret tt) s1
                = (Done tt, s2)).
  { subst s2. destruct relevant; [apply process_football_tweet_done | done]. }
  rewrite Hs2. unfold bind at 1, modify. fold s3.
  by rewrite limit_processed_tweets_done.
Qed.

Lemma monitor_tweet_done (j : journalist) (t : tweet) (self : bot) :
  monitor_tweet w config j t self = (Done tt, exec (monitor_tweet w config j t) self).
Proof.
  destruct (decide (tweet_id t ∈ processed_tweets self)) as [Hseen|Hnew].
  - unfold exec. by rewrite monitor_tweet_seen.
  - unfold exec. by rewrite monitor_tweet_unseen.
Qed.

Section Lifting.
Variable I : bot → Prop.
Hypothesis I_quiet : ∀ self e, quiet e → I self → I (log [e] self).
Hypothesis I_reset : ∀ self today,
  I self →
  I (set_daily_reset_time today (set_post_count_today 0 (log [Count 0] self))).
Hypothesis I_tweet : ∀ j t self, I self → I (exec (monitor_tweet w config j t) self).

Lemma for_each_tweets_lift (j : journalist) (tweets : list tweet) (self : bot) :
  I self →
  ∃ self', for_each tweets (monitor_tweet w config j) self = (Done tt, self') ∧ I self'.
Proof.
  revert self. induction tweets as [|t tweets IH]; intros self HI.
  - by exists self.
  - cbn [for_each]. unfold bind. rewrite monitor_tweet_done.
    apply IH, I_tweet, HI.
Qed.

Lemma check_daily_reset_lift (self : bot) :
  I self → ∃ self', _check_daily_reset w self = (Done tt, self') ∧ I self'.
Proof.
  intros HI. unfold _check_daily_reset, bind at 1. rewrite consult_run.
  unfold assign_post_count_today, emit, bind, get, modify.
  case_match; (eexists; split; [reflexivity|]); [|by apply I_quiet].
  apply (I_reset (log [Today _] self)). by apply I_quiet.
Qed.

(** One pass of the loop over the journalists. *)
Lemma visit_lift (j : journalist) (self : bot) :
  I self →
  ∃ self', visit j self = (Done tt, self') ∧ I self'.
Proof.
  intros HI. unfold Bot.visit, try_except at 1, bind at 1, _monitor_journalist, try_except, bind at 1.
  unfold get_user_tweets, bind at 1, get.
  destruct (initialized self) eqn:Hinit; cbn [negb].
  - unfold bind at 1. rewrite consult_run. unfold ret at 1.
    assert (HI1 : I (log [Fetch (username j)] self)) by by apply I_quiet.
    destruct (default [] (api_search w (length (trace self)))) as [|t tweets].
    + eexists; split; [reflexivity|]. by apply I_quiet.
    + destruct (for_each_tweets_lift j (t :: tweets) _ HI1) as (self' & -> & HI').
      eexists; split; [reflexivity|]. by apply I_quiet.
  - eexists; split; [reflexivity|]. by apply I_quiet.
Qed.

Lemma for_each_journalists_lift (js : list journalist) (self : bot) :
  I self →
  ∃ self', for_each js visit self = (Done tt, self') ∧ I self'.
Proof.
  revert self. induction js as [|j js IH]; intros self HI.
  - by exists self.
  - cbn [for_each]. unfold bind at 1.
    destruct (visit_lift j self HI) as (self' & -> & HI'). by apply IH.
Qed.

Lemma run_cycle_lift (self : bot) :
  I self → ∃ self', run_cycle w config self = (Done tt, self') ∧ I self'.
Proof.
  intros HI. unfold run_cycle, try_except at 1, bind at 1.
  destruct (check_daily_reset_lift self HI) as (s1 & -> & HI1).
  unfold bind at 1, get.
  destruct (max_posts_per_day config <=? post_count_today s1).
  - by exists s1.
  - destruct (for_each_journalists_lift (journalists config) s1 HI1) as (s2 & -> & HI2).
    by exists s2.
Qed.

Lemma run_cycles_lift (n : nat) (self : bot) :
  I self → ∃ self', run_cycles w config n self = (Done tt, self') ∧ I self'.
Proof.
  revert self. induction n as [|n IH]; intros self HI.
  - by exists self.
  - cbn [run_cycles]. unfold bind.
    destruct (run_cycle_lift self HI) as (s1 & -> & HI1). by apply IH.
Qed.

Lemma run_cycles_invariant (n : nat) (self : bot) :
  I self → I (exec (run_cycles w config n) self).
Proof.
  intros HI. destruct (run_cycles_lift n self HI) as (self' & Hrun & HI').
  unfold exec. by rewrite Hrun.
Qed.

End Lifting.

(** *** What a step leaves alone *)

Lemma exec_monitor_tweet_seen (j : journalist) (t : tweet) (self : bot) :
  tweet_id t ∈ processed_tweets self →
  exec (monitor_tweet w config j t) self = self.
Proof. intros Hseen. unfold exec. by rewrite monitor_tweet_seen. Qed.

Lemma exec_monitor_tweet_unseen (j : journalist) (t : tweet) (self : bot) :
  tweet_id t ∉ processed_tweets self →
  let relevant :=
    Ai.is_football_related (groq w (length (trace self))) (tweet_text t) in
  let s1 := log [Classify t] self in
  let s2 := if relevant then exec (_process_football_tweet w config t j) s1 else s1 in
  let s3 := set_processed_tweets ({[tweet_id t]} ∪ processed_tweets s2) s2 in
  exec (monitor_tweet w config j t) self = exec (limit_processed_tweets w) s3.
Proof. intros Hnew. cbv zeta. unfold exec at 1. by rewrite monitor_tweet_unseen. Qed.

Lemma exec_process_football_tweet (t : tweet) (j : journalist) (self : bot) :
  publish_flow t j self (exec (_process_football_tweet w config t j) self).
Proof.
  destruct (process_football_tweet_run t j self) as (self' & Hrun & Hflow).
  unfold exec. by rewrite Hrun.
Qed.

(** The cap only writes the cache and logs what it dropped. *)
Lemma exec_limit_processed_tweets (self : bot) :
  let self' := exec (limit_processed_tweets w) self in
  (self' = self ∧ Z.of_nat (size (processed_tweets self)) ≤ 10000)
  ∨ (10000 < Z.of_nat (size (processed_tweets self))
     ∧ ∃ kept, self' = set_processed_tweets kept
                         (log [Evict (processed_tweets self ∖ kept)] self)
               ∧ kept = list_to_set (slice_last 5000
                          (set_order w (length (trace self)) (processed_tweets self)))).
Proof.
  destruct (Z.le_gt_cases (Z.of_nat (size (processed_tweets self))) 10000) as [H|H].
  - left. unfold exec. by rewrite limit_processed_tweets_under.
  - right. split; [lia|]. eexists. split; [|reflexivity].
    unfold exec. rewrite limit_processed_tweets_over by lia. reflexivity.
Qed.

(** Whatever the enumeration, a cap leaves 5000 of the identifiers. *)
Lemma limit_processed_tweets_size (self : bot) :
  enumerates w →
  10000 < Z.of_nat (size (processed_tweets self)) →
  let self' := exec (limit_processed_tweets w) self in
  size (processed_tweets self') = 5000%nat
  ∧ processed_tweets self' ⊆ processed_tweets self.
Proof.
  intros Henum Hover self'. subst self'. unfold exec.
  rewrite limit_processed_tweets_over by done. cbn [snd processed_tweets set_processed_tweets].
  destruct (Henum (length (trace self)) (processed_tweets self)) as [Hdup Hin].
  set (l := set_order w (length (trace self)) (processed_tweets self)) in *.
  assert (Hlen : length l = size (processed_tweets self)).
  { unfold size, set_size. cbn. apply Permutation_length, NoDup_Permutation;
      [done|apply NoDup_elements|].
    intros x. by rewrite Hin, elem_of_elements. }
  split.
  - unfold slice_last. rewrite size_list_to_set.
    + rewrite length_drop. lia.
    + eapply sublist_NoDup; [done|apply sublist_drop].
  - intros x Hx%elem_of_list_to_set. apply Hin.
    unfold slice_last in Hx. by eapply subseteq_drop.
Qed.

Lemma counts_app (tr1 tr2 : list event) : counts (tr1 ++ tr2) = counts tr1 ++ counts tr2.
Proof. apply omap_app. Qed.

Lemma posted_app (tr1 tr2 : list event) : posted (tr1 ++ tr2) = posted tr1 ++ posted tr2.
Proof. apply omap_app. Qed.

Lemma classified_app (tr1 tr2 : list event) :
  classified (tr1 ++ tr2) = classified tr1 ++ classified tr2.
Proof. apply omap_app. Qed.

Lemma fetched_app (tr1 tr2 : list event) : fetched (tr1 ++ tr2) = fetched tr1 ++ fetched tr2.
Proof. apply omap_app. Qed.

Lemma published_app (tr1 tr2 : list event) :
  published (tr1 ++ tr2) = published tr1 ++ published tr2.
Proof. apply omap_app. Qed.

Lemma notified_app (tr1 tr2 : list event) :
  notified (tr1 ++ tr2) = notified tr1 ++ notified tr2.
Proof. apply omap_app. Qed.

Lemma evicted_app (tr1 tr2 : list event) : evicted (tr1 ++ tr2) = evicted tr1 ∪ evicted tr2.
Proof. unfold evicted. rewrite omap_app. apply leibniz_equiv, union_list_app. Qed.

(** *** The daily cap *)

Lemma within_cap_frame (self self' : bot) :
  post_count_today self' = post_count_today self →
  counts (trace self') = counts (trace self) →
  within_cap self → within_cap self'.
Proof. unfold Bot.within_cap. by intros -> ->. Qed.

Lemma within_cap_publish_flow (t : tweet) (j : journalist) (self self' : bot) :
  publish_flow t j self self' → within_cap self → within_cap self'.
Proof.
  intros Hflow Hcap.
  destruct Hflow; try (by eapply within_cap_frame; [..|exact Hcap];
    [reflexivity | cbn; rewrite counts_app, app_nil_r]).
  destruct Hcap as [Hc Hall]. split; cbn; [lia|].
  rewrite counts_app. apply Forall_app. split; [done|]. cbn.
  apply Forall_singleton. lia.
Qed.

Lemma within_cap_tweet (j : journalist) (t : tweet) (self : bot) :
  within_cap self → within_cap (exec (monitor_tweet w config j t) self).
Proof.
  intros Hcap. destruct (decide (tweet_id t ∈ processed_tweets self)) as [Hseen|Hnew].
  { by rewrite exec_monitor_tweet_seen. }
  rewrite exec_monitor_tweet_unseen by done. cbv zeta.
  set (s1 := log [Classify t] self).
  assert (H1 : within_cap s1).
  { eapply within_cap_frame; [..|exact Hcap]; [done|].
    cbn. by rewrite counts_app, app_nil_r. }
  set (s2 := if Ai.is_football_related _ _ then _ else _).
  assert (H2 : within_cap s2).
  { subst s2. case_match; [|done].
    eapply within_cap_publish_flow; [apply exec_process_football_tweet|done]. }
  set (s3 := set_processed_tweets _ s2).
  assert (H3 : within_cap s3) by done.
  destruct (exec_limit_processed_tweets s3) as [[-> _]|(_ & kept & -> & _)]; [done|].
  eapply within_cap_frame; [..|exact H3]; [done|].
  cbn. by rewrite counts_app, app_nil_r.
Qed.

Lemma within_cap_run_cycles (n : nat) (self : bot) :
  0 ≤ max_posts_per_day config →
  within_cap self → within_cap (exec (run_cycles w config n) self).
Proof.
  intros Hmax. apply run_cycles_invariant.
  - intros s e Hq Hcap. eapply within_cap_frame; [..|exact Hcap]; [done|].
    cbn. rewrite counts_app. destruct e; try done; cbn; by rewrite app_nil_r.
  - intros s today [Hc Hall]. split; cbn; [lia|].
    rewrite counts_app. apply Forall_app. split; [done|].
    apply Forall_singleton. lia.
  - apply within_cap_tweet.
Qed.

(** *** The minimum interval *)

Lemma lookup_published (evs : list event) (p : nat) (text : str) :
  evs !! p = Some (Publish text) → text ∈ published evs.
Proof.
  intros Hp. unfold published. apply list_elem_of_omap.
  exists (Publish text). split; [|done]. by eapply list_elem_of_lookup_2.
Qed.

Lemma StronglySorted_related {A} (R : relation A) (l : list A) (x y : A) :
  StronglySorted R l → x ∈ l → y ∈ l → x = y ∨ R x y ∨ R y x.
Proof.
  induction 1 as [|a l Hl IH Ha]; intros Hx Hy.
  - by apply elem_of_nil in Hx.
  - rewrite Forall_forall in Ha.
    apply elem_of_cons in Hx as [->|Hx], Hy as [->|Hy]; auto.
Qed.

Section Paced.
Hypothesis clock_monotone : ∀ i j, (i ≤ j)%nat → time_time w i ≤ time_time w j.

Lemma paced_silent (last_post : Z) (tr evs : list event) :
  posted evs = [] → published evs = [] →
  paced last_post tr → paced last_post (tr ++ evs).
Proof.
  intros Hposted Hpublished (Hlast & Hold & Hsorted & Hgate).
  unfold Bot.paced. rewrite posted_app, Hposted, app_nil_r. split_and!; [done| |done|].
  - eapply Forall_impl; [exact Hold|]. intros t (Hle & i & Hi & ->).
    split; [done|]. exists i. rewrite length_app. split; [lia|done].
  - intros p text Hp. apply lookup_app_Some in Hp as [Hp|[_ Hp]].
    + rewrite take_app_le by (apply lookup_lt_Some in Hp; lia). by eapply Hgate.
    + apply lookup_published in Hp. rewrite Hpublished in Hp. by apply elem_of_nil in Hp.
Qed.

Lemma paced_publish (last_post : Z) (tr : list event) (text : str) :
  min_post_interval config ≤ time_time w (length tr) - last_post →
  paced last_post tr → paced last_post (tr ++ [Publish text]).
Proof.
  intros Hopen (Hlast & Hold & Hsorted & Hgate).
  unfold Bot.paced. rewrite posted_app, app_nil_r. split_and!; [done| |done|].
  - eapply Forall_impl; [exact Hold|]. intros t (Hle & i & Hi & ->).
    split; [done|]. exists i. rewrite length_app. split; [lia|done].
  - intros p text' Hp. apply lookup_app_Some in Hp as [Hp|[Hge Hp]].
    + rewrite take_app_le by (apply lookup_lt_Some in Hp; lia). by eapply Hgate.
    + apply list_lookup_singleton_Some in Hp as [Hp _].
      assert (p = length tr) as -> by lia.
      rewrite take_app_length, <- Hlast. done.
Qed.

Lemma paced_posted (last_post : Z) (tr : list event) :
  let now := time_time w (length tr) in
  min_post_interval config ≤ now - last_post →
  paced last_post tr → paced now (tr ++ [Posted now]).
Proof.
  intros now Hopen (Hlast & Hold & Hsorted & Hgate).
  assert (Hbefore : Forall (λ t, t ≤ now ∧ min_post_interval config ≤ now - t) (posted tr)).
  { eapply Forall_impl; [exact Hold|]. intros t (Hle & i & Hi & ->).
    split; [apply clock_monotone; lia|lia]. }
  unfold Bot.paced. rewrite posted_app. change (posted [Posted now]) with [now].
  split_and!.
  - by rewrite last_snoc.
  - apply Forall_app. split.
    + eapply Forall_impl; [exact Hold|]. intros t (Hle & i & Hi & ->).
      split; [apply clock_monotone; lia|]. exists i. rewrite length_app. split; [lia|done].
    + apply Forall_singleton. split; [lia|]. exists (length tr).
      rewrite length_app. cbn. split; [lia|done].
  - apply StronglySorted_app. split_and!; [|done|repeat constructor].
    intros t1 t2 Ht1 Ht2. apply list_elem_of_singleton in Ht2 as ->.
    rewrite Forall_forall in Hbefore. by apply Hbefore.
  - intros p text Hp. apply lookup_app_Some in Hp as [Hp|[_ Hp]].
    + rewrite take_app_le by (apply lookup_lt_Some in Hp; lia). by eapply Hgate.
    + by apply list_lookup_singleton_Some in Hp as [_ ?].
Qed.

Lemma paced_publish_flow (t : tweet) (j : journalist) (self self' : bot) :
  publish_flow t j self self' → paced_bot self → paced_bot self'.
Proof.
  unfold Bot.paced_bot. intros Hflow Hpaced.
  destruct Hflow as [Hgate|Hi Hc Hrw|r Hi Hc Hrw Hr Hinit|r Hi Hc Hrw Hr Hinit Hpost
                    |r Hi Hc Hrw Hr Hinit Hpost]; cbn [trace log set_trace
    last_post_time set_post_count_today set_last_post_time].
  1-3: by apply paced_silent.
  - set (g := Gate _). set (p := Publish _). set (e := Notify _).
    change [g; Rewrite t; p; e] with ([g; Rewrite t] ++ [p] ++ [e]).
    rewrite !app_assoc. apply paced_silent; [done..|].
    apply paced_publish; [|by apply paced_silent].
    rewrite length_app. cbn [length].
    pose proof (clock_monotone (length (trace self)) (length (trace self) + 2) ltac:(lia)).
    lia.
  - set (g := Gate _). set (p := Publish _). set (c := Count _).
    change [g; Rewrite t; p; Posted (time_time w (length (trace self) + 3)); c]
      with ([g; Rewrite t] ++ [p] ++ [Posted (time_time w (length (trace self) + 3))] ++ [c]).
    rewrite !app_assoc. apply paced_silent; [done..|].
    pose proof (clock_monotone (length (trace self)) (length (trace self) + 2) ltac:(lia)).
    pose proof (clock_monotone (length (trace self)) (length (trace self) + 3) ltac:(lia)).
    assert (Hthree : (length (trace self) + 3)%nat
                     = length ((trace self ++ [g; Rewrite t]) ++ [p])).
    { rewrite !length_app. cbn [length]. lia. }
    rewrite Hthree. apply (paced_posted (last_post_time self)).
    + rewrite <- Hthree. lia.
    + apply paced_publish; [|by apply paced_silent].
      rewrite length_app. cbn [length]. lia.
Qed.

Lemma paced_tweet (j : journalist) (t : tweet) (self : bot) :
  paced_bot self → paced_bot (exec (monitor_tweet w config j t) self).
Proof.
  intros Hpaced. destruct (decide (tweet_id t ∈ processed_tweets self)) as [Hseen|Hnew].
  { by rewrite exec_monitor_tweet_seen. }
  rewrite exec_monitor_tweet_unseen by done. cbv zeta.
  set (s1 := log [Classify t] self).
  assert (H1 : paced_bot s1) by by apply paced_silent.
  set (s2 := if Ai.is_football_related _ _ then _ else _).
  assert (H2 : paced_bot s2).
  { subst s2. case_match; [|done].
    eapply paced_publish_flow; [apply exec_process_football_tweet|done]. }
  set (s3 := set_processed_tweets _ s2).
  assert (H3 : paced_bot s3) by done.
  destruct (exec_limit_processed_tweets s3) as [[-> _]|(_ & kept & -> & _)]; [done|].
  by apply paced_silent.
Qed.

Lemma paced_run_cycles (n : nat) (self : bot) :
  paced_bot self → paced_bot (exec (run_cycles w config n) self).
Proof.
  apply run_cycles_invariant.
  - intros s e Hq Hpaced. apply paced_silent; [..|done]; by destruct e.
  - intros s today Hpaced. by apply paced_silent.
  - apply paced_tweet.
Qed.

End Paced.

(** *** At most one classification *)

Lemma classifications_app (tr1 tr2 : list event) (id : Z) :
  classifications (tr1 ++ tr2) id
  = (classifications tr1 id + classifications tr2 id)%nat.
Proof. unfold classifications. by rewrite classified_app, filter_app, length_app. Qed.

Lemma classifications_none (tr : list event) (id : Z) :
  id ∉ classified tr → classifications tr id = 0%nat.
Proof.
  unfold classifications. intros Hid.
  induction (classified tr) as [|x l IH]; [done|].
  apply not_elem_of_cons in Hid as [Hne Hid].
  rewrite filter_cons_False by done. by apply IH.
Qed.

Lemma flow_events_classified (evs : list event) :
  Forall flow_event evs → classified evs = [] ∧ evicted evs = ∅ ∧ fetched evs = [].
Proof.
  induction 1 as [|e evs He _ (IH1 & IH2 & IH3)]; [done|].
  change (e :: evs) with ([e] ++ evs).
  rewrite classified_app, evicted_app, fetched_app, IH1, IH2, IH3.
  destruct e; try done; cbn; split_and!; try done; set_solver.
Qed.

Lemma publish_flow_frame (t : tweet) (j : journalist) (self self' : bot) :
  publish_flow t j self self' →
  processed_tweets self' = processed_tweets self
  ∧ initialized self' = initialized self
  ∧ daily_reset_time self' = daily_reset_time self
  ∧ ∃ evs, trace self' = trace self ++ evs ∧ Forall flow_event evs.
Proof.
  intros Hflow. destruct Hflow; (split_and!; [done..|]);
    (eexists; split; [reflexivity|]); repeat constructor.
Qed.

(** What a tweet that was not seen before does to the bot: one
    classification, the events of the publish flow when it is relevant, the
    mark, and the cap. *)
Lemma monitor_tweet_unseen_effect (j : journalist) (t : tweet) (self : bot) :
  tweet_id t ∉ processed_tweets self →
  let self' := exec (monitor_tweet w config j t) self in
  let marked := {[tweet_id t]} ∪ processed_tweets self in
  initialized self' = initialized self
  ∧ ∃ evs cap,
      trace self' = trace self ++ [Classify t] ++ evs ++ cap
      ∧ Forall flow_event evs
      ∧ (Ai.is_football_related (groq w (length (trace self))) (tweet_text t) = false →
         evs = [] ∧ last_post_time self' = last_post_time self
         ∧ post_count_today self' = post_count_today self)
      ∧ ((cap = [] ∧ processed_tweets self' = marked
          ∧ Z.of_nat (size marked) ≤ 10000)
         ∨ (∃ kept, cap = [Evict (marked ∖ kept)] ∧ processed_tweets self' = kept
                    ∧ 10000 < Z.of_nat (size marked)
                    ∧ kept = list_to_set (slice_last 5000
                               (set_order w (length (trace self ++ [Classify t] ++ evs))
                                  marked)))).
Proof.
  intros Hnew. cbv zeta. rewrite exec_monitor_tweet_unseen by done. cbv zeta.
  set (s1 := log [Classify t] self).
  set (relevant := Ai.is_football_related _ _).
  set (s2 := if relevant then _ else _).
  assert (H2 : processed_tweets s2 = processed_tweets self
               ∧ initialized s2 = initialized self
               ∧ ∃ evs, trace s2 = trace self ++ [Classify t] ++ evs
                        ∧ Forall flow_event evs
                        ∧ (relevant = false →
                           evs = [] ∧ last_post_time s2 = last_post_time self
                           ∧ post_count_today s2 = post_count_today self)).
  { subst s2. destruct relevant.
    - destruct (publish_flow_frame t j s1 _ (exec_process_football_tweet t j s1))
        as (Hp & Hi & _ & evs & Htr & Hevs).
      split_and!; [done..|]. exists evs. rewrite Htr. cbn. rewrite <- app_assoc.
      by split_and!.
    - split_and!; [done..|]. exists []. by split_and!. }
  destruct H2 as (Hp2 & Hi2 & evs & Htr2 & Hevs & Hquiet).
  set (s3 := set_processed_tweets _ s2).
  destruct (exec_limit_processed_tweets s3) as [[Heq Hunder]|(Hover & kept & Heq & Hkept)];
    rewrite Heq; subst s3; cbn [initialized set_processed_tweets log set_trace
      processed_tweets trace last_post_time post_count_today] in *;
    rewrite ?Hp2, ?Htr2 in *; (split; [done|]); exists evs.
  - exists []. rewrite !app_nil_r. split_and!; [done|done|exact Hquiet|].
    left. by split_and!.
  - exists [Evict (({[tweet_id t]} ∪ processed_tweets self) ∖ kept)].
    rewrite <- !app_assoc. split_and!; [done|done|exact Hquiet|].
    right. exists kept. by split_and!.
Qed.

Lemma deduped_frame (self self' : bot) (evs : list event) :
  processed_tweets self' = processed_tweets self →
  trace self' = trace self ++ evs →
  classified evs = [] → evicted evs = ∅ →
  deduped self → deduped self'.
Proof.
  intros Hseen Htr Hcl Hev [Hin Honce]. unfold deduped.
  rewrite Hseen, Htr, classified_app, evicted_app, Hcl, Hev, app_nil_r, (right_id_L ∅ (∪)).
  split; [done|]. intros id Hid.
  rewrite classifications_app. unfold classifications at 2. rewrite Hcl. cbn.
  specialize (Honce id Hid). lia.
Qed.

Lemma evicted_classify (t : tweet) : evicted [Classify t] = ∅.
Proof. reflexivity. Qed.

Lemma evicted_evict (ids : gset Z) : evicted [Evict ids] = ids.
Proof. unfold evicted. cbn. apply (right_id_L ∅ (∪)). Qed.

Lemma classifications_snoc (tr : list event) (t : tweet) (id : Z) :
  classifications (tr ++ [Classify t]) id
  = (classifications tr id + if decide (tweet_id t = id) then 1 else 0)%nat.
Proof.
  rewrite classifications_app. f_equal. unfold classifications.
  change (classified [Classify t]) with [tweet_id t].
  rewrite filter_cons, filter_nil. by destruct (decide (tweet_id t = id)).
Qed.

(** The trace of one tweet, read. *)
Lemma classified_tweet_trace (tr evs cap : list event) (t : tweet) :
  classified evs = [] → classified cap = [] →
  classified (tr ++ [Classify t] ++ evs ++ cap) = classified tr ++ [tweet_id t].
Proof. intros Hevs Hcap. by rewrite !classified_app, Hevs, Hcap, !app_nil_r. Qed.

Lemma classifications_tweet_trace (tr evs cap : list event) (t : tweet) (id : Z) :
  classified evs = [] → classified cap = [] →
  classifications (tr ++ [Classify t] ++ evs ++ cap) id
  = (classifications tr id + if decide (tweet_id t = id) then 1 else 0)%nat.
Proof.
  intros Hevs Hcap. unfold classifications at 1.
  rewrite (classified_tweet_trace _ _ _ _ Hevs Hcap).
  rewrite <- classifications_snoc. unfold classifications.
  by rewrite classified_app.
Qed.

Lemma evicted_tweet_trace (tr evs cap : list event) (t : tweet) :
  evicted evs = ∅ →
  evicted (tr ++ [Classify t] ++ evs ++ cap) = evicted tr ∪ evicted cap.
Proof.
  intros Hevs. rewrite !evicted_app, Hevs, evicted_classify.
  by rewrite !(left_id_L ∅ (∪)).
Qed.

Lemma deduped_tweet (j : journalist) (t : tweet) (self : bot) :
  deduped self → deduped (exec (monitor_tweet w config j t) self).
Proof.
  intros [Hin Honce]. destruct (decide (tweet_id t ∈ processed_tweets self)) as [Hseen|Hnew].
  { by rewrite exec_monitor_tweet_seen. }
  destruct (monitor_tweet_unseen_effect j t self Hnew)
    as (_ & evs & cap & Htr & Hevs & _ & Hcap).
  apply flow_events_classified in Hevs as (Hcl & Hev & _).
  revert Htr Hcap. generalize (exec (monitor_tweet w config j t) self). intros self' Htr Hcap.
  assert (Htid : classifications (trace self) (tweet_id t) = 0%nat
                 ∨ tweet_id t ∈ evicted (trace self)).
  { destruct (decide (tweet_id t ∈ classified (trace self))) as [Hc|Hc].
    - right. by destruct (Hin _ Hc).
    - left. by apply classifications_none. }
  assert (Hcap' : classified cap = []
                  ∧ ∀ id, id ∈ {[tweet_id t]} ∪ processed_tweets self →
                          id ∈ processed_tweets self' ∨ id ∈ evicted cap).
  { destruct Hcap as [(-> & -> & _)|(kept & -> & -> & _)]; (split; [done|]).
    - intros id Hid. by left.
    - intros id Hid. rewrite evicted_evict.
      destruct (decide (id ∈ kept)); [by left|right]. by apply elem_of_difference. }
  destruct Hcap' as [Hcapcl Hmarked]. clear Hcap.
  unfold deduped. rewrite Htr. split.
  - intros id. rewrite classified_tweet_trace, evicted_tweet_trace by done.
    intros [Hid|Hid%list_elem_of_singleton]%elem_of_app.
    + destruct (Hin id Hid) as [Hs|He].
      * destruct (Hmarked id) as [?|?]; [by apply elem_of_union; right|by left|].
        right. apply elem_of_union. by right.
      * right. apply elem_of_union. by left.
    + destruct (Hmarked id) as [?|?].
      * apply elem_of_union. left. by apply elem_of_singleton.
      * by left.
      * right. apply elem_of_union. by right.
  - intros id. rewrite classifications_tweet_trace, evicted_tweet_trace by done.
    intros [Hid _]%not_elem_of_union. specialize (Honce id Hid).
    destruct (decide (tweet_id t = id)) as [<-|]; [|lia].
    destruct Htid as [->|]; [lia|done].
Qed.

Lemma deduped_run_cycles (n : nat) (self : bot) :
  deduped self → deduped (exec (run_cycles w config n) self).
Proof.
  apply run_cycles_invariant.
  - intros s e Hq. apply (deduped_frame _ _ [e]); try done; by destruct e.
  - intros s today. by apply (deduped_frame _ _ [Count 0]).
  - apply deduped_tweet.
Qed.

(** *** The sources a cycle visits *)

Lemma for_each_tweets_done (j : journalist) (tweets : list tweet) (self : bot) :
  for_each tweets (monitor_tweet w config j) self
  = (Done tt, exec (for_each tweets (monitor_tweet w config j)) self).
Proof.
  destruct (for_each_tweets_lift (λ _, True) (λ _ _ _ _, I) j tweets self I)
    as (self' & Hrun & _).
  unfold exec. by rewrite Hrun.
Qed.

Lemma visit_run (j : journalist) (self : bot) :
  initialized self = true →
  let tweets := default [] (api_search w (length (trace self))) in
  visit j self
  = (Done tt,
     log [Sleep 2]
       (exec (for_each tweets (monitor_tweet w config j))
          (log [Fetch (username j)] self))).
Proof.
  intros Hinit tweets.
  unfold Bot.visit, try_except at 1, bind at 1, _monitor_journalist, try_except, bind at 1.
  unfold get_user_tweets, bind at 1, get. rewrite Hinit. cbn [negb].
  unfold bind at 1. rewrite consult_run. unfold ret at 1. fold tweets.
  destruct tweets as [|t tweets]; [done|].
  by rewrite for_each_tweets_done.
Qed.

Lemma run_cycle_exec (self : bot) :
  let s1 := exec (_check_daily_reset w) self in
  exec (run_cycle w config) self
  = if max_posts_per_day config <=? post_count_today s1 then s1
    else exec (for_each (journalists config) visit) s1.
Proof.
  cbv zeta. unfold exec, run_cycle, try_except at 1, bind at 1.
  destruct (check_daily_reset_lift (λ _, True) (λ _ _ _ _, I) (λ _ _ _, I) self I)
    as (s1 & Hs1 & _).
  rewrite !Hs1. cbn [snd]. unfold bind at 1, get.
  destruct (max_posts_per_day config <=? post_count_today s1); [done|].
  destruct (for_each_journalists_lift (λ _, True) (λ _ _ _ _, I) (λ _ _ _ _, I)
              (journalists config) s1 I) as (s2 & Hs2 & _).
  by rewrite Hs2.
Qed.

Lemma check_daily_reset_exec (self : bot) :
  let now := datetime_now w (length (trace self)) in
  exec (_check_daily_reset w) self
  = if daily_reset_time self <? midnight now
    then set_daily_reset_time (midnight now)
           (set_post_count_today 0 (log [Today now; Count 0] self))
    else log [Today now] self.
Proof.
  cbv zeta. unfold exec, _check_daily_reset, bind at 1. rewrite consult_run.
  unfold bind at 1, get. cbn [daily_reset_time log set_trace].
  destruct (daily_reset_time self <? midnight _); [|done].
  unfold assign_post_count_today, emit, bind, modify. cbn [snd].
  unfold log, set_trace, set_post_count_today, set_daily_reset_time. cbn.
  by rewrite <- app_assoc.
Qed.

(** A tweet neither calls the search nor touches the [initialized] flag. *)
Lemma monitor_tweet_fetched (j : journalist) (t : tweet) (self : bot) :
  let self' := exec (monitor_tweet w config j t) self in
  fetched (trace self') = fetched (trace self) ∧ initialized self' = initialized self.
Proof.
  cbv zeta. destruct (decide (tweet_id t ∈ processed_tweets self)) as [Hseen|Hnew].
  { by rewrite exec_monitor_tweet_seen. }
  destruct (monitor_tweet_unseen_effect j t self Hnew)
    as (Hinit & evs & cap & -> & Hevs & _ & Hcap).
  split; [|done]. apply flow_events_classified in Hevs as (_ & _ & Hf).
  rewrite !fetched_app, Hf.
  destruct Hcap as [(-> & _)|(kept & -> & _)]; cbn; by rewrite app_nil_r.
Qed.

Lemma for_each_tweets_fetched (j : journalist) (tweets : list tweet) (self : bot) :
  let self' := exec (for_each tweets (monitor_tweet w config j)) self in
  fetched (trace self') = fetched (trace self) ∧ initialized self' = initialized self.
Proof.
  cbv zeta.
  destruct (for_each_tweets_lift
    (λ s, fetched (trace s) = fetched (trace self) ∧ initialized s = initialized self))
    with (j := j) (tweets := tweets) (self := self) as (self' & Hrun & Hinv); [|done|].
  - intros j' t s [Hf Hi]. destruct (monitor_tweet_fetched j' t s) as [Hf' Hi'].
    split; congruence.
  - unfold exec. by rewrite Hrun.
Qed.

(** The loop visits every journalist of the list, in order. *)
Lemma for_each_journalists_fetched (js : list journalist) (self : bot) :
  initialized self = true →
  let self' := exec (for_each js visit) self in
  fetched (trace self') = fetched (trace self) ++ (username <$> js)
  ∧ initialized self' = true.
Proof.
  cbv zeta. revert self. induction js as [|j js IH]; intros self Hinit.
  - cbn. by rewrite app_nil_r.
  - unfold exec. cbn [for_each]. unfold bind. rewrite visit_run by done.
    set (s1 := log [Sleep 2] _).
    destruct (for_each_tweets_fetched j (default [] (api_search w (length (trace self))))
                (log [Fetch (username j)] self)) as [Hf Hi].
    destruct (IH s1) as [Hf' Hi'].
    { subst s1. cbn [initialized log set_trace]. by rewrite Hi. }
    unfold exec in Hf', Hi'. split; [|done]. rewrite Hf'. subst s1.
    cbn [trace log set_trace]. rewrite fetched_app, Hf.
    cbn [trace log set_trace]. rewrite fetched_app. cbn.
    by rewrite app_nil_r, <- app_assoc.
Qed.

(** Unless the daily cap is already reached, a cycle fetches from every
    configured journalist, whatever the [enabled] flag says. *)
Lemma run_cycle_fetched (self : bot) :
  initialized self = true →
  post_count_today (exec (_check_daily_reset w) self) < max_posts_per_day config →
  fetched (trace (exec (run_cycle w config) self))
  = fetched (trace self) ++ (username <$> journalists config).
Proof.
  intros Hinit Hcount. rewrite run_cycle_exec. cbv zeta.
  rewrite (proj2 (Z.leb_gt _ _) Hcount).
  destruct (for_each_journalists_fetched (journalists config)
              (exec (_check_daily_reset w) self)) as [Hf _].
  { rewrite check_daily_reset_exec. cbv zeta. by case_match. }
  rewrite Hf. f_equal. rewrite check_daily_reset_exec. cbv zeta.
  case_match; cbn [trace log set_trace set_daily_reset_time set_post_count_today];
    rewrite fetched_app; cbn; by rewrite app_nil_r.
Qed.

(** *** A feed of fresh tweets that are not about football *)

Lemma for_each_tweets_app (j : journalist) (l1 l2 : list tweet) (self : bot) :
  exec (for_each (l1 ++ l2) (monitor_tweet w config j)) self
  = exec (for_each l2 (monitor_tweet w config j))
      (exec (for_each l1 (monitor_tweet w config j)) self).
Proof.
  revert self. induction l1 as [|t l1 IH]; intros self; [done|].
  unfold exec in *. cbn [for_each app]. unfold bind.
  rewrite !monitor_tweet_done. apply IH.
Qed.

Lemma for_each_tweets_singleton (j : journalist) (t : tweet) (self : bot) :
  exec (for_each [t] (monitor_tweet w config j)) self
  = exec (monitor_tweet w config j t) self.
Proof. unfold exec. cbn [for_each]. unfold bind. by rewrite monitor_tweet_done. Qed.

Lemma for_each_fresh_tweets (j : journalist) (tweets : list tweet) (self : bot) :
  (∀ k text, Ai.is_football_related (groq w k) text = false) →
  NoDup (tweet_id <$> tweets) →
  (∀ id, id ∈ tweet_id <$> tweets → id ∉ processed_tweets self) →
  Z.of_nat (size (processed_tweets self)) + len tweets ≤ 10000 →
  let self' := exec (for_each tweets (monitor_tweet w config j)) self in
  processed_tweets self' = list_to_set (tweet_id <$> tweets) ∪ processed_tweets self
  ∧ classified (trace self') = classified (trace self) ++ (tweet_id <$> tweets).
Proof.
  intros Hno. cbv zeta. revert self.
  induction tweets as [|t tweets IH]; intros self Hdup Hfresh Hsize.
  { cbn. split; [by rewrite (left_id_L ∅ (∪))|by rewrite app_nil_r]. }
  rewrite fmap_cons in Hdup, Hfresh. apply NoDup_cons in Hdup as [Hhead Hdup].
  assert (Hnew : tweet_id t ∉ processed_tweets self) by (apply Hfresh; left).
  change (t :: tweets) with ([t] ++ tweets). rewrite for_each_tweets_app.
  change (exec (for_each [t] (monitor_tweet w config j)) self)
    with (exec (monitor_tweet w config j t >> ret tt) self).
  assert (Hstep : exec (monitor_tweet w config j t >> ret tt) self
                  = exec (monitor_tweet w config j t) self).
  { unfold exec, bind. by rewrite monitor_tweet_done. }
  rewrite Hstep. clear Hstep.
  destruct (monitor_tweet_unseen_effect j t self Hnew)
    as (_ & evs & cap & Htr & _ & Hquiet & Hcap).
  destruct (Hquiet (Hno _ _)) as (-> & _ & _).
  assert (Hone : size ({[tweet_id t]} ∪ processed_tweets self)
                 = S (size (processed_tweets self))).
  { rewrite size_union by (apply disjoint_singleton_l; exact Hnew).
    by rewrite size_singleton. }
  unfold len in Hsize. cbn [length app] in Hsize.
  destruct Hcap as [(-> & Hseen & _)|(kept & _ & _ & Hover & _)]; [|lia].
  revert Htr Hseen. generalize (exec (monitor_tweet w config j t) self).
  intros s1 Htr Hseen.
  destruct (IH s1) as [Hseen' Hcls'].
  - done.
  - intros id Hid. rewrite Hseen. apply not_elem_of_union. split.
    + apply not_elem_of_singleton. intros ->. done.
    + apply Hfresh. by right.
  - rewrite Hseen, Hone. unfold len. lia.
  - split.
    + rewrite Hseen', Hseen. cbn [fmap list_fmap app]. rewrite list_to_set_cons.
      apply set_eq. intros x. rewrite !elem_of_union. tauto.
    + rewrite Hcls', Htr, !classified_app. cbn [app fmap list_fmap].
      change (classified [Classify t]) with [tweet_id t].
      change (classified []) with (@nil Z). by rewrite app_nil_r, <- app_assoc.
Qed.

(** The cache after 10001 fresh tweets that are not about football: the last
    5000 entries of the enumeration of all 10001 identifiers. *)
Lemma cap_after_fresh_feed (j : journalist) (older : list tweet) (newest : tweet)
    (self : bot) :
  (∀ k text, Ai.is_football_related (groq w k) text = false) →
  NoDup (tweet_id <$> older ++ [newest]) →
  processed_tweets self = ∅ →
  length older = Z.to_nat 10000 →
  let self' := exec (for_each (older ++ [newest]) (monitor_tweet w config j)) self in
  classified (trace self')
  = classified (trace self) ++ (tweet_id <$> older ++ [newest])
  ∧ ∃ k, processed_tweets self'
         = list_to_set (slice_last 5000
             (set_order w k (list_to_set (tweet_id <$> older ++ [newest])))).
Proof.
  intros Hno Hdup Hempty Hlen. cbv zeta.
  rewrite fmap_app in *. apply NoDup_app in Hdup as (Hdup & Hfresh & _).
  rewrite for_each_tweets_app, for_each_tweets_singleton.
  destruct (for_each_fresh_tweets j older self Hno Hdup) as [Hseen Hcls].
  { intros id _. rewrite Hempty. apply not_elem_of_empty. }
  { rewrite Hempty, size_empty. unfold len. lia. }
  revert Hseen Hcls. generalize (exec (for_each older (monitor_tweet w config j)) self).
  intros s2 Hseen Hcls. rewrite Hempty, (right_id_L ∅ (∪)) in Hseen.
  assert (Hnew : tweet_id newest ∉ processed_tweets s2).
  { rewrite Hseen, elem_of_list_to_set. intros Hin. apply (Hfresh _ Hin). by left. }
  destruct (monitor_tweet_unseen_effect j newest s2 Hnew)
    as (_ & evs & cap & Htr & _ & Hquiet & Hcap).
  destruct (Hquiet (Hno _ _)) as (-> & _ & _).
  assert (Hmarked : {[tweet_id newest]} ∪ processed_tweets s2
                    = list_to_set ((tweet_id <$> older) ++ [tweet_id newest])).
  { rewrite Hseen, list_to_set_app_L. apply set_eq. intros x.
    rewrite !elem_of_union, elem_of_singleton, !elem_of_list_to_set,
      list_elem_of_singleton. tauto. }
  assert (Hsize : size ({[tweet_id newest]} ∪ processed_tweets s2) = Z.to_nat 10001).
  { rewrite size_union by (apply disjoint_singleton_l; exact Hnew).
    rewrite size_singleton, Hseen, size_list_to_set, length_fmap, Hlen by done. lia. }
  rewrite Hsize, Hmarked in Hcap.
  destruct Hcap as [(_ & _ & Hunder)|(kept & -> & Hkept & _ & ->)]; [lia|].
  split.
  - rewrite Htr, !classified_app, Hcls.
    change (classified [Classify newest]) with [tweet_id newest].
    change (classified []) with (@nil Z).
    change (classified [Evict _]) with (@nil Z).
    by rewrite !app_nil_r, <- app_assoc.
  - rewrite Hkept. eauto.
Qed.

(** A cycle over a single journalist. *)
Lemma run_cycle_single (j : journalist) (self : bot) :
  journalists config = [j] →
  initialized self = true →
  let s1 := exec (_check_daily_reset w) self in
  post_count_today s1 < max_posts_per_day config →
  exec (run_cycle w config) self
  = log [Sleep 2]
      (exec (for_each (default [] (api_search w (length (trace s1))))
               (monitor_tweet w config j))
         (log [Fetch (username j)] s1)).
Proof.
  intros Hjs Hinit s1 Hcount. rewrite run_cycle_exec. cbv zeta. fold s1.
  rewrite (proj2 (Z.leb_gt _ _) Hcount), Hjs.
  unfold exec at 1. cbn [for_each]. unfold bind. rewrite visit_run; [done|].
  subst s1. rewrite check_daily_reset_exec. cbv zeta. by case_match.
Qed.

End BotFacts.

(** ** The scenarios *)

Section ScenarioFacts.
Import Scenario.

Lemma elem_of_ids_from (x m : Z) (n : nat) :
  x ∈ ids_from m n ↔ m ≤ x < m + Z.of_nat n.
Proof.
  revert m. induction n as [|n IH]; intros m; cbn [ids_from].
  - rewrite elem_of_nil. lia.
  - rewrite elem_of_cons, IH. lia.
Qed.

Lemma NoDup_ids_from (m : Z) (n : nat) : NoDup (ids_from m n).
Proof.
  revert m. induction n as [|n IH]; intros m; cbn [ids_from]; constructor; [|done].
  rewrite elem_of_ids_from. lia.
Qed.

Lemma ids_from_S (m : Z) (n : nat) : ids_from m (S n) = m :: ids_from (m + 1) n.
Proof. reflexivity. Qed.

Lemma length_ids_from (m : Z) (n : nat) : length (ids_from m n) = n.
Proof. revert m. induction n as [|n IH]; intros m; cbn; by rewrite ?IH. Qed.

Lemma sorted_ids_from (m : Z) (n : nat) : StronglySorted Z.le (ids_from m n).
Proof.
  revert m. induction n as [|n IH]; intros m; cbn [ids_from]; constructor; [done|].
  apply Forall_forall. intros x Hx%elem_of_ids_from. lia.
Qed.

(** The enumeration of a set of consecutive integers. *)
Lemma ascending_ids_from (k : nat) (m : Z) (n : nat) :
  ascending k (list_to_set (ids_from m n)) = ids_from m n.
Proof.
  unfold ascending. apply (StronglySorted_unique Z.le).
  - apply StronglySorted_merge_sort; apply _.
  - apply sorted_ids_from.
  - rewrite merge_sort_Permutation. apply elements_list_to_set, NoDup_ids_from.
Qed.



Lemma slice_last_ids :
  slice_last 5000 (ids_from 0 (Z.to_nat 10001)) = ids_from 5001 5000.
Proof. vm_compute. reflexivity. Qed.

Lemma signing_ids (ids : list Z) : tweet_id <$> (signing <$> ids) = ids.
Proof. induction ids as [|id ids IH]; [done|]. cbn. by rewrite IH. Qed.

(** The single source of [descending] is read from the state after the
    daily reset and the fetch. *)
Lemma descending_feed :
  let w := descending in
  let config := settings [journo] 50 300 in
  let s1 := exec (_check_daily_reset w) (init 1700000000) in
  let s3 := exec (for_each (default [] (api_search w (length (trace s1))))
                    (monitor_tweet w config journo))
              (log [Fetch (username journo)] s1) in
  classified (trace s3) = reverse (ids_from 0 (Z.to_nat 10001))
  ∧ processed_tweets s3 = list_to_set (ids_from 5001 5000).
Proof.
  intros w config s1.
  change (default [] (api_search w (length (trace s1))))
    with (signing <$> reverse (ids_from 0 (Z.to_nat 10001))).
  assert (Hclean : classified (trace (log [Fetch (username journo)] s1)) = []
                   ∧ processed_tweets (log [Fetch (username journo)] s1) = ∅).
  { subst s1. rewrite check_daily_reset_exec. by vm_compute. }
  destruct Hclean as [Hcls0 Hseen0].
  revert Hcls0 Hseen0. generalize (log [Fetch (username journo)] s1). clear s1.
  intros s1 Hcls0 Hseen0.
  assert (Hsplit : reverse (ids_from 0 (Z.to_nat 10001))
                   = reverse (ids_from 1 (Z.to_nat 10000)) ++ [0]).
  { replace (Z.to_nat 10001) with (S (Z.to_nat 10000)) by lia.
    by rewrite ids_from_S, reverse_cons. }
  assert (Hset : (list_to_set (reverse (ids_from 1 (Z.to_nat 10000)) ++ [0]) : gset Z)
                 = list_to_set (ids_from 0 (Z.to_nat 10001))).
  { rewrite <- Hsplit. apply set_eq. intros x.
    by rewrite !elem_of_list_to_set, elem_of_reverse. }
  assert (Hno : ∀ k text, Ai.is_football_related (groq w k) text = false)
    by (intros k text; reflexivity).
  assert (Horder : ∀ k s, set_order w k s = ascending k s) by (intros k s; reflexivity).
  assert (Hdup : NoDup (reverse (ids_from 1 (Z.to_nat 10000)) ++ [0])).
  { rewrite <- Hsplit, reverse_Permutation. apply NoDup_ids_from. }
  clearbody w config. intros s3. subst s3. rewrite Hsplit, fmap_app.
  change (signing <$> [0]) with [signing 0].
  destruct (cap_after_fresh_feed w config journo
              (signing <$> reverse (ids_from 1 (Z.to_nat 10000))) (signing 0) s1)
    as [Hcls [k Hseen]].
  - exact Hno.
  - rewrite fmap_app, signing_ids. exact Hdup.
  - exact Hseen0.
  - by rewrite length_fmap, length_reverse, length_ids_from.
  - rewrite fmap_app, signing_ids in Hcls, Hseen.
    change (tweet_id <$> [signing 0]) with [0] in Hcls, Hseen. split.
    + rewrite Hcls, Hcls0. apply app_nil_l.
    + rewrite Hseen, Hset, Horder, ascending_ids_from, slice_last_ids. reflexivity.
Qed.

End ScenarioFacts.

(** The scenario of the specification: a cap of one post a day and no
    minimum interval; two relevant tweets in one cycle. One is posted, the
    other deferred at the gate, and both are marked. *)
Example one_post_a_day :
  let final := exec (run_cycle Scenario.eager
                       (Scenario.settings [Scenario.journo; Scenario.benched] 1 0))
                 (init 1700000000) in
  posted (trace final) = [1700000060]
  ∧ classified (trace final) = [101; 102]
  ∧ elements (processed_tweets final) = [101; 102]
  ∧ post_count_today final = 1.
Proof. by vm_compute. Qed.

(** * The claims *)

(** C1. At-most-once processing: over any number of cycles from the start
    of the process, a tweet whose identifier was never dropped by the cap of
    the cache is classified at most once. The loop body leaves the bot as it
    is for an identifier already in the cache, and after a new tweet (relevant
    or not, published, failed or deferred) the identifier is in the cache, or
    was dropped by the cap that followed at once. *)
Theorem at_most_once_processing (w : world) (config : Config) :
  (∀ (now : Z) (n : nat) (id : Z),
     let tr := trace (exec (run_cycles w config n) (init now)) in
     id ∉ evicted tr → (classifications tr id ≤ 1)%nat)
  ∧ (∀ (j : journalist) (t : tweet) (self : bot),
       tweet_id t ∈ processed_tweets self →
       exec (monitor_tweet w config j t) self = self)
  ∧ (∀ (j : journalist) (t : tweet) (self : bot),
       tweet_id t ∉ processed_tweets self →
       let self' := exec (monitor_tweet w config j t) self in
       classified (trace self') = classified (trace self) ++ [tweet_id t]
       ∧ (tweet_id t ∈ processed_tweets self' ∨ tweet_id t ∈ evicted (trace self'))).
Proof.
  split_and!.
  - intros now n id tr.
    assert (Hd : deduped (exec (run_cycles w config n) (init now))).
    { apply deduped_run_cycles. split; cbn; [by intros id' ?%elem_of_nil|].
      intros id' _. unfold classifications. cbn. lia. }
    apply Hd.
  - intros j t self. apply exec_monitor_tweet_seen.
  - intros j t self Hnew self'.
    destruct (monitor_tweet_unseen_effect w config j t self Hnew)
      as (_ & evs & cap & Htr & Hevs & _ & Hcap).
    fold self' in Htr, Hcap. rewrite Htr, !classified_app, !evicted_app.
    apply flow_events_classified in Hevs as (-> & -> & _).
    destruct Hcap as [(-> & -> & _)|(kept & -> & -> & _)].
    + split; [by rewrite !app_nil_r|]. left. set_solver.
    + split; [by rewrite !app_nil_r|].
      destruct (decide (tweet_id t ∈ kept)); [by left|right].
      change (evicted [Evict (({[tweet_id t]} ∪ processed_tweets self) ∖ kept)])
        with (⋃ [({[tweet_id t]} ∪ processed_tweets self) ∖ kept]).
      cbn [union_list foldr]. set_solver.
Qed.

Lemma at_most_once_processing_witness :
  let tr := trace (exec (run_cycles Scenario.eager
                           (Scenario.settings [Scenario.journo; Scenario.benched] 5 25) 2)
                     (init 1700000000)) in
  (101 ∉ evicted tr) ∧ (classifications tr 101 ≤ 1)%nat.
Proof.
  intros tr.
  assert (Hkept : 101 ∉ evicted tr) by (vm_compute; intros H; discriminate H).
  split; [assumption|].
  exact (proj1 (at_most_once_processing Scenario.eager
                  (Scenario.settings [Scenario.journo; Scenario.benched] 5 25))
           1700000000 2%nat 101 Hkept).
Defined.





(** C4. The cap of the cache on 10001 identifiers inserted in the order
    10000, 9999, ..., 0, with the enumeration CPython gives for these
    integers: the cache keeps 5001 to 10000, the 5000 inserted first, and
    drops the 5001 most recent ones, the tweet just processed among them. *)
Theorem cap_drops_most_recent :
  let final := exec (run_cycle Scenario.descending
                       (Scenario.settings [Scenario.journo] 50 300))
                 (init 1700000000) in
  classified (trace final) = reverse (Scenario.ids_from 0 (Z.to_nat 10001))
  ∧ processed_tweets final = list_to_set (Scenario.ids_from 5001 5000)
  ∧ (∀ id, id ∈ processed_tweets final ↔ 5001 ≤ id ≤ 10000).
Proof.
  intros final.
  assert (Hgoal : classified (trace final) = reverse (Scenario.ids_from 0 (Z.to_nat 10001))
                  ∧ processed_tweets final = list_to_set (Scenario.ids_from 5001 5000)).
  2: { destruct Hgoal as [Hcls Hseen]. split_and!; [done..|].
       intros id. rewrite Hseen, elem_of_list_to_set, elem_of_ids_from. lia. }
  subst final. rewrite (run_cycle_single _ _ Scenario.journo); [|done|done|by vm_compute].
  rewrite processed_tweets_log, trace_log, classified_app, app_nil_r.
  exact descending_feed.
Qed.

(** C5. A cycle over a roster whose only journalist has [enabled] set to
    false: [get_enabled_journalists] is empty, and the cycle fetches the
    journalist's tweets all the same. *)
Theorem run_cycle_visits_disabled_source (w : world) :
  let config := Scenario.settings [Scenario.benched] 50 300 in
  enabled Scenario.benched = Some false
  ∧ get_enabled_journalists config = []
  ∧ fetched (trace (exec (run_cycle w config) (init 1700000000))) = [lit "benched"].
Proof.
  intros config. split_and!; [done|done|].
  rewrite run_cycle_fetched; [done|done|].
  rewrite check_daily_reset_exec. cbv zeta. by case_match.
Qed.




(** C7. Publish atomicity: [last_post_time] and [post_count_today] change
    exactly when the gate is open, the rewrite gave a text and the publisher
    reported success, and then to the time read and the count plus one;
    without a rewritten text nothing is published and nothing changes; when
    the publisher reports failure the error handler is told and nothing
    changes. *)
Theorem publish_atomicity (w : world) (config : Config) (t : tweet) (j : journalist)
    (self : bot) :
  let self' := exec (_process_football_tweet w config t j) self in
  let k := length (trace self) in
  let gate_open :=
    min_post_interval config ≤ time_time w k - last_post_time self
    ∧ post_count_today self < max_posts_per_day config in
  let rewritten :=
    Ai.rewrite_tweet (groq w (k + 1)) (tweet_text t) (username j) (reliability_score j) in
  let has_text := ∃ text, rewritten = Some text ∧ text ≠ [] in
  let success :=
    gate_open ∧ has_text ∧ initialized self = true
    ∧ poster_post_tweet w (k + 2) = Some true in
  let unchanged :=
    last_post_time self' = last_post_time self
    ∧ post_count_today self' = post_count_today self in
  (success →
     last_post_time self' = time_time w (k + 3)
     ∧ post_count_today self' = post_count_today self + 1)
  ∧ (¬ success → unchanged)
  ∧ (gate_open → ¬ has_text →
       unchanged ∧ published (trace self') = published (trace self)
       ∧ notified (trace self') = notified (trace self))
  ∧ (gate_open → has_text → initialized self = true →
       poster_post_tweet w (k + 2) ≠ Some true →
       unchanged
       ∧ notified (trace self') = notified (trace self) ++ [PostFailed (username j)]).
Proof.
  intros self' k gate_open rewritten has_text success unchanged.
  pose proof (exec_process_football_tweet w config t j self) as Hflow.
  fold self' in Hflow. subst unchanged success has_text gate_open rewritten k.
  destruct Hflow as [Hgate|Hi Hc Hrw|r Hi Hc Hrw Hr Hinit|r Hi Hc Hrw Hr Hinit Hpost
                    |r Hi Hc Hrw Hr Hinit Hpost];
    cbn [trace log set_trace last_post_time post_count_today set_post_count_today
         set_last_post_time]; rewrite ?published_app, ?notified_app; cbn [app].
  - split_and!; [| done | |]; intros [? ?]; lia.
  - assert (Hno : ¬ ∃ text, Ai.rewrite_tweet (groq w (length (trace self) + 1))
                    (tweet_text t) (username j) (reliability_score j) = Some text
                    ∧ text ≠ []).
    { intros ([|c r] & Heq & Hne); [done|]. by eapply Hrw. }
    split_and!; [by intros (_ & ? & _)|done| |by intros _ ?].
    intros _ _. cbn. by rewrite !app_nil_r.
  - split_and!; [intros (_ & _ & ? & _); congruence|done| |intros _ _ ?; congruence].
    intros _ Hno. destruct Hno. by exists r.
  - assert (Hfalse : poster_post_tweet w (length (trace self) + 2) ≠ Some true).
    { intros Heq. by rewrite Heq in Hpost. }
    split_and!; [by intros (_ & _ & _ & ?)|done| |done].
    intros _ Hno. destruct Hno. by exists r.
  - assert (Htrue : poster_post_tweet w (length (trace self) + 2) = Some true).
    { by destruct (poster_post_tweet w _) as [[]|]. }
    split_and!; [done| | |done].
    + intros Hno. destruct Hno. split_and!; [done..| |done|done]. by exists r.
    + intros _ Hno. destruct Hno. by exists r.
Qed.

Lemma publish_atomicity_witness :
  let w := Scenario.eager in
  let config := Scenario.settings [Scenario.journo] 5 25 in
  let self := Scenario.running 1699999000 in
  let self' := exec (_process_football_tweet w config (Scenario.signing 101)
                       Scenario.journo) self in
  last_post_time self' = 1700000030 ∧ post_count_today self' = 2.
Proof.
  intros w config self self'.
  apply (publish_atomicity w config (Scenario.signing 101) Scenario.journo self).
  split_and!; [by vm_compute | reflexivity | | reflexivity | reflexivity].
  eexists. split; [reflexivity|discriminate].
Defined.

(** C8. Formatting: when the assembled text is within 280 characters the
    function returns it as the specification words it, with the symbol of
    the score's range; and the example of the specification. *)
Theorem format_final_tweet_within_limit :
  (∀ (rewrittenText sourceIdentifier : str) (score : num) (tier : str),
     len (spec_format rewrittenText sourceIdentifier score) ≤ 280 →
     _format_final_tweet rewrittenText sourceIdentifier score tier
     = spec_format rewrittenText sourceIdentifier score)
  ∧ (∀ tier : str,
       _format_final_tweet (lit "Player X signs for Club Y") (lit "exampleJourno")
         (PyFloat 950 1) tier
       = lit "Player X signs for Club Y" ++ NL ++ NL ++ lit "Source - @exampleJourno"
           ++ NL ++ lit "[Reliability Score: " ++ green_circle ++ lit " - 95.0%]").
Proof.
  split.
  - intros text username score tier Hlen.
    rewrite spec_format_assemble in *. unfold _format_final_tweet.
    by rewrite (proj2 (Z.ltb_ge 280 _) Hlen).
  - intros tier. reflexivity.
Qed.

Lemma format_final_tweet_within_limit_witness :
  len (spec_format (lit "Here we go") (lit "exampleJourno") (PyInt 72)) ≤ 280
  ∧ _format_final_tweet (lit "Here we go") (lit "exampleJourno") (PyInt 72) (lit "tier2")
    = spec_format (lit "Here we go") (lit "exampleJourno") (PyInt 72).
Proof.
  split.
  - vm_compute. discriminate.
  - apply (proj1 format_final_tweet_within_limit). vm_compute. discriminate.
Defined.

(** C9, as amended. Truncation: when the assembled text is longer than 280
    characters and the allowance, 280 less the length of the attribution, is
    more than 50, the rewritten text is cut to the allowance less 3
    characters and an ellipsis added, so the result is 280 characters long
    and ends with the whole attribution; with an allowance of 50 or less the
    text is returned as assembled. *)
Theorem format_final_tweet_truncation
    (rewritten_text username : str) (score : num) (tier : str) :
  280 < len (assemble rewritten_text username score) →
  let allowance := 280 - len (attribution username score) in
  let output := _format_final_tweet rewritten_text username score tier in
  (50 < allowance →
     output = take (Z.to_nat (allowance - 3)) rewritten_text ++ lit "..."
                ++ attribution username score
     ∧ len (take (Z.to_nat (allowance - 3)) rewritten_text) = allowance - 3
     ∧ len output = 280
     ∧ attribution username score `suffix_of` output)
  ∧ (allowance ≤ 50 → output = assemble rewritten_text username score).
Proof.
  intros Hlong allowance output. subst output. unfold _format_final_tweet.
  rewrite (proj2 (Z.ltb_lt 280 _) Hlong). fold allowance.
  rewrite assemble_attribution, len_app in Hlong.
  split.
  - intros Hroom. rewrite (proj2 (Z.ltb_lt 50 _) Hroom).
    rewrite slice_to_nonneg by lia. rewrite assemble_attribution, <- app_assoc.
    assert (Htake : len (take (Z.to_nat (allowance - 3)) rewritten_text) = allowance - 3).
    { unfold len in *. rewrite length_take. lia. }
    split_and!; [done | done | | ].
    + rewrite !len_app, Htake. change (len (lit "...")) with 3. lia.
    + rewrite app_assoc. by apply suffix_app_r.
  - intros Hroom. by rewrite (proj2 (Z.ltb_ge 50 _) Hroom).
Qed.

Lemma format_final_tweet_truncation_witness :
  let text := repeat 120%N 300 in
  let out := _format_final_tweet text (lit "exampleJourno") (PyFloat 950 1) [] in
  len out = 280 ∧ attribution (lit "exampleJourno") (PyFloat 950 1) `suffix_of` out.
Proof.
  intros text out.
  assert (Hlong : 280 < len (assemble text (lit "exampleJourno") (PyFloat 950 1)))
    by (vm_compute; reflexivity).
  destruct (format_final_tweet_truncation text (lit "exampleJourno") (PyFloat 950 1) [] Hlong)
    as [Htrunc _].
  destruct Htrunc as (_ & _ & Hlen & Hsuf); [vm_compute; reflexivity|].
  split; assumption.
Defined.

(** C9 as stated fails at an allowance of exactly 50: the text is not
    cut and stays 290 characters long. *)
Lemma truncation_skipped_at_allowance_50 :
  let text := repeat 120%N 60 in
  let username := repeat 117%N 187 in
  let score := PyFloat 950 1 in
  let allowance := 280 - len (attribution username score) in
  280 < len (assemble text username score)
  ∧ allowance = 50
  ∧ _format_final_tweet text username score [] = assemble text username score
  ∧ len (_format_final_tweet text username score []) = 290
  ∧ _format_final_tweet text username score []
    ≠ take (Z.to_nat (allowance - 3)) text ++ lit "..." ++ attribution username score.
Proof.
  vm_compute. split_and!; try reflexivity. discriminate.
Qed.

(** C10. The recency filter is vacuous: [_is_recent_tweet] is true of every
    tweet, and a tweet whose identifier is not in the cache is classified
    whatever its date. *)
Theorem recency_filter_vacuous (w : world) (config : Config) :
  (∀ t : tweet, _is_recent_tweet t = true)
  ∧ (∀ (j : journalist) (id : Z) (text : str) (created_at : Z) (self : bot),
       id ∉ processed_tweets self →
       let t := Tweet id text created_at in
       classified (trace (exec (monitor_tweet w config j t) self))
       = classified (trace self) ++ [id]).
Proof.
  split; [done|]. intros j id text created_at self Hnew t.
  destruct (monitor_tweet_unseen_effect w config j t self Hnew)
    as (_ & evs & cap & -> & Hevs & _ & Hcap).
  apply flow_events_classified in Hevs as (Hcl & _ & _).
  apply classified_tweet_trace; [done|].
  by destruct Hcap as [(-> & _)|(kept & -> & _)].
Qed.

Lemma recency_filter_vacuous_witness :
  let old := Tweet 7 (lit "Here we go") 0 in
  classified (trace (exec (monitor_tweet Scenario.eager
                             (Scenario.settings [Scenario.journo] 50 300)
                             Scenario.journo old) (init 1700000000)))
  = [7].
Proof.
  intros old.
  apply (proj2 (recency_filter_vacuous Scenario.eager
                  (Scenario.settings [Scenario.journo] 50 300))
           Scenario.journo 7 (lit "Here we go") 0 (init 1700000000)).
  apply not_elem_of_empty.
Defined.

(** * Further properties of the code *)

(** ** White space *)

Section StripFacts.

Lemma lstrip_split (s : str) :
  ∃ ws, s = ws ++ lstrip s ∧ Forall (λ c, isspace c = true) ws.
Proof.
  induction s as [|c s (ws & Hs & Hws)]; [by exists []|].
  cbn [lstrip]. destruct (isspace c) eqn:Hc.
  - exists (c :: ws). split; [by rewrite Hs at 1|by constructor].
  - by exists [].
Qed.

Lemma lstrip_head (s : str) (c : N) : head (lstrip s) = Some c → isspace c = false.
Proof.
  induction s as [|a s IH]; [done|]. cbn [lstrip].
  destruct (isspace a) eqn:Ha; [done|]. cbn. congruence.
Qed.

Lemma lstrip_fixed (s : str) :
  (∀ c, head s = Some c → isspace c = false) → lstrip s = s.
Proof. destruct s as [|c s]; [done|]. intros H. cbn. by rewrite (H c). Qed.

Lemma lstrip_nil (s : str) : lstrip s = [] ↔ Forall (λ c, isspace c = true) s.
Proof.
  induction s as [|c s IH]; [done|]. cbn [lstrip].
  destruct (isspace c) eqn:Hc.
  - rewrite IH, Forall_cons. tauto.
  - split; [done|]. intros [? _]%Forall_cons. congruence.
Qed.

(** The ends of a stripped string are not white space. *)
Lemma strip_ends (s : str) (c : N) :
  head (strip s) = Some c ∨ last (strip s) = Some c → isspace c = false.
Proof.
  unfold strip.
  destruct (lstrip_split (reverse (lstrip s))) as (ws & Hrev & _).
  set (b := lstrip (reverse (lstrip s))) in *.
  intros [Hc|Hc].
  - destruct (decide (b = [])) as [Hb|Hb]; [by rewrite Hb in Hc|].
    assert (Ha : lstrip s = reverse b ++ reverse ws).
    { by rewrite <- reverse_app, <- Hrev, reverse_involutive. }
    apply (lstrip_head s). rewrite Ha.
    destruct (reverse b) as [|x l] eqn:Hx; [|done].
    apply (f_equal reverse) in Hx. rewrite reverse_involutive in Hx. done.
  - rewrite last_reverse in Hc. by apply (lstrip_head (reverse (lstrip s))).
Qed.

Lemma strip_fixed (s : str) :
  (∀ c, head s = Some c ∨ last s = Some c → isspace c = false) → strip s = s.
Proof.
  intros H. unfold strip. rewrite (lstrip_fixed s) by (intros c Hc; apply H; by left).
  rewrite lstrip_fixed, reverse_involutive; [done|].
  intros c Hc. apply H. right. by rewrite <- head_reverse.
Qed.

Lemma strip_idemp (s : str) : strip (strip s) = strip s.
Proof. apply strip_fixed, strip_ends. Qed.

Lemma strip_nil (s : str) : strip s = [] ↔ Forall (λ c, isspace c = true) s.
Proof.
  unfold strip. split.
  - intros H. apply (f_equal reverse) in H. rewrite reverse_involutive in H.
    change (reverse []) with (@nil N) in H.
    apply lstrip_nil in H. apply Forall_reverse in H.
    destruct (lstrip_split s) as (ws & Hs & Hws). rewrite Hs.
    apply Forall_app. split; [done|]. by rewrite reverse_involutive in H.
  - intros H. apply lstrip_nil in H. by rewrite H.
Qed.

End StripFacts.

(** ** The language-model client *)

Section AiFacts.

Lemma call_groq_api_Some (reply : Ai.http_reply) (response : str) :
  Ai._call_groq_api reply = Some response ↔
  ∃ content, reply = Ai.HttpResponse 200 (Some content) ∧ response = strip content.
Proof.
  split.
  - destruct reply as [status [content|]| |]; cbn; try done.
    + destruct (Z.eqb_spec status 200) as [->|]; [|done].
      intros [= <-]. by exists content.
    + by destruct (status =? 200).
  - by intros (content & -> & ->).
Qed.

Lemma slice_inner_nil {A} (l : list A) : slice_inner l = [] ↔ (length l ≤ 2)%nat.
Proof.
  unfold slice_inner. rewrite <- length_zero_iff_nil, length_drop, length_take. lia.
Qed.

Lemma length_slice_to {A} (k : Z) (l : list A) :
  0 ≤ k → len (slice_to k l) = Z.min k (len l).
Proof. intros Hk. rewrite slice_to_nonneg by done. unfold len. rewrite length_take. lia. Qed.

End AiFacts.



Lemma rewrite_tweet_Some (reply : Ai.http_reply) (original_text username : str)
    (score : num) (rewritten : str) :
  Ai.rewrite_tweet reply original_text username score = Some rewritten ↔
  ∃ content, reply = Ai.HttpResponse 200 (Some content) ∧ strip content ≠ []
    ∧ let response := strip content in
      let unquoted := if quoted response then slice_inner response else response in
      rewritten = if 200 <? len unquoted then slice_to 197 unquoted ++ lit "..."
                  else unquoted.
Proof.
  unfold Ai.rewrite_tweet. split.
  - destruct (Ai._call_groq_api reply) as [[|c r]|] eqn:Hcall; [done| |done].
    apply call_groq_api_Some in Hcall as (content & -> & Hr).
    rewrite Hr, strip_idemp. intros [= <-]. exists content.
    split_and!; [done|by rewrite <- Hr|done].
  - intros (content & -> & Hne & ->). cbn.
    destruct (strip content) as [|c r] eqn:Hs; [done|].
    by rewrite <- Hs, strip_idemp.
Qed.

Lemma rewrite_tweet_len (reply : Ai.http_reply) (original_text username : str)
    (score : num) (rewritten : str) :
  Ai.rewrite_tweet reply original_text username score = Some rewritten →
  len rewritten ≤ 200.
Proof.
  intros (content & _ & _ & ->)%rewrite_tweet_Some. cbv zeta.
  case_match eqn:Hlong; [|by apply Z.ltb_ge in Hlong].
  rewrite len_app, length_slice_to by done. change (len (lit "...")) with 3. lia.
Qed.

(** X2. The rewrite gives the empty text exactly when the response, stripped,
    is one or two double quotes. *)
Theorem rewrite_tweet_empty (reply : Ai.http_reply) (original_text username : str)
    (score : num) :
  Ai.rewrite_tweet reply original_text username score = Some [] ↔
  ∃ content, reply = Ai.HttpResponse 200 (Some content)
             ∧ (strip content = [34%N] ∨ strip content = [34%N; 34%N]).
Proof.
  rewrite rewrite_tweet_Some. split.
  - intros (content & -> & Hne & Hempty). exists content. split; [done|].
    cbv zeta in Hempty. revert Hempty Hne.
    generalize (strip content). intros response Hempty Hne.
    destruct (200 <? len _) eqn:Hlong.
    { symmetry in Hempty. apply app_eq_nil in Hempty as [_ ?]. done. }
    destruct (quoted response) eqn:Hq; [|done].
    symmetry in Hempty. apply slice_inner_nil in Hempty.
    destruct response as [|a [|b [|c r]]]; [done| | |cbn in Hempty; lia].
    + left. unfold quoted in Hq. cbn in Hq. by repeat case_match.
    + right. unfold quoted in Hq. cbn in Hq.
      destruct a as [|a]; [done|]. repeat (case_match; try done).
  - intros (content & -> & Hq). exists content. split; [done|].
    by destruct Hq as [-> | ->].
Qed.

Lemma rewrite_tweet_empty_witness :
  Ai.rewrite_tweet (Ai.HttpResponse 200 (Some [32; 34; 32]%N)) (lit "x") (lit "u") (PyInt 1)
  = Some [].
Proof.
  apply (proj2 (rewrite_tweet_empty _ _ _ _)).
  exists [32; 34; 32]%N. split; [reflexivity|]. left. reflexivity.
Defined.

(** ** More on the cycle *)

Section CycleFacts.
Variable w : world.
Variable config : Config.

Lemma run_cycle_done (self : bot) :
  run_cycle w config self = (Done tt, exec (run_cycle w config) self).
Proof.
  destruct (run_cycle_lift w config (λ _, True) (λ _ _ _ _, I) (λ _ _ _, I)
              (λ _ _ _ _, I) self I) as (self' & Hrun & _).
  unfold exec. by rewrite Hrun.
Qed.

Lemma run_cycles_done (n : nat) (self : bot) :
  run_cycles w config n self = (Done tt, exec (run_cycles w config n) self).
Proof.
  destruct (run_cycles_lift w config (λ _, True) (λ _ _ _ _, I) (λ _ _ _, I)
              (λ _ _ _ _, I) n self I) as (self' & Hrun & _).
  unfold exec. by rewrite Hrun.
Qed.

Lemma visit_uninitialized (j : journalist) (self : bot) :
  initialized self = false →
  visit w config j self = (Done tt, log [Notify (MonitoringError (username j))] self).
Proof.
  intros Hinit.
  unfold visit, try_except at 1, bind at 1, _monitor_journalist, try_except, bind at 1.
  unfold get_user_tweets, bind at 1, get. by rewrite Hinit.
Qed.

Lemma for_each_visit_uninitialized (js : list journalist) (self : bot) :
  initialized self = false →
  for_each js (visit w config) self
  = (Done tt, log (Notify ∘ MonitoringError ∘ username <$> js) self).
Proof.
  revert self. induction js as [|j js IH]; intros self Hinit.
  - cbn. unfold ret, log. destruct self. cbn. by rewrite app_nil_r.
  - cbn [for_each]. unfold bind. rewrite visit_uninitialized by done.
    rewrite IH by done. by rewrite log_log.
Qed.

Lemma check_daily_reset_initialized (self : bot) :
  initialized (exec (_check_daily_reset w) self) = initialized self.
Proof. rewrite check_daily_reset_exec. cbv zeta. by case_match. Qed.

End CycleFacts.


(** X4. A cycle with a Twitter manager that was not initialized: below the
    daily limit, every journalist of the roster is reported to the error
    handler, in order, and nothing else happens after the daily reset: no
    search, no classification, no delay. *)
Theorem run_cycle_uninitialized (w : world) (config : Config) (self : bot) :
  initialized self = false →
  let s1 := exec (_check_daily_reset w) self in
  post_count_today s1 < max_posts_per_day config →
  exec (run_cycle w config) self
  = log (Notify ∘ MonitoringError ∘ username <$> journalists config) s1.
Proof.
  intros Hinit s1 Hcount. rewrite run_cycle_exec. cbv zeta. fold s1.
  rewrite (proj2 (Z.leb_gt _ _) Hcount). unfold exec at 1.
  rewrite for_each_visit_uninitialized; [done|].
  subst s1. by rewrite check_daily_reset_initialized.
Qed.

Lemma run_cycle_uninitialized_witness :
  let config := Scenario.settings [Scenario.journo; Scenario.benched] 5 25 in
  let self := Cases.at_work (midnight 1700000000) 0 false in
  initialized self = false
  ∧ trace (exec (run_cycle Scenario.eager config) self)
    = [Today 1700000000; Notify (MonitoringError (lit "exampleJourno"));
       Notify (MonitoringError (lit "benched"))].
Proof.
  intros config self. split; [reflexivity|].
  rewrite (run_cycle_uninitialized Scenario.eager config self); [reflexivity|reflexivity|].
  by vm_compute.
Defined.

(** X5. At the daily limit, on a day already begun, a cycle reads the date and
    does nothing else. *)
Theorem run_cycle_at_daily_limit (w : world) (config : Config) (self : bot) :
  let now := datetime_now w (length (trace self)) in
  midnight now ≤ daily_reset_time self →
  max_posts_per_day config ≤ post_count_today self →
  exec (run_cycle w config) self = log [Today now] self.
Proof.
  intros now Hday Hcount. rewrite run_cycle_exec. cbv zeta.
  rewrite check_daily_reset_exec. cbv zeta. fold now.
  rewrite (proj2 (Z.ltb_ge _ _) Hday).
  cbn [post_count_today log set_trace]. by rewrite (proj2 (Z.leb_le _ _) Hcount).
Qed.

Lemma run_cycle_at_daily_limit_witness :
  let config := Scenario.settings [Scenario.journo; Scenario.benched] 5 25 in
  let self := Cases.at_work (midnight 1700000000) 5 true in
  max_posts_per_day config ≤ post_count_today self
  ∧ exec (run_cycle Scenario.eager config) self = log [Today 1700000000] self.
Proof.
  intros config self. split; [by vm_compute|].
  apply (run_cycle_at_daily_limit Scenario.eager config self); by vm_compute.
Defined.

Section CacheFacts.
Variable w : world.
Variable config : Config.

Lemma size_list_to_set_le (l : list Z) : (size (list_to_set l : gset Z) ≤ length l)%nat.
Proof.
  induction l as [|x l IH]; cbn [list_to_set length]; [by rewrite size_empty|].
  rewrite size_union_alt, size_singleton.
  pose proof (subseteq_size (list_to_set l ∖ {[x]}) (list_to_set l : gset Z)
                ltac:(by apply subseteq_difference_l)). lia.
Qed.

Lemma length_slice_last {A} (n : nat) (l : list A) : (length (slice_last n l) ≤ n)%nat.
Proof. unfold slice_last. rewrite length_drop. lia. Qed.

(** One tweet leaves the cache within its limit, whatever the order in
    which the set is enumerated. *)
Lemma monitor_tweet_size (j : journalist) (t : tweet) (self : bot) :
  Z.of_nat (size (processed_tweets self)) ≤ 10000 →
  Z.of_nat (size (processed_tweets (exec (monitor_tweet w config j t) self))) ≤ 10000.
Proof.
  intros Hsize. destruct (decide (tweet_id t ∈ processed_tweets self)) as [Hseen|Hnew].
  { by rewrite exec_monitor_tweet_seen. }
  destruct (monitor_tweet_unseen_effect w config j t self Hnew)
    as (_ & evs & cap & _ & _ & _ & Hcap).
  destruct Hcap as [(_ & -> & Hunder)|(kept & _ & -> & _ & ->)]; [done|].
  pose proof (size_list_to_set_le (slice_last 5000
    (set_order w (length (trace self ++ [Classify t] ++ evs))
       ({[tweet_id t]} ∪ processed_tweets self)))) as Hle.
  pose proof (length_slice_last 5000
    (set_order w (length (trace self ++ [Classify t] ++ evs))
       ({[tweet_id t]} ∪ processed_tweets self))). lia.
Qed.

(** What a tweet leaves alone: the day of the last reset; and the trace
    only grows. *)
Lemma monitor_tweet_frame (j : journalist) (t : tweet) (self : bot) :
  let self' := exec (monitor_tweet w config j t) self in
  daily_reset_time self' = daily_reset_time self
  ∧ ∃ evs, trace self' = trace self ++ evs.
Proof.
  cbv zeta. destruct (decide (tweet_id t ∈ processed_tweets self)) as [Hseen|Hnew].
  { rewrite exec_monitor_tweet_seen by done. split; [done|]. exists []. by rewrite app_nil_r. }
  rewrite exec_monitor_tweet_unseen by done. cbv zeta.
  set (s1 := log [Classify t] self).
  set (s2 := if Ai.is_football_related _ _ then _ else _).
  assert (H2 : daily_reset_time s2 = daily_reset_time self
               ∧ ∃ evs, trace s2 = trace self ++ evs).
  { subst s2. case_match.
    - destruct (publish_flow_frame w config t j s1 _ (exec_process_football_tweet w config t j s1))
        as (_ & _ & Hd & evs & Htr & _).
      split; [done|]. exists ([Classify t] ++ evs). rewrite Htr. cbn. by rewrite <- app_assoc.
    - split; [done|]. by exists [Classify t]. }
  destruct H2 as (Hd & evs & Htr).
  set (s3 := set_processed_tweets _ s2).
  destruct (exec_limit_processed_tweets w s3) as [[-> _]|(_ & kept & -> & _)].
  - split; [done|]. by exists evs.
  - split; [done|]. eexists. cbn. rewrite Htr, <- app_assoc. reflexivity.
Qed.

End CacheFacts.

(** X6. The cache holds at most 10000 identifiers after any number of cycles,
    for every enumeration order of the set. *)
Theorem processed_tweets_bounded (w : world) (config : Config) (n : nat) (self : bot) :
  Z.of_nat (size (processed_tweets self)) ≤ 10000 →
  Z.of_nat (size (processed_tweets (exec (run_cycles w config n) self))) ≤ 10000.
Proof.
  apply (run_cycles_invariant w config
           (λ s, Z.of_nat (size (processed_tweets s)) ≤ 10000)).
  - done.
  - done.
  - intros j t s. apply monitor_tweet_size.
Qed.

Lemma processed_tweets_bounded_witness :
  let config := Scenario.settings [Scenario.journo; Scenario.benched] 5 25 in
  Z.of_nat (size (processed_tweets (init 1700000000))) ≤ 10000
  ∧ Z.of_nat (size (processed_tweets
                      (exec (run_cycles Scenario.eager config 2) (init 1700000000)))) ≤ 10000.
Proof.
  intros config.
  assert (Hstart : Z.of_nat (size (processed_tweets (init 1700000000))) ≤ 10000)
    by by vm_compute.
  split; [exact Hstart|].
  exact (processed_tweets_bounded Scenario.eager config 2 (init 1700000000) Hstart).
Defined.

(** X7. A new day lifts the limit: when the date has moved past the day of the
    last reset, the cycle first writes 0 to the count and stores the new day,
    and then, with a positive limit, fetches from every journalist, however
    many posts the day before had. *)
Theorem run_cycle_new_day (w : world) (config : Config) (self : bot) :
  let now := datetime_now w (length (trace self)) in
  let self' := exec (run_cycle w config) self in
  initialized self = true →
  daily_reset_time self < midnight now →
  0 < max_posts_per_day config →
  fetched (trace self') = fetched (trace self) ++ (username <$> journalists config)
  ∧ (∃ evs, trace self' = trace self ++ [Today now; Count 0] ++ evs)
  ∧ daily_reset_time self' = midnight now.
Proof.
  intros now self' Hinit Hday Hmax.
  assert (Hs1 : exec (_check_daily_reset w) self
                = set_daily_reset_time (midnight now)
                    (set_post_count_today 0 (log [Today now; Count 0] self))).
  { rewrite check_daily_reset_exec. cbv zeta. fold now.
    by rewrite (proj2 (Z.ltb_lt _ _) Hday). }
  split.
  { apply run_cycle_fetched; [done|]. by rewrite Hs1. }
  subst self'. rewrite run_cycle_exec. cbv zeta. rewrite Hs1.
  cbn [post_count_today set_daily_reset_time set_post_count_today].
  rewrite (proj2 (Z.leb_gt _ _) Hmax).
  set (s1 := set_daily_reset_time _ _).
  destruct (for_each_journalists_lift w config
    (λ s, daily_reset_time s = midnight now ∧ ∃ evs, trace s = trace s1 ++ evs))
    with (js := journalists config) (self := s1) as (s2 & Hrun & Hd & evs & Htr).
  - intros s e _ [Hd [evs Htr]]. split; [done|]. exists (evs ++ [e]).
    cbn. by rewrite Htr, <- app_assoc.
  - intros j t s [Hd [evs Htr]].
    destruct (monitor_tweet_frame w config j t s) as (Hd' & evs' & Htr').
    split; [congruence|]. exists (evs ++ evs'). by rewrite Htr', Htr, <- app_assoc.
  - split; [done|]. exists []. by rewrite app_nil_r.
  - unfold exec. rewrite Hrun. cbn [snd]. split; [|done].
    exists evs. rewrite Htr. subst s1. cbn. by rewrite <- app_assoc.
Qed.

Lemma run_cycle_new_day_witness :
  let config := Scenario.settings [Scenario.journo; Scenario.benched] 5 25 in
  let self := Cases.at_work (midnight 1700000000 - 86400) 5 true in
  let self' := exec (run_cycle Scenario.eager config) self in
  daily_reset_time self < midnight 1700000000
  ∧ fetched (trace self') = [lit "exampleJourno"; lit "benched"]
  ∧ daily_reset_time self' = midnight 1700000000.
Proof.
  intros config self self'.
  assert (Hday : daily_reset_time self < midnight 1700000000) by by vm_compute.
  split; [exact Hday|].
  destruct (run_cycle_new_day Scenario.eager config self) as (Hf & _ & Hd).
  - reflexivity.
  - exact Hday.
  - by vm_compute.
  - split; [exact Hf|exact Hd].
Defined.


Section VettedFacts.
Variable w : world.
Variable config : Config.

Lemma vetted_at_app (tr evs : list event) (p : nat) (text : str) :
  (p < length tr)%nat → BotMore.vetted_at w tr p text → BotMore.vetted_at w (tr ++ evs) p text.
Proof.
  intros Hp (t & j & r & H3 & Hc & Hyes & Hg & Hr & Hrw & Hne & Htext).
  exists t, j, r. split_and!; try done; by apply lookup_app_l_Some.
Qed.

Lemma vetted_app (tr evs : list event) :
  BotMore.vetted w tr →
  (∀ p text, evs !! p = Some (Publish text) → BotMore.vetted_at w (tr ++ evs) (length tr + p) text) →
  BotMore.vetted w (tr ++ evs).
Proof.
  intros Hv Hevs p text Hp. apply lookup_app_Some in Hp as [Hp|[Hge Hp]].
  - apply vetted_at_app; [by eapply lookup_lt_Some|by apply Hv].
  - replace p with (length tr + (p - length tr))%nat by lia. by apply Hevs.
Qed.

Lemma vetted_silent (tr evs : list event) :
  published evs = [] → BotMore.vetted w tr → BotMore.vetted w (tr ++ evs).
Proof.
  intros Hevs Hv. apply vetted_app; [done|]. intros p text Hp.
  apply lookup_published in Hp. rewrite Hevs in Hp. by apply elem_of_nil in Hp.
Qed.

(** The flow of a tweet the model accepted, seen from the state before its
    classification. *)
Lemma vetted_publish_flow (t : tweet) (j : journalist) (self self' : bot) :
  Ai.is_football_related (groq w (length (trace self))) (tweet_text t) = true →
  publish_flow w config t j (log [Classify t] self) self' →
  BotMore.vetted w (trace self) → BotMore.vetted w (trace self').
Proof.
  intros Hyes Hflow Hv.
  assert (Hlen : length (trace (log [Classify t] self)) = S (length (trace self))).
  { cbn. rewrite length_app. cbn. lia. }
  destruct Hflow as [Hgate|Hi Hc Hrw|r Hi Hc Hrw Hr Hinit|r Hi Hc Hrw Hr Hinit Hpost
                    |r Hi Hc Hrw Hr Hinit Hpost];
    rewrite Hlen in *;
    cbn [trace log set_trace set_post_count_today set_last_post_time];
    rewrite <- ?app_assoc; cbn [app].
  1-3: by apply vetted_silent.
  all: apply vetted_app; [done|]; intros p text Hp;
    destruct p as [|[|[|[|[|[|]]]]]]; try done; cbn in Hp; injection Hp as <-;
    exists t, j, r;
    replace (length (trace self) + 3 - 3)%nat with (length (trace self)) by lia;
    replace (length (trace self) + 3 - 2)%nat with (length (trace self) + 1)%nat by lia;
    replace (length (trace self) + 3 - 1)%nat with (length (trace self) + 2)%nat by lia;
    replace (S (length (trace self)) + 1)%nat with (length (trace self) + 2)%nat in * by lia;
    replace (S (length (trace self))) with (length (trace self) + 1)%nat in * by lia;
    split_and!; try done; try lia;
    rewrite lookup_app_r by lia;
    match goal with
    | |- _ !! ?k = _ => by replace k with 0%nat by lia
    | |- _ !! ?k = _ => by replace k with 1%nat by lia
    | |- _ !! ?k = _ => by replace k with 2%nat by lia
    end.
Qed.

Lemma vetted_tweet (j : journalist) (t : tweet) (self : bot) :
  BotMore.vetted w (trace self) → BotMore.vetted w (trace (exec (monitor_tweet w config j t) self)).
Proof.
  intros Hv. destruct (decide (tweet_id t ∈ processed_tweets self)) as [Hseen|Hnew].
  { by rewrite exec_monitor_tweet_seen. }
  rewrite exec_monitor_tweet_unseen by done. cbv zeta.
  set (s1 := log [Classify t] self).
  set (s2 := if Ai.is_football_related _ _ then _ else _).
  assert (H2 : BotMore.vetted w (trace s2)).
  { subst s2. case_match eqn:Hyes.
    - eapply vetted_publish_flow; [exact Hyes|apply exec_process_football_tweet|done].
    - by apply vetted_silent. }
  destruct (exec_limit_processed_tweets w (set_processed_tweets
         ({[tweet_id t]} ∪ processed_tweets s2) s2)) as [[-> _]|(_ & kept & -> & _)]; [done|].
  by apply vetted_silent.
Qed.

End VettedFacts.

(** X8. Nothing reaches the publisher unvetted: in every run of the bot each
    call of the publisher follows the classification of a tweet the model
    called football, the gate and the rewrite of that tweet, and the text
    published is the formatted rewrite. *)
Theorem publish_only_vetted (w : world) (config : Config) (now : Z) (n : nat) :
  BotMore.vetted w (trace (exec (run_cycles w config n) (init now))).
Proof.
  apply (run_cycles_invariant w config (λ s, BotMore.vetted w (trace s))).
  - intros s e Hq Hv. apply vetted_silent; [by destruct e|done].
  - intros s today Hv. by apply vetted_silent.
  - intros j t s. apply vetted_tweet.
  - intros p text Hp. done.
Qed.

Lemma publish_only_vetted_witness :
  let w := Scenario.eager in
  let config := Scenario.settings [Scenario.journo] 5 25 in
  let tr := trace (exec (run_cycles w config 1) (init 1700000000)) in
  ∃ text, tr !! 5%nat = Some (Publish text) ∧ BotMore.vetted_at w tr 5 text.
Proof.
  intros w config tr. eexists.
  assert (Hp : tr !! 5%nat
               = Some (Publish (_format_final_tweet (lit "YES") (lit "exampleJourno")
                                  (PyFloat 950 1) (lit "tier1"))))
    by by vm_compute.
  split; [exact Hp|].
  exact (publish_only_vetted w config 1700000000 1 5%nat _ Hp).
Defined.



(** ** More on the format *)

Section FormatMore.

Lemma len_attribution (username : str) (score : num) :
  len (attribution username score) = 39 + len username + len (to_str score).
Proof.
  unfold attribution. rewrite !len_app.
  assert (Hemoji : len (reliability_emoji score) = 1).
  { unfold reliability_emoji. by repeat case_match. }
  rewrite Hemoji. change (len NL) with 1. change (len (lit "Source - @")) with 10.
  change (len (lit "[Reliability Score: ")) with 20. change (len (lit " - ")) with 3.
  change (len (lit "%]")) with 2. lia.
Qed.

Lemma format_final_tweet_short (text username : str) (score : num) (tier : str) :
  len text + len (attribution username score) ≤ 280 →
  _format_final_tweet text username score tier = text ++ attribution username score.
Proof.
  intros Hlen. unfold _format_final_tweet. rewrite assemble_attribution, len_app.
  by rewrite (proj2 (Z.ltb_ge 280 _) Hlen).
Qed.

End FormatMore.

(** X10. The truncation is never needed for a rewritten text: the rewrite is
    at most 200 characters long, so when the user name and the printed score
    together have at most 41 characters the final tweet is the rewritten
    text followed by the attribution, uncut, within 280 characters. *)
Theorem rewritten_tweet_fits (reply : Ai.http_reply) (original_text username : str)
    (score : num) (tier rewritten : str) :
  len username + len (to_str score) ≤ 41 →
  Ai.rewrite_tweet reply original_text username score = Some rewritten →
  len rewritten ≤ 200
  ∧ _format_final_tweet rewritten username score tier
    = rewritten ++ attribution username score
  ∧ len (_format_final_tweet rewritten username score tier) ≤ 280.
Proof.
  intros Hshort Hrw. apply rewrite_tweet_len in Hrw.
  pose proof (len_attribution username score) as Hattr.
  rewrite format_final_tweet_short by lia. rewrite len_app.
  split_and!; [done|done|lia].
Qed.

Lemma rewritten_tweet_fits_witness :
  let reply := Ai.HttpResponse 200 (Some (lit "Here we go")) in
  Ai.rewrite_tweet reply (lit "here we go!") (lit "exampleJourno") (PyFloat 950 1)
  = Some (lit "Here we go")
  ∧ _format_final_tweet (lit "Here we go") (lit "exampleJourno") (PyFloat 950 1) (lit "tier1")
    = lit "Here we go" ++ attribution (lit "exampleJourno") (PyFloat 950 1).
Proof.
  intros reply.
  assert (Hrw : Ai.rewrite_tweet reply (lit "here we go!") (lit "exampleJourno")
                  (PyFloat 950 1) = Some (lit "Here we go")) by reflexivity.
  split; [exact Hrw|].
  apply (rewritten_tweet_fits reply (lit "here we go!") (lit "exampleJourno") (PyFloat 950 1)
           (lit "tier1") (lit "Here we go")); [by vm_compute|exact Hrw].
Defined.

(** X11. When the attribution has fewer than 230 characters the final tweet
    has at most 280 and ends with the whole attribution; its text is the
    rewritten text or what is left of it before the ellipsis. *)
Theorem format_final_tweet_fits (rewritten_text username : str) (score : num) (tier : str) :
  len (attribution username score) < 230 →
  let output := _format_final_tweet rewritten_text username score tier in
  len output ≤ 280
  ∧ attribution username score `suffix_of` output
  ∧ (output = rewritten_text ++ attribution username score
     ∨ ∃ kept, kept `prefix_of` rewritten_text
               ∧ output = kept ++ lit "..." ++ attribution username score).
Proof.
  intros Hattr output. subst output.
  destruct (Z.le_gt_cases (len rewritten_text + len (attribution username score)) 280)
    as [Hfit|Hlong].
  - rewrite format_final_tweet_short by done. rewrite len_app.
    split_and!; [lia|by apply suffix_app_r|by left].
  - unfold _format_final_tweet. rewrite assemble_attribution, len_app.
    rewrite (proj2 (Z.ltb_lt 280 _)) by lia.
    rewrite (proj2 (Z.ltb_lt 50 _)) by lia.
    rewrite slice_to_nonneg by lia. rewrite assemble_attribution, <- app_assoc.
    split_and!.
    + rewrite !len_app. unfold len at 1. rewrite length_take.
      change (len (lit "...")) with 3. unfold len in *. lia.
    + rewrite app_assoc. by apply suffix_app_r.
    + right. eexists. split; [apply prefix_take|done].
Qed.

Lemma format_final_tweet_fits_witness :
  let text := repeat 120%N 300 in
  let output := _format_final_tweet text (lit "exampleJourno") (PyFloat 950 1) (lit "tier1") in
  len (attribution (lit "exampleJourno") (PyFloat 950 1)) < 230
  ∧ len output ≤ 280
  ∧ attribution (lit "exampleJourno") (PyFloat 950 1) `suffix_of` output.
Proof.
  intros text output.
  assert (Hshort : len (attribution (lit "exampleJourno") (PyFloat 950 1)) < 230)
    by by vm_compute.
  split; [exact Hshort|].
  destruct (format_final_tweet_fits text (lit "exampleJourno") (PyFloat 950 1) (lit "tier1")
              Hshort) as (Hlen & Hsuffix & _).
  split; [exact Hlen|exact Hsuffix].
Defined.

(** ** The roster *)

Section RosterFacts.
Import Json.

Lemma dict_get_set (d : list (str * json)) (key : str) (value : json) :
  dict_get (dict_set d key value) key = Some value.
Proof.
  induction d as [|[k v] d IH]; cbn.
  - by rewrite decide_True.
  - destruct (decide (k = key)) as [->|Hne]; cbn.
    + by rewrite decide_True.
    + by rewrite decide_False.
Qed.

Lemma dict_get_set_ne (d : list (str * json)) (key key' : str) (value : json) :
  key ≠ key' → dict_get (dict_set d key value) key' = dict_get d key'.
Proof.
  intros Hne. induction d as [|[k v] d IH]; cbn.
  - by rewrite decide_False.
  - destruct (decide (k = key)) as [->|Hk]; cbn.
    + by rewrite !decide_False.
    + by rewrite IH.
Qed.

Lemma username_given_iff (s : str) :
  Conf.username_given (JStr s) = true ↔ ∃ c, c ∈ s ∧ isspace c = false.
Proof.
  unfold Conf.username_given.
  assert (Hnil : strip s = [] ↔ ¬ ∃ c, c ∈ s ∧ isspace c = false).
  { rewrite strip_nil, Forall_forall. split.
    - intros Hall (c & Hc & Hs). rewrite (Hall c Hc) in Hs. done.
    - intros Hno c Hc. destruct (isspace c) eqn:Hs; [done|]. destruct Hno. eauto. }
  destruct (strip s) as [|c r].
  - split; [done|]. intros H. by destruct (proj1 Hnil eq_refl).
  - split; [|done]. intros _.
    destruct (decide (Exists (λ c, isspace c = false) s)) as [Hex|Hex].
    + by apply Exists_exists in Hex.
    + assert (c :: r = []); [|done]. apply Hnil. intros (x & Hx & Hsx).
      destruct Hex. apply Exists_exists. eauto.
Qed.

(** Validation of an object never raises. *)
Lemma validate_dict (d : list (str * json)) :
  Conf._validate_journalist (JDict d)
  = Ok (match dict_get d (lit "username"), dict_get d (lit "reliability_score"),
              dict_get d (lit "tier") with
        | Some name, Some score, Some _ =>
            Conf.score_in_range score && Conf.username_given name
        | _, _, _ => false
        end).
Proof.
  unfold Conf._validate_journalist, Conf.required_fields, Conf.has_fields, and_then,
    contains, getitem.
  destruct (dict_get d (lit "username")) as [name|] eqn:Hname; cbn; [|done].
  destruct (dict_get d (lit "reliability_score")) as [score|] eqn:Hscore; cbn; [|done].
  destruct (dict_get d (lit "tier")) as [tier|] eqn:Htier; cbn; [|done].
  by destruct (Conf.score_in_range score), (Conf.username_given name).
Qed.

Lemma validate_true_iff (journalist : json) :
  Conf._validate_journalist journalist = Ok true ↔ Conf.well_formed journalist.
Proof.
  split.
  - destruct journalist as [| | | | s | l | d].
    1-4: done.
    + unfold Conf._validate_journalist, and_then.
      destruct (Conf.has_fields _ _) as [[]|]; done.
    + unfold Conf._validate_journalist, and_then.
      destruct (Conf.has_fields _ _) as [[]|]; done.
    + rewrite validate_dict.
      destruct (dict_get d (lit "username")) as [name|] eqn:Hname; [|done].
      destruct (dict_get d (lit "reliability_score")) as [score|] eqn:Hscore; [|done].
      destruct (dict_get d (lit "tier")) as [tier|] eqn:Htier; [|done].
      intros [= [Hs Hu]%andb_true_iff].
      destruct name as [| | | | name | |]; try done.
      exists d, score, name. split_and!; try done. by apply username_given_iff.
  - intros (d & score & name & -> & [tier Htier] & Hscore & Hrange & Hname & Hc).
    rewrite validate_dict, Hname, Hscore, Htier, Hrange.
    by rewrite (proj2 (username_given_iff name) Hc).
Qed.

Lemma valid_journalists_app (l1 l2 : list json) :
  Conf.valid_journalists (l1 ++ l2)
  = and_then (Conf.valid_journalists l1) (λ a,
      and_then (Conf.valid_journalists l2) (λ b, Ok (a ++ b))).
Proof.
  induction l1 as [|j l1 IH]; cbn.
  - by destruct (Conf.valid_journalists l2).
  - destruct (Conf._validate_journalist j) as [valid|]; cbn; [|done].
    rewrite IH. destruct (Conf.valid_journalists l1) as [a|]; cbn; [|done].
    destruct (Conf.valid_journalists l2) as [b|]; cbn; [|done].
    by destruct valid.
Qed.

Lemma valid_journalists_Ok (entries valid : list json) :
  Conf.valid_journalists entries = Ok valid →
  valid `sublist_of` entries ∧ Forall Conf.well_formed valid.
Proof.
  revert valid. induction entries as [|j entries IH]; intros valid; cbn.
  - intros [= <-]. done.
  - destruct (Conf._validate_journalist j) as [ok|] eqn:Hj; cbn; [|done].
    destruct (Conf.valid_journalists entries) as [rest|]; cbn; [|done].
    destruct (IH rest eq_refl) as [Hsub Hall]. intros [= <-]. destruct ok.
    + split; [by constructor|]. constructor; [by apply validate_true_iff|done].
    + split; [by constructor|done].
Qed.

Lemma valid_journalists_well_formed (entries : list json) :
  Forall Conf.well_formed entries → Conf.valid_journalists entries = Ok entries.
Proof.
  induction 1 as [|j entries Hj _ IH]; [done|]. cbn.
  apply validate_true_iff in Hj. by rewrite Hj, IH.
Qed.

Lemma valid_journalists_Raise (entries : list json) (j : json) (e : error) :
  j ∈ entries → Conf._validate_journalist j = Raise e →
  ∃ e', Conf.valid_journalists entries = Raise e'.
Proof.
  intros Hin Hj. apply list_elem_of_split in Hin as (l1 & l2 & ->).
  rewrite valid_journalists_app. destruct (Conf.valid_journalists l1); cbn; [|eauto].
  rewrite Hj. cbn. eauto.
Qed.

Lemma load_journalists_Forall (file : json_file) :
  Forall Conf.well_formed (Conf.load_journalists file).
Proof.
  destruct file as [| | |[| | | | | |data]]; try by constructor.
  unfold Conf.load_journalists.
  destruct (and_then _ _) as [valid|] eqn:Hvalid; [|by constructor].
  destruct (iterate _) as [entries|]; [|done].
  by apply valid_journalists_Ok in Hvalid as [_ ?].
Qed.

Lemma well_formed_decide (journalist : json) :
  Conf._validate_journalist journalist = Ok true → Conf.well_formed journalist.
Proof. apply validate_true_iff. Qed.

Lemma load_journalists_saved (entries : list json) :
  Conf.load_journalists (Parsed (JDict [(lit "journalists", JList entries)]))
  = match Conf.valid_journalists entries with Ok valid => valid | Raise _ => [] end.
Proof. reflexivity. Qed.

End RosterFacts.

(** X12. What [load_journalists] keeps: every journalist of the loaded roster
    is an object with a tier, a score from 0 to 100 and a user name that is
    not blank; the roster is a sub-list, in order, of the file's entries; and
    a file whose entries are all of that form is loaded whole. *)
Theorem load_journalists_well_formed (file : Json.json_file) :
  Forall Conf.well_formed (Conf.load_journalists file)
  ∧ ∀ data entries,
      file = Json.Parsed (Json.JDict data) →
      Json.dict_get data (lit "journalists") = Some (Json.JList entries) →
      Conf.load_journalists file `sublist_of` entries
      ∧ (Forall Conf.well_formed entries → Conf.load_journalists file = entries).
Proof.
  split; [apply load_journalists_Forall|].
  intros data entries -> Hentries. unfold Conf.load_journalists. rewrite Hentries. cbn.
    split.
    + destruct (Conf.valid_journalists entries) as [valid|] eqn:Hvalid;
        [|apply sublist_nil_l].
      by apply valid_journalists_Ok in Hvalid as [? _].
    + intros Hall. by rewrite valid_journalists_well_formed.
Qed.

Lemma load_journalists_well_formed_witness :
  let entries := [Cases.reporter; Cases.entry "  " (Json.JNum (PyInt 50)); Cases.insider] in
  let file := Cases.roster_file entries in
  Conf.load_journalists file = [Cases.reporter; Cases.insider]
  ∧ Forall Conf.well_formed (Conf.load_journalists file)
  ∧ Conf.load_journalists file `sublist_of` entries.
Proof.
  intros entries file. split; [by vm_compute|].
  destruct (load_journalists_well_formed file) as [Hwf Hsub].
  split; [exact Hwf|].
  exact (proj1 (Hsub _ entries eq_refl eq_refl)).
Defined.

(** X13. One entry that is not a container empties the roster: if any entry
    of the file is null, a boolean or a number, validation raises and no
    journalist is loaded, however many valid entries the file has. *)
Theorem load_journalists_all_or_nothing (data : list (str * Json.json))
    (entries : list Json.json) (j : Json.json) :
  Json.dict_get data (lit "journalists") = Some (Json.JList entries) →
  j ∈ entries →
  j = Json.JNull ∨ j = Json.JNonFinite ∨ (∃ b, j = Json.JBool b) ∨ (∃ x, j = Json.JNum x) →
  Conf.load_journalists (Json.Parsed (Json.JDict data)) = [].
Proof.
  intros Hentries Hin Hj. unfold Conf.load_journalists. rewrite Hentries. cbn.
  destruct (valid_journalists_Raise entries j Json.TypeError Hin) as [e ->]; [|done].
  by destruct Hj as [->|[->|[[b ->]|[x ->]]]].
Qed.

Lemma load_journalists_all_or_nothing_witness :
  Conf.load_journalists (Cases.roster_file [Cases.reporter; Json.JNull; Cases.insider]) = [].
Proof.
  apply (load_journalists_all_or_nothing _ [Cases.reporter; Json.JNull; Cases.insider]
           Json.JNull).
  - reflexivity.
  - apply list_elem_of_further, list_elem_of_here.
  - left. reflexivity.
Defined.

Section NameFacts.
Import Json.
Variable lower : str → str.

Lemma field_names_differ : lit "reliability_score" ≠ lit "username".
Proof. intros H. vm_compute in H. discriminate H. Qed.

Lemma named_Ok (journalist : json) (username : str) (b : bool) :
  Conf.named lower journalist username = Ok b →
  ∃ d name, journalist = JDict d ∧ dict_get d (lit "username") = Some (JStr name)
            ∧ b = bool_decide (lower name = lower username).
Proof.
  unfold Conf.named, and_then, getitem.
  destruct journalist as [| | | | | |d]; try done.
  destruct (dict_get d (lit "username")) as [[| | | |name| |]|] eqn:Hname; try done.
  intros [= <-]. by exists d, name.
Qed.

Lemma named_set_score (journalist : json) (username : str) (new_score : json) (b : bool) :
  Conf.named lower journalist username = Ok b →
  Conf.named lower (Conf.set_score journalist new_score) username = Ok b.
Proof.
  intros (d & name & -> & Hname & ->)%named_Ok.
  unfold Conf.named, and_then, getitem, Conf.set_score.
  by rewrite dict_get_set_ne, Hname by apply field_names_differ.
Qed.

Lemma update_first_Some (username : str) (new_score : json) (js js' : list json) :
  Conf.update_first lower username new_score js = Ok (Some js') ↔
  ∃ l1 j l2, js = l1 ++ j :: l2
             ∧ Forall (λ x, Conf.named lower x username = Ok false) l1
             ∧ Conf.named lower j username = Ok true
             ∧ js' = l1 ++ Conf.set_score j new_score :: l2.
Proof.
  revert js'. induction js as [|x js IH]; intros js'; cbn.
  - split; [done|]. by intros ([|??] & ? & ? & ? & _).
  - destruct (Conf.named lower x username) as [[]|] eqn:Hx; cbn.
    + split.
      * intros [= <-]. by exists [], x, js.
      * intros (l1 & j & l2 & Hjs & Hl1 & Hj & ->).
        destruct l1 as [|y l1]; cbn in Hjs; injection Hjs as -> ->; [done|].
        apply Forall_cons in Hl1 as [Hy _]. congruence.
    + destruct (Conf.update_first lower username new_score js) as [[js0|]|] eqn:Hrec; cbn.
      * split.
        -- intros [= <-]. destruct (proj1 (IH js0) eq_refl) as (l1 & j & l2 & -> & Hl1 & Hj & ->).
           exists (x :: l1), j, l2. split_and!; try done. by constructor.
        -- intros (l1 & j & l2 & Hjs & Hl1 & Hj & ->).
           destruct l1 as [|y l1]; cbn in Hjs; injection Hjs as -> ->; [congruence|].
           apply Forall_cons in Hl1 as [_ Hl1].
           assert (Some js0 = Some (l1 ++ Conf.set_score j new_score :: l2)) as [= ->]; [|done].
           assert (Hsome : @Ok (option (list json)) (Some js0)
                           = Ok (Some (l1 ++ Conf.set_score j new_score :: l2))).
           { apply IH. by exists l1, j, l2. }
           by injection Hsome as ->.
      * split; [done|]. intros (l1 & j & l2 & Hjs & Hl1 & Hj & ->).
        destruct l1 as [|y l1]; cbn in Hjs; injection Hjs as -> ->; [congruence|].
        apply Forall_cons in Hl1 as [_ Hl1].
        assert (Hsome : @Ok (option (list json)) None
                        = Ok (Some (l1 ++ Conf.set_score j new_score :: l2))); [|done].
        apply IH. by exists l1, j, l2.
      * split; [done|]. intros (l1 & j & l2 & Hjs & Hl1 & Hj & ->).
        destruct l1 as [|y l1]; cbn in Hjs; injection Hjs as -> ->; [congruence|].
        apply Forall_cons in Hl1 as [_ Hl1].
        assert (Hsome : @Raise (option (list json)) e
                        = Ok (Some (l1 ++ Conf.set_score j new_score :: l2))); [|done].
        apply IH. by exists l1, j, l2.
    + split; [done|]. intros (l1 & j & l2 & Hjs & Hl1 & Hj & ->).
      destruct l1 as [|y l1]; cbn in Hjs; injection Hjs as -> ->; [congruence|].
      apply Forall_cons in Hl1 as [Hy _]. congruence.
Qed.

Lemma remove_first_split (username : str) (l1 l2 : list json) (j : json) :
  Forall (λ x, Conf.named lower x username = Ok false) l1 →
  Conf.named lower j username = Ok true →
  Conf.remove_first lower username (l1 ++ j :: l2) = Ok (Some (l1 ++ l2)).
Proof.
  intros Hl1 Hj. induction Hl1 as [|x l1 Hx _ IH]; cbn.
  - by rewrite Hj.
  - by rewrite Hx, IH.
Qed.

Lemma get_journalist_split (username : str) (l1 l2 : list json) (j : json) :
  Forall (λ x, Conf.named lower x username = Ok false) l1 →
  Conf.named lower j username = Ok true →
  Conf.get_journalist_by_username lower username (l1 ++ j :: l2) = Ok (Some j).
Proof.
  intros Hl1 Hj. induction Hl1 as [|x l1 Hx _ IH]; cbn.
  - by rewrite Hj.
  - by rewrite Hx, IH.
Qed.

Lemma named_lower_eq (journalist : json) (username username' : str) :
  lower username' = lower username →
  Conf.named lower journalist username' = Conf.named lower journalist username.
Proof. intros Heq. unfold Conf.named. by rewrite Heq. Qed.

Lemma validate_set_score (journalist new_score : json) :
  Conf.well_formed journalist →
  Conf._validate_journalist (Conf.set_score journalist new_score)
  = Ok (Conf.score_in_range new_score).
Proof.
  intros (d & score & name & -> & [tier Htier] & Hscore & Hrange & Hname & Hc).
  cbn [Conf.set_score]. rewrite validate_dict, dict_get_set.
  rewrite !dict_get_set_ne, Hname, Htier.
  - rewrite (proj2 (username_given_iff name) Hc). by rewrite andb_true_r.
  - intros H. vm_compute in H. discriminate H.
  - apply field_names_differ.
Qed.

End NameFacts.

(** X14. [add_journalist] accepts exactly a score from 0 to 100 with a user
    name that is not blank. A rejected journalist changes nothing; an
    accepted one is appended to the roster, and when the roster held only
    well-formed journalists the file written gives the same roster back on
    the next load. *)
Theorem add_journalist_persists (username : str) (score : Json.json) (tier : str)
    (self : Conf.Config) :
  let entry :=
    Json.JDict [(lit "username", Json.JStr username); (lit "reliability_score", score);
                (lit "tier", Json.JStr tier); (lit "enabled", Json.JBool true)] in
  let accepted := Conf.score_in_range score && Conf.username_given (Json.JStr username) in
  ∃ self',
    Conf.add_journalist username score tier true self = Json.Ok (accepted, self')
    ∧ (accepted = false → self' = self)
    ∧ (accepted = true →
         Conf.journalists self' = Conf.journalists self ++ [entry]
         ∧ (Forall Conf.well_formed (Conf.journalists self) →
            Conf.load_journalists (Conf.journalists_json self') = Conf.journalists self')).
Proof.
  intros entry accepted. unfold Conf.add_journalist. fold entry.
  assert (Hvalid : Conf._validate_journalist entry = Json.Ok accepted).
  { subst entry. by rewrite validate_dict. }
  rewrite Hvalid. cbn [Json.and_then]. destruct accepted eqn:Hacc.
  - eexists. split; [reflexivity|]. split; [done|]. intros _. split; [done|].
    intros Hall. cbn [Conf.journalists Conf.save_journalists Conf.journalists_json].
    rewrite load_journalists_saved, valid_journalists_well_formed; [done|].
    apply Forall_app. split; [done|]. apply Forall_singleton.
    by apply validate_true_iff.
  - eexists. split; [reflexivity|]. split; [done|]. done.
Qed.

Lemma add_journalist_persists_witness :
  ∃ self',
    Conf.add_journalist (lit "transferDesk") (Json.JNum (PyInt 72)) (lit "tier2") true
      (Cases.roster [Cases.reporter]) = Json.Ok (true, self')
    ∧ length (Conf.load_journalists (Conf.journalists_json self')) = 2%nat.
Proof.
  destruct (add_journalist_persists (lit "transferDesk") (Json.JNum (PyInt 72)) (lit "tier2")
              (Cases.roster [Cases.reporter])) as (self' & Hadd & _ & Hacc).
  exists self'. split; [exact Hadd|].
  destruct (Hacc eq_refl) as [Hjs Hload].
  rewrite Hload, Hjs; [reflexivity|].
  repeat constructor. by apply well_formed_decide.
Defined.



(** X16. Adding a journalist whose name nobody in the roster has, and removing
    that name again, gives the roster back, in memory and in the file. *)
Theorem add_then_remove (lower : str → str) (username : str) (score : Json.json)
    (tier : str) (self self1 : Conf.Config) :
  Forall (λ j, Conf.named lower j username = Json.Ok false) (Conf.journalists self) →
  Conf.add_journalist username score tier true self = Json.Ok (true, self1) →
  ∃ self2,
    Conf.remove_journalist lower username true self1 = Json.Ok (true, self2)
    ∧ Conf.journalists self2 = Conf.journalists self
    ∧ Conf.journalists_json self2
      = Json.Parsed (Json.JDict [(lit "journalists", Json.JList (Conf.journalists self))]).
Proof.
  intros Hnew. unfold Conf.add_journalist.
  destruct (Conf._validate_journalist _) as [[]|]; cbn [Json.and_then]; [|done..].
  intros [= <-]. unfold Conf.remove_journalist.
  cbn [Conf.journalists Conf.save_journalists Conf.journalists_json].
  rewrite (remove_first_split lower username _ [] _ Hnew).
  - cbn [Json.and_then]. eexists. split; [reflexivity|].
    cbn [Conf.journalists Conf.save_journalists Conf.journalists_json].
    by rewrite app_nil_r.
  - unfold Conf.named, Json.and_then, Json.getitem. cbn [Json.dict_get].
    rewrite decide_True by done. by rewrite bool_decide_eq_true_2.
Qed.

Lemma add_then_remove_witness :
  let self := Cases.roster [Cases.reporter] in
  ∃ self1 self2,
    Conf.add_journalist (lit "transferDesk") (Json.JNum (PyInt 72)) (lit "tier2") true self
    = Json.Ok (true, self1)
    ∧ Conf.remove_journalist Text.ascii_lower (lit "transferDesk") true self1
      = Json.Ok (true, self2)
    ∧ Conf.journalists self2 = [Cases.reporter].
Proof.
  intros self.
  assert (Hadd : ∃ self1, Conf.add_journalist (lit "transferDesk") (Json.JNum (PyInt 72))
                   (lit "tier2") true self = Json.Ok (true, self1))
    by (eexists; reflexivity).
  destruct Hadd as [self1 Hadd].
  destruct (add_then_remove Text.ascii_lower (lit "transferDesk") (Json.JNum (PyInt 72))
              (lit "tier2") self self1) as (self2 & Hrm & Hjs & _).
  - repeat constructor.
  - exact Hadd.
  - by exists self1, self2.
Defined.

(** X17. After [update_journalist_score] has returned [True],
    [get_journalist_by_username] finds, under any spelling of the name that
    lower-cases alike, a journalist with the new score; the roster differs
    from the old one in that one score. *)
Theorem updated_score_is_found (lower : str → str) (username username' : str)
    (new_score : Json.json) (writable : bool) (self self' : Conf.Config) :
  lower username' = lower username →
  Conf.update_journalist_score lower username new_score writable self
  = Json.Ok (true, self') →
  ∃ i old,
    Conf.journalists self !! i = Some old
    ∧ Conf.journalists self' = <[i := Conf.set_score old new_score]> (Conf.journalists self)
    ∧ Conf.get_journalist_by_username lower username' (Conf.journalists self')
      = Json.Ok (Some (Conf.set_score old new_score))
    ∧ Json.getitem (Conf.set_score old new_score) (lit "reliability_score")
      = Json.Ok new_score.
Proof.
  intros Hsame. unfold Conf.update_journalist_score.
  destruct (Conf.update_first lower username new_score (Conf.journalists self))
    as [[js'|]|] eqn:Hupdate; cbn [Json.and_then]; [|done..].
  apply update_first_Some in Hupdate as (l1 & j & l2 & Hjs & Hl1 & Hj & ->).
  intros [= <-]. exists (length l1), j. rewrite Hjs.
  assert (Hjs' : Conf.journalists (Conf.save_journalists writable
            {| Conf.journalists := l1 ++ Conf.set_score j new_score :: l2;
               Conf.journalists_json := Conf.journalists_json self |})
          = l1 ++ Conf.set_score j new_score :: l2) by by destruct writable.
  rewrite Hjs'. split_and!.
  - by rewrite list_lookup_middle.
  - by rewrite insert_app_r_alt, Nat.sub_diag by done.
  - apply get_journalist_split.
    + eapply Forall_impl; [exact Hl1|]. intros x Hx. cbn.
      by rewrite (named_lower_eq lower x username username').
    + rewrite (named_lower_eq lower _ username username') by done.
      by apply named_set_score.
  - apply named_Ok in Hj as (d & name & -> & _).
    unfold Json.getitem. cbn [Conf.set_score]. by rewrite dict_get_set.
Qed.

Lemma updated_score_is_found_witness :
  let self := Cases.roster [Cases.insider; Cases.reporter] in
  ∃ self' found,
    Conf.update_journalist_score Text.ascii_lower (lit "examplejourno")
      (Json.JNum (PyInt 80)) false self = Json.Ok (true, self')
    ∧ Conf.get_journalist_by_username Text.ascii_lower (lit "EXAMPLEJOURNO")
        (Conf.journalists self') = Json.Ok (Some found)
    ∧ Json.getitem found (lit "reliability_score") = Json.Ok (Json.JNum (PyInt 80)).
Proof.
  intros self.
  assert (Hup : ∃ self', Conf.update_journalist_score Text.ascii_lower (lit "examplejourno")
                   (Json.JNum (PyInt 80)) false self = Json.Ok (true, self'))
    by (eexists; reflexivity).
  destruct Hup as [self' Hup].
  destruct (updated_score_is_found Text.ascii_lower (lit "examplejourno") (lit "EXAMPLEJOURNO")
              (Json.JNum (PyInt 80)) false self self') as (i & old & _ & _ & Hget & Hscore).
  - reflexivity.
  - exact Hup.
  - by exists self', (Conf.set_score old (Json.JNum (PyInt 80))).
Defined.

(** ** The environment *)

Section EnvFacts.
Import Text Json Env.

Lemma lstrip_app (x y : str) :
  lstrip (x ++ y) = match lstrip x with [] => lstrip y | l => l ++ y end.
Proof.
  induction x as [|c x IH]; cbn; [by destruct (lstrip y)|].
  by destruct (isspace c).
Qed.

Lemma rstrip_app_space (s ws : str) :
  Forall (λ c, isspace c = true) ws → rstrip (s ++ ws) = rstrip s.
Proof.
  intros Hws. unfold rstrip. rewrite reverse_app, lstrip_app.
  by rewrite (proj2 (lstrip_nil (reverse ws))) by by apply Forall_reverse.
Qed.

(** A line that begins and ends with something else than white space keeps
    its head when stripped. *)
Lemma strip_app_head (a b : str) (x y : N) :
  head a = Some x → isspace x = false →
  last a = Some y → isspace y = false →
  strip (a ++ b) = a ++ rstrip b.
Proof.
  intros Hx Hsx Hy Hsy. unfold strip, rstrip.
  rewrite (lstrip_fixed (a ++ b)).
  2: { intros c. destruct a; [done|]. cbn in *. congruence. }
  rewrite reverse_app, lstrip_app.
  assert (Ha : lstrip (reverse a) = reverse a).
  { apply lstrip_fixed. intros c. rewrite head_reverse. congruence. }
  destruct (lstrip (reverse b)) as [|c l].
  - by rewrite Ha, reverse_involutive, app_nil_r.
  - by rewrite reverse_app, reverse_involutive.
Qed.

Lemma rstrip_fixed (s : str) :
  (∀ c, last s = Some c → isspace c = false) → rstrip s = s.
Proof.
  intros H. unfold rstrip. rewrite lstrip_fixed, reverse_involutive; [done|].
  intros c. rewrite head_reverse. apply H.
Qed.

Lemma rstrip_strip (s : str) : rstrip (strip s) = strip s.
Proof. apply rstrip_fixed. intros c Hc. apply (strip_ends s). by right. Qed.

Lemma split_once_app (key rest : str) :
  61%N ∉ key → split_once 61 (key ++ 61%N :: rest) = (key, Some rest).
Proof.
  induction key as [|c key IH]; intros Hkey; [done|].
  apply not_elem_of_cons in Hkey as [Hc Hkey]. cbn.
  rewrite (proj2 (N.eqb_neq c 61)) by done. by rewrite IH.
Qed.

Lemma lines_of_line (a rest : str) :
  10%N ∉ a → lines_of (a ++ 10%N :: rest) = (a ++ [10%N]) :: lines_of rest.
Proof.
  induction a as [|c a IH]; intros Ha; [done|].
  apply not_elem_of_cons in Ha as [Hc Ha]. cbn.
  rewrite (proj2 (N.eqb_neq c 10)) by done. by rewrite IH.
Qed.

Lemma one_line_spec (s : str) :
  one_line s ↔ (10%N ∉ s) ∧ (13%N ∉ s) ∧ (0%N ∉ s).
Proof.
  unfold one_line. rewrite Forall_forall. split.
  - intros H. split_and!; intros Hin; by destruct (H _ Hin) as (? & ? & ?).
  - intros (H10 & H13 & H0) c Hc. split_and!; by intros ->.
Qed.

Lemma one_line_decide (s : str) :
  bool_decide (Forall (λ c, c ≠ 10 ∧ c ≠ 13 ∧ c ≠ 0)%N s) = true → one_line s.
Proof. apply bool_decide_eq_true_1. Qed.

(** The line [key=value] of a file sets [key] to [value] without the white
    space at its end. *)
Lemma load_line_assignment (key value : str) (env : environ) (x : N) :
  head key = Some x → isspace x = false → x ≠ 35%N →
  61%N ∉ key → 0%N ∉ key → 0%N ∉ value →
  load_line (key ++ 61%N :: value) env = Ok (<[key := rstrip value]> env).
Proof.
  intros Hx Hsx Hhash Hkey Hnul Hval. unfold load_line.
  change (key ++ 61%N :: value) with (key ++ [61%N] ++ value).
  rewrite app_assoc.
  assert (Hlast : last (key ++ [61%N]) = Some 61%N) by by rewrite last_snoc.
  rewrite (strip_app_head (key ++ [61%N]) value x 61%N); [|by destruct key|done..].
  assert (Hne : ∃ r, (key ++ [61%N]) ++ rstrip value = x :: r).
  { destruct key as [|c key]; [done|]. injection Hx as ->. eauto. }
  destruct Hne as [r Hr]. rewrite Hr at 1.
  assert (Hcomment : startswith (lit "#") ((key ++ [61%N]) ++ rstrip value) = false).
  { rewrite Hr. unfold startswith. apply bool_decide_eq_false_2.
    intros [k Hk]. change (lit "#") with [35%N] in Hk. cbn in Hk. congruence. }
  rewrite Hcomment. rewrite bool_decide_eq_true_2.
  2: { rewrite !elem_of_app, list_elem_of_singleton. auto. }
  cbn [negb andb]. rewrite <- app_assoc. cbn [app]. rewrite split_once_app by done.
  unfold setenv.
  rewrite (bool_decide_eq_false_2 (key = [])) by by destruct key.
  rewrite (bool_decide_eq_false_2 (61%N ∈ key)) by done.
  rewrite (bool_decide_eq_false_2 (0%N ∈ key)) by done.
  rewrite (bool_decide_eq_false_2 (0%N ∈ rstrip value)); [done|].
  intros Hin. apply Hval. unfold rstrip in Hin. rewrite elem_of_reverse in Hin.
  destruct (lstrip_split (reverse value)) as (ws & Hrev & _).
  apply elem_of_reverse. rewrite Hrev, elem_of_app. by right.
Qed.

Lemma load_line_skipped (line : str) (env : environ) :
  strip line = [] ∨ startswith (lit "#") (strip line) = true ∨ 61%N ∉ strip line →
  load_line line env = Ok env.
Proof.
  unfold load_line. cbv zeta. intros [->|[->|Hno]].
  - reflexivity.
  - cbn [negb]. by rewrite andb_false_r.
  - by rewrite (bool_decide_eq_false_2 _ Hno), andb_false_r.
Qed.

Lemma load_lines_app (l1 l2 : list str) (env : environ) :
  load_lines (l1 ++ l2) env = and_then (load_lines l1 env) (load_lines l2).
Proof.
  revert env. induction l1 as [|line l1 IH]; intros env; [done|]. cbn.
  destruct (load_line line env); cbn; [apply IH|done].
Qed.

End EnvFacts.

Section DotenvFacts.
Import Text Json Env.

Ltac absent := apply (bool_decide_eq_false_1 (_ ∈ _)); by vm_compute.

(** One line written by [setup_posting.py], read back. *)
Lemma load_line_written (key : string) (value : str) (env : environ) (x : N) :
  head (lit key) = Some x → isspace x = false → x ≠ 35%N →
  61%N ∉ lit key → 0%N ∉ lit key → one_line value →
  load_line (lit key ++ lit "=" ++ value ++ NL) env
  = Ok (<[lit key := rstrip value]> env).
Proof.
  intros Hx Hsx Hhash Hkey Hnul (_ & _ & Hval)%one_line_spec.
  change (lit "=" ++ value ++ NL) with (61%N :: (value ++ NL)).
  rewrite (load_line_assignment (lit key) (value ++ NL) env x); try done.
  - rewrite rstrip_app_space; [done|]. by repeat constructor.
  - unfold NL. rewrite elem_of_app, list_elem_of_singleton. by intros [?|?].
Qed.

Lemma universal_newlines_app (a b : str) :
  13%N ∉ a → universal_newlines (a ++ b) = a ++ universal_newlines b.
Proof.
  induction a as [|c a IH]; intros Ha; [done|].
  apply not_elem_of_cons in Ha as [Hc Ha]. cbn.
  destruct c as [|p]; [by rewrite IH|].
  repeat (destruct p as [p|p|]; try by rewrite IH).
Qed.

(** The lines of a text made of [LF]-ended lines. *)
Lemma lines_of_written (a rest : str) :
  (10%N ∉ a) → (13%N ∉ a) →
  lines_of (universal_newlines (a ++ NL ++ rest))
  = (a ++ NL) :: lines_of (universal_newlines rest).
Proof.
  intros H10 H13. rewrite universal_newlines_app by done.
  change (universal_newlines (NL ++ rest)) with (10%N :: universal_newlines rest).
  by rewrite lines_of_line.
Qed.

Lemma one_line_lit_app (key : string) (value : str) :
  one_line (lit key) → one_line value →
  (10%N ∉ lit key ++ lit "=" ++ value) ∧ (13%N ∉ lit key ++ lit "=" ++ value).
Proof.
  intros (Hk10 & Hk13 & _)%one_line_spec (Hv10 & Hv13 & _)%one_line_spec.
  rewrite !elem_of_app. change (lit "=") with [61%N].
  rewrite !list_elem_of_singleton. split; intros [?|[?|?]]; done.
Qed.

End DotenvFacts.

Section SetupFacts.
Import Text Json Env.

Ltac absent := apply (bool_decide_eq_false_1 (_ ∈ _)); by vm_compute.
Ltac written :=
  rewrite (load_line_written _ _ _ 84%N);
    [|by vm_compute|by vm_compute|done|absent|absent|done].

Lemma one_line_literal (s : string) :
  bool_decide (Forall (λ c, c ≠ 10 ∧ c ≠ 13 ∧ c ≠ 0)%N (lit s)) = true → one_line (lit s).
Proof. apply bool_decide_eq_true_1. Qed.

(** What [_load_env_file] makes of the file [setup_real_posting] writes. *)
Lemma load_real_posting (username password email : str) (env : environ) :
  one_line username → one_line password → one_line email →
  _load_env_file (Some (real_posting_content username password email)) env
  = Ok ((if email is [] then id else insert (lit "TWITTER_POST_EMAIL") (rstrip email))
          (<[lit "TWITTER_POST_PASSWORD" := rstrip password]>
             (<[lit "TWITTER_POST_USERNAME" := rstrip username]>
                (<[lit "TWITTER_POSTING_MODE" := lit "real"]> env)))).
Proof.
  intros Hu Hp He. unfold _load_env_file, real_posting_content.
  assert (Hhead : ∀ rest,
    lines_of (universal_newlines
      (lit "# Twitter Posting Credentials" ++ NL ++ lit "TWITTER_POSTING_MODE=real" ++ NL
         ++ lit "TWITTER_POST_USERNAME=" ++ username ++ NL
         ++ lit "TWITTER_POST_PASSWORD=" ++ password ++ NL ++ rest))
    = [lit "# Twitter Posting Credentials" ++ NL;
       lit "TWITTER_POSTING_MODE" ++ lit "=" ++ lit "real" ++ NL;
       lit "TWITTER_POST_USERNAME" ++ lit "=" ++ username ++ NL;
       lit "TWITTER_POST_PASSWORD" ++ lit "=" ++ password ++ NL]
      ++ lines_of (universal_newlines rest)).
  { intros rest.
    rewrite lines_of_written by absent.
    rewrite lines_of_written by absent.
    change (lit "TWITTER_POST_USERNAME=") with (lit "TWITTER_POST_USERNAME" ++ lit "=").
    change (lit "TWITTER_POST_PASSWORD=") with (lit "TWITTER_POST_PASSWORD" ++ lit "=").
    rewrite <- !app_assoc.
    rewrite (app_assoc (lit "TWITTER_POST_USERNAME")), (app_assoc _ username).
    rewrite lines_of_written.
    2, 3: rewrite <- app_assoc; apply one_line_lit_app; [by apply one_line_literal|done].
    rewrite (app_assoc (lit "TWITTER_POST_PASSWORD")), (app_assoc _ password).
    rewrite lines_of_written.
    2, 3: rewrite <- app_assoc; apply one_line_lit_app; [by apply one_line_literal|done].
    by rewrite <- !app_assoc. }
  assert (Hbody : ∀ more,
    load_lines ([lit "# Twitter Posting Credentials" ++ NL;
                 lit "TWITTER_POSTING_MODE" ++ lit "=" ++ lit "real" ++ NL;
                 lit "TWITTER_POST_USERNAME" ++ lit "=" ++ username ++ NL;
                 lit "TWITTER_POST_PASSWORD" ++ lit "=" ++ password ++ NL] ++ more) env
    = load_lines more
        (<[lit "TWITTER_POST_PASSWORD" := rstrip password]>
           (<[lit "TWITTER_POST_USERNAME" := rstrip username]>
              (<[lit "TWITTER_POSTING_MODE" := lit "real"]> env)))).
  { intros more. cbn [load_lines app].
    rewrite load_line_skipped by (right; left; by vm_compute). cbn [and_then].
    rewrite (load_line_written _ (lit "real") _ 84%N);
      [|by vm_compute|by vm_compute|done|absent|absent|by apply one_line_literal].
    cbn [and_then]. written. cbn [and_then]. written. done. }
  destruct email as [|c email].
  - specialize (Hhead []). rewrite app_nil_r in Hhead.
    rewrite Hhead, Hbody. done.
  - rewrite <- !app_assoc.
    change (lit "TWITTER_POST_EMAIL=") with (lit "TWITTER_POST_EMAIL" ++ lit "=").
    rewrite <- !app_assoc. rewrite Hhead, Hbody.
    rewrite (app_assoc (lit "TWITTER_POST_EMAIL")), (app_assoc _ (c :: email)).
    assert (Hlast : lines_of (universal_newlines
                      (((lit "TWITTER_POST_EMAIL" ++ lit "=") ++ c :: email) ++ NL))
                    = [lit "TWITTER_POST_EMAIL" ++ lit "=" ++ (c :: email) ++ NL]).
    { rewrite <- (app_nil_r NL), lines_of_written.
      - by rewrite <- !app_assoc.
      - rewrite <- app_assoc. by apply one_line_lit_app; [apply one_line_literal|].
      - rewrite <- app_assoc. by apply one_line_lit_app; [apply one_line_literal|]. }
    rewrite Hlast. cbn [load_lines]. written. done.
Qed.

End SetupFacts.

Section CredentialFacts.
Import Text Json Env.

(** The variables after the lines of [setup_real_posting]. *)
Lemma credentials_lookup (mode username password email : str) (env : environ) :
  let env' :=
    (if email is [] then id else insert (lit "TWITTER_POST_EMAIL") email)
      (<[lit "TWITTER_POST_PASSWORD" := password]>
         (<[lit "TWITTER_POST_USERNAME" := username]>
            (<[lit "TWITTER_POSTING_MODE" := mode]> env))) in
  getenv env' "TWITTER_POSTING_MODE" = Some mode
  ∧ getenv env' "TWITTER_POST_USERNAME" = Some username
  ∧ getenv env' "TWITTER_POST_PASSWORD" = Some password
  ∧ getenv env' "TWITTER_POST_EMAIL"
    = (if email is [] then getenv env "TWITTER_POST_EMAIL" else Some email).
Proof.
  cbv zeta. unfold getenv.
  assert (Hkeys : lit "TWITTER_POST_EMAIL" ≠ lit "TWITTER_POSTING_MODE"
                  ∧ lit "TWITTER_POST_EMAIL" ≠ lit "TWITTER_POST_USERNAME"
                  ∧ lit "TWITTER_POST_EMAIL" ≠ lit "TWITTER_POST_PASSWORD"
                  ∧ lit "TWITTER_POST_PASSWORD" ≠ lit "TWITTER_POSTING_MODE"
                  ∧ lit "TWITTER_POST_PASSWORD" ≠ lit "TWITTER_POST_USERNAME"
                  ∧ lit "TWITTER_POST_USERNAME" ≠ lit "TWITTER_POSTING_MODE").
  { split_and!; intros H; vm_compute in H; discriminate H. }
  destruct Hkeys as (H1 & H2 & H3 & H4 & H5 & H6).
  destruct email as [|e0 email']; unfold id.
  - split_and!.
    + by rewrite lookup_insert_ne, lookup_insert_ne, lookup_insert_eq by done.
    + by rewrite lookup_insert_ne, lookup_insert_eq by done.
    + by rewrite lookup_insert_eq.
    + by rewrite !lookup_insert_ne by done.
  - split_and!.
    + by rewrite lookup_insert_ne, lookup_insert_ne, lookup_insert_ne, lookup_insert_eq by done.
    + by rewrite lookup_insert_ne, lookup_insert_ne, lookup_insert_eq by done.
    + by rewrite lookup_insert_ne, lookup_insert_eq by done.
    + by rewrite lookup_insert_eq.
Qed.

(** What [_load_env_file] makes of the file [setup_real_posting] leaves. *)
Lemma load_setup_real_posting (username_typed password email_typed : str)
    (dotenv : option str) (env : environ) :
  let username := strip username_typed in
  let email := strip email_typed in
  username ≠ [] → password ≠ [] →
  one_line username → one_line password → one_line email →
  _load_env_file (setup_real_posting username_typed password email_typed true dotenv) env
  = Ok ((if email is [] then id else insert (lit "TWITTER_POST_EMAIL") email)
          (<[lit "TWITTER_POST_PASSWORD" := rstrip password]>
             (<[lit "TWITTER_POST_USERNAME" := username]>
                (<[lit "TWITTER_POSTING_MODE" := lit "real"]> env)))).
Proof.
  intros username email Hu Hp Hlu Hlp Hle. unfold setup_real_posting.
  fold username email. destruct username as [|u0 username'] eqn:Husername; [done|].
  destruct password as [|p0 password'] eqn:Hpassword; [done|]. cbn [orb].
  rewrite load_real_posting by done.
  assert (Hru : rstrip (u0 :: username') = u0 :: username').
  { rewrite <- Husername. apply rstrip_strip. }
  assert (Hre : rstrip email = email) by apply rstrip_strip.
  rewrite Hru. destruct email; [done|]. by rewrite Hre.
Qed.

(** The same for [setup_simulation_mode]. *)
Lemma load_setup_simulation_mode (dotenv : option str) (env : environ) :
  _load_env_file (setup_simulation_mode true dotenv) env
  = Ok (<[lit "TWITTER_POSTING_MODE" := lit "simulator"]> env).
Proof.
  unfold setup_simulation_mode, _load_env_file.
  assert (Hlines : lines_of (universal_newlines
            (lit "# Twitter Posting Credentials" ++ NL
               ++ lit "TWITTER_POSTING_MODE=simulator" ++ NL))
          = [lit "# Twitter Posting Credentials" ++ NL;
             lit "TWITTER_POSTING_MODE" ++ lit "=" ++ lit "simulator" ++ NL])
    by by vm_compute.
  rewrite Hlines. cbn [load_lines].
  rewrite load_line_skipped by (right; left; by vm_compute). cbn [and_then].
  rewrite (load_line_written _ (lit "simulator") _ 84%N);
    [|by vm_compute|by vm_compute|done
     |apply (bool_decide_eq_false_1 (_ ∈ _)); by vm_compute
     |apply (bool_decide_eq_false_1 (_ ∈ _)); by vm_compute
     |by apply one_line_literal].
  done.
Qed.

End CredentialFacts.

(** X18. The credentials [setup_real_posting] writes are what a later
    [_load_env_file] sets, for a user name and a password that are not empty
    and hold no line break and no NUL: the mode is real, the user name is the
    one typed without the white space around it, and the password is the one
    typed without the white space at its end. *)
Theorem posting_credentials_round_trip (username_typed password email_typed : str)
    (dotenv : option str) (env : Env.environ) :
  let username := strip username_typed in
  let email := strip email_typed in
  username ≠ [] → password ≠ [] →
  Env.one_line username → Env.one_line password → Env.one_line email →
  ∃ env',
    Env._load_env_file
      (Env.setup_real_posting username_typed password email_typed true dotenv) env
    = Json.Ok env'
    ∧ Env.getenv env' "TWITTER_POSTING_MODE" = Some (lit "real")
    ∧ Env.getenv env' "TWITTER_POST_USERNAME" = Some username
    ∧ Env.getenv env' "TWITTER_POST_PASSWORD" = Some (Text.rstrip password)
    ∧ Env.getenv env' "TWITTER_POST_EMAIL"
      = (if email is [] then Env.getenv env "TWITTER_POST_EMAIL" else Some email).
Proof.
  intros username email Hu Hp Hlu Hlp Hle.
  rewrite load_setup_real_posting by done. eexists. split; [reflexivity|].
  apply credentials_lookup.
Qed.

Lemma posting_credentials_round_trip_witness :
  ∃ env',
    Env._load_env_file
      (Env.setup_real_posting (lit " crediball_bot ") (lit "s3cret ") (lit "") true None) ∅
    = Json.Ok env'
    ∧ Env.getenv env' "TWITTER_POST_USERNAME" = Some (lit "crediball_bot")
    ∧ Env.getenv env' "TWITTER_POST_PASSWORD" = Some (lit "s3cret").
Proof.
  destruct (posting_credentials_round_trip (lit " crediball_bot ") (lit "s3cret ") (lit "")
              None ∅) as (env' & Hload & _ & Huser & Hpass & _).
  - by vm_compute.
  - by vm_compute.
  - apply one_line_decide. by vm_compute.
  - apply one_line_decide. by vm_compute.
  - apply one_line_decide. by vm_compute.
  - exists env'. split; [exact Hload|]. split; [exact Huser|exact Hpass].
Defined.

(** X19. The file [setup_posting.py] writes holds no API key: after
    [setup_real_posting] or [setup_simulation_mode] has replaced [.env], the
    configuration loads only if the process environment itself has a
    non-empty [GROQ_API_KEY]; otherwise [load_environment_variables] raises
    [ValueError], whatever [.env] held before. *)
Theorem setup_posting_drops_api_key (username_typed password email_typed : str)
    (dotenv : option str) (env : Env.environ) :
  strip username_typed ≠ [] → password ≠ [] →
  Env.one_line (strip username_typed) → Env.one_line password →
  Env.one_line (strip email_typed) →
  Env.is_set env "GROQ_API_KEY" = false →
  Env.load_environment_variables
    (Env.setup_real_posting username_typed password email_typed true dotenv) env
  = Json.Raise Json.ValueError
  ∧ Env.load_environment_variables (Env.setup_simulation_mode true dotenv) env
    = Json.Raise Json.ValueError.
Proof.
  intros Hu Hp Hlu Hlp Hle Hkey. unfold Env.is_set, Env.getenv in Hkey.
  assert (Hkeys : lit "TWITTER_POST_EMAIL" ≠ lit "GROQ_API_KEY"
                  ∧ lit "TWITTER_POST_PASSWORD" ≠ lit "GROQ_API_KEY"
                  ∧ lit "TWITTER_POST_USERNAME" ≠ lit "GROQ_API_KEY"
                  ∧ lit "TWITTER_POSTING_MODE" ≠ lit "GROQ_API_KEY").
  { split_and!; intros H; vm_compute in H; discriminate H. }
  destruct Hkeys as (H1 & H2 & H3 & H4).
  split.
  - unfold Env.load_environment_variables.
    rewrite load_setup_real_posting by done. cbn [Json.and_then]. unfold Env.getenv.
    destruct (strip email_typed); unfold id.
    + rewrite !lookup_insert_ne by done. by destruct (env !! lit "GROQ_API_KEY") as [[]|].
    + rewrite !lookup_insert_ne by done. by destruct (env !! lit "GROQ_API_KEY") as [[]|].
  - unfold Env.load_environment_variables. rewrite load_setup_simulation_mode.
    cbn [Json.and_then]. unfold Env.getenv. rewrite lookup_insert_ne by done.
    by destruct (env !! lit "GROQ_API_KEY") as [[]|].
Qed.

Lemma setup_posting_drops_api_key_witness :
  Env.is_set ∅ "GROQ_API_KEY" = false
  ∧ Env.load_environment_variables
      (Env.setup_real_posting (lit "crediball_bot") (lit "s3cret") (lit "") true
         (Some (lit "GROQ_API_KEY=gsk_example" ++ NL))) ∅
    = Json.Raise Json.ValueError.
Proof.
  split; [reflexivity|].
  destruct (setup_posting_drops_api_key (lit "crediball_bot") (lit "s3cret") (lit "")
              (Some (lit "GROQ_API_KEY=gsk_example" ++ NL)) ∅) as [Hreal _].
  - by vm_compute.
  - by vm_compute.
  - apply one_line_decide. by vm_compute.
  - apply one_line_decide. by vm_compute.
  - apply one_line_decide. by vm_compute.
  - reflexivity.
  - exact Hreal.
Defined.

(** X20. The [.env] file has the last word: a line [key=value] sets the
    variable whatever the process environment and the lines before it say;
    after a file that ends with this line the variable is [value] without
    the white space at its end. *)
Theorem dotenv_last_line_wins (before : list str) (key value : str) (c : N)
    (env env' : Env.environ) :
  head key = Some c → isspace c = false → c ≠ 35%N →
  (61%N ∉ key) → (0%N ∉ key) → (0%N ∉ value) →
  Env.load_lines (before ++ [key ++ lit "=" ++ value]) env = Json.Ok env' →
  env' !! key = Some (Text.rstrip value).
Proof.
  intros Hc Hsc Hhash Hkey Hnul Hval. rewrite load_lines_app.
  destruct (Env.load_lines before env) as [env1|]; cbn [Json.and_then]; [|done].
  cbn [Env.load_lines]. change (lit "=" ++ value) with (61%N :: value).
  rewrite (load_line_assignment key value env1 c) by done. cbn [Json.and_then].
  intros [= <-]. by rewrite lookup_insert_eq.
Qed.

Lemma dotenv_last_line_wins_witness :
  let env : Env.environ := {[lit "WEBHOOK_URL" := lit "https://a.example"]} in
  ∃ env',
    Env.load_lines [lit "WEBHOOK_URL=https://b.example" ++ NL;
                    lit "WEBHOOK_URL" ++ lit "=" ++ lit "https://c.example  "] env
    = Json.Ok env'
    ∧ env' !! lit "WEBHOOK_URL" = Some (lit "https://c.example").
Proof.
  intros env.
  assert (Hload : ∃ env',
    Env.load_lines ([lit "WEBHOOK_URL=https://b.example" ++ NL]
                      ++ [lit "WEBHOOK_URL" ++ lit "=" ++ lit "https://c.example  "]) env
    = Json.Ok env') by (eexists; reflexivity).
  destruct Hload as [env' Hload]. exists env'. split; [exact Hload|].
  apply (dotenv_last_line_wins [lit "WEBHOOK_URL=https://b.example" ++ NL]
           (lit "WEBHOOK_URL") (lit "https://c.example  ") 87%N env env').
  - reflexivity.
  - reflexivity.
  - discriminate.
  - apply (bool_decide_eq_false_1 (_ ∈ _)). by vm_compute.
  - apply (bool_decide_eq_false_1 (_ ∈ _)). by vm_compute.
  - apply (bool_decide_eq_false_1 (_ ∈ _)). by vm_compute.
  - exact Hload.
Defined.

(** ** Notifications *)

Section ErrorFacts.
Import Errors.

Lemma send_error_step (m : moment) (error_message error_type : str)
    (include_timestamp : bool) (self : ErrorHandler) :
  let self' := send_error m error_message error_type include_timestamp self in
  error_count self' = error_count self + 1
  ∧ webhook_url self' = webhook_url self
  ∧ last_error_time self' = Some (now m)
  ∧ requests self'
    = requests self
        ++ (if has_url self
            then [Payload error_type error_message (error_count self + 1)
                    (lit "Football Twitter Bot")
                    (if include_timestamp then Some (stamp m) else None)]
            else []).
Proof.
  cbv zeta. unfold send_error, has_url, _send_webhook_notification. cbn.
  destruct (webhook_url self) as [[|c url]|]; cbn; rewrite ?app_nil_r; try done.
  by destruct (reply m) as [status| |]; [destruct (status =? 200)| |].
Qed.

Lemma deliver_step (self : ErrorHandler) (call : moment * notification) :
  let self' := deliver self call in
  error_count self' = error_count self + 1
  ∧ webhook_url self' = webhook_url self
  ∧ payload_error_count <$> requests self'
    = (payload_error_count <$> requests self)
        ++ (if has_url self then [error_count self + 1] else [])
  ∧ payload_error_type <$> requests self'
    = (payload_error_type <$> requests self)
        ++ (if has_url self then [kind call.2] else []).
Proof.
  destruct call as [m n]. cbv zeta. unfold deliver.
  destruct n; unfold send_daily_summary, send_info, send_warning, send_critical;
    match goal with
    | |- context [send_error ?m ?msg ?ty ?ts ?s] =>
        destruct (send_error_step m msg ty ts s) as (Hc & Hu & _ & Hr)
    end; rewrite Hc, Hu, Hr, !fmap_app; split_and!; try done;
    by destruct (has_url self).
Qed.

End ErrorFacts.

(** X21. Every notification counts as an error: after any sequence of calls of
    [send_error], [send_info], [send_warning], [send_critical] and
    [send_daily_summary] the count has grown by the number of calls,
    informational ones included. With a webhook URL that is not empty each
    call sent one request, numbered with the count it reached; without one
    nothing was sent. *)
Theorem every_notification_counts (calls : list (Errors.moment * Errors.notification))
    (self : Errors.ErrorHandler) :
  let self' := foldl Errors.deliver self calls in
  Errors.error_count self' = Errors.error_count self + len calls
  ∧ Errors.total_errors (Errors.get_error_stats self')
    = Errors.error_count self + len calls
  ∧ Errors.payload_error_count <$> Errors.requests self'
    = (Errors.payload_error_count <$> Errors.requests self)
        ++ (if Errors.has_url self
            then seqZ (Errors.error_count self + 1) (len calls) else [])
  ∧ Errors.payload_error_type <$> Errors.requests self'
    = (Errors.payload_error_type <$> Errors.requests self)
        ++ (if Errors.has_url self then (λ call, Errors.kind call.2) <$> calls else []).
Proof.
  cbv zeta. cbn [Errors.total_errors Errors.get_error_stats]. revert self.
  induction calls as [|call calls IH]; intros self.
  { unfold len. cbn.
    split_and!; try lia; by destruct (Errors.has_url self); rewrite ?app_nil_r. }
  cbn [foldl]. destruct (deliver_step self call) as (Hc & Hu & Hn & Ht).
  destruct (IH (Errors.deliver self call)) as (IHc & IHs & IHn & IHt).
  assert (Hurl : Errors.has_url (Errors.deliver self call) = Errors.has_url self).
  { unfold Errors.has_url. by rewrite Hu. }
  rewrite IHc, IHn, IHt, Hurl, Hc, Hn, Ht. unfold len. cbn [length].
  split_and!; try lia.
  - destruct (Errors.has_url self); rewrite <- ?app_assoc; [|done].
    f_equal. rewrite Nat2Z.inj_succ, (seqZ_cons _ (Z.succ _)) by lia.
    cbn [app]. do 2 f_equal. lia.
  - destruct (Errors.has_url self); by rewrite <- ?app_assoc.
Qed.

(** X22. [test_webhook] does not test the answer: it returns [True] exactly
    when a webhook URL that is not empty is configured, whatever the
    endpoint does with the request, and it leaves the error count alone. *)
Theorem test_webhook_ignores_endpoint (m : Errors.moment) (self : Errors.ErrorHandler) :
  let result := Errors.test_webhook m self in
  result.1 = Errors.has_url self
  ∧ Errors.error_count result.2 = Errors.error_count self
  ∧ Errors.requests result.2
    = Errors.requests self
        ++ (if Errors.has_url self
            then [Errors.Payload (lit "TEST") (lit "Webhook test from Football Twitter Bot")
                    (Errors.error_count self) (lit "Football Twitter Bot")
                    (Some (Errors.stamp m))]
            else []).
Proof.
  cbv zeta. unfold Errors.test_webhook.
  destruct (Errors.has_url self) eqn:Hurl; cbn [negb fst snd].
  - unfold Errors._send_webhook_notification.
    by destruct (Errors.reply m) as [status| |]; [destruct (status =? 200)| |].
  - cbn. by rewrite app_nil_r.
Qed.

(** X23. The statistics and the sender disagree on the empty URL:
    [get_error_stats] reports the webhook as configured while [send_error]
    sends nothing exactly when the URL is the empty string. *)
Theorem webhook_configured_but_silent (m : Errors.moment) (error_message error_type : str)
    (include_timestamp : bool) (self : Errors.ErrorHandler) :
  Errors.webhook_configured (Errors.get_error_stats self) = true
  ∧ Errors.requests (Errors.send_error m error_message error_type include_timestamp self)
    = Errors.requests self
  ↔ Errors.webhook_url self = Some [].
Proof.
  destruct (send_error_step m error_message error_type include_timestamp self)
    as (_ & _ & _ & ->).
  unfold Errors.get_error_stats, Errors.has_url. cbn.
  destruct (Errors.webhook_url self) as [[|c url]|].
  - by rewrite app_nil_r.
  - split; [|done]. intros [_ Heq].
    apply (f_equal length) in Heq. rewrite length_app in Heq. cbn in Heq. lia.
  - split; [|done]. by intros [? _].
Qed.

Lemma webhook_configured_but_silent_witness :
  let self := Errors.new (Some []) in
  Errors.webhook_configured (Errors.get_error_stats self) = true
  ∧ Errors.requests (Errors.send_error Cases.outage (lit "Failed to post tweet from x")
                       (lit "ERROR") true self) = Errors.requests self.
Proof.
  intros self.
  apply (proj2 (webhook_configured_but_silent Cases.outage _ _ true self)). reflexivity.
Defined.

(** ** Starting up *)

Section StartupFacts.
Import Json.

Lemma get_enabled_well_formed (js : list json) :
  Forall Conf.well_formed js →
  ∃ enabled, Conf.get_enabled_journalists js = Ok enabled ∧ enabled `sublist_of` js.
Proof.
  induction 1 as [|j js (d & _ & _ & -> & _) _ (enabled & IH & Hsub)].
  - by exists [].
  - cbn. rewrite IH. cbn. eexists. split; [done|].
    case_match; by constructor.
Qed.

Lemma manager_initialize_inl (env : Env.environ) (login : bool) :
  ∃ manager, Manager.initialize env None login = inl manager.
Proof. unfold Manager.initialize. repeat case_match; eauto. Qed.

End StartupFacts.

(** X24. How [TwitterManager.initialize] chooses the poster: unless [API()]
    raises it always ends initialized, with the real poster exactly when the
    mode is the string real, both credentials are set and not empty and the
    login went through, and with the simulator, which reports every post as
    made, in every other case. *)
Theorem poster_selection (env : Env.environ) (login : bool) :
  ∃ manager,
    Manager.initialize env None login = inl manager
    ∧ Manager.initialized manager = true
    ∧ (Manager.poster_used manager = Some Manager.TwitterPoster
       ∨ Manager.poster_used manager = Some Manager.TwitterPosterSimulator)
    ∧ (Manager.poster_used manager = Some Manager.TwitterPoster ↔
       Env.getenv env "TWITTER_POSTING_MODE" = Some (lit "real")
       ∧ Env.is_set env "TWITTER_POST_USERNAME" = true
       ∧ Env.is_set env "TWITTER_POST_PASSWORD" = true
       ∧ login = true)
    ∧ (Manager.posting_enabled manager = true ↔
       Manager.poster_used manager = Some Manager.TwitterPoster)
    ∧ (Manager.poster_used manager = Some Manager.TwitterPosterSimulator →
       ∀ browser, Manager.post_tweet browser manager = Json.Ok true).
Proof.
  unfold Manager.initialize, Manager.poster_initialize.
  destruct (Env.getenv env "TWITTER_POSTING_MODE") as [mode|] eqn:Hmode; cbn [default].
  - destruct (decide (mode = lit "real")) as [->|Hne].
    + rewrite bool_decide_eq_true_2 by done. cbn [andb].
      destruct (Env.is_set env "TWITTER_POST_USERNAME"),
        (Env.is_set env "TWITTER_POST_PASSWORD"), login; cbn;
        eexists; (split; [reflexivity|]); cbn; split_and!; try done; auto;
        try (split; [done|]; by intros (_ & ? & ? & ?));
        try by (split; [done|]; by intros (_ & _ & ? & ?)).
    + rewrite bool_decide_eq_false_2 by done. cbn.
      eexists; (split; [reflexivity|]); cbn; split_and!; try done; auto.
      split; [done|]. intros ([= ?] & _). done.
  - rewrite bool_decide_eq_false_2 by (intros H; vm_compute in H; discriminate H). cbn.
    eexists; (split; [reflexivity|]); cbn; split_and!; try done; auto.
    split; [done|]. by intros (? & _).
Qed.

Lemma poster_selection_witness :
  ∃ manager,
    Manager.initialize {[lit "TWITTER_POSTING_MODE" := lit "real"]} None true = inl manager
    ∧ Manager.poster_used manager = Some Manager.TwitterPosterSimulator
    ∧ Manager.post_tweet None manager = Json.Ok true.
Proof.
  destruct (poster_selection {[lit "TWITTER_POSTING_MODE" := lit "real"]} true)
    as (manager & Hinit & _ & Hposter & Hreal & _ & Hsim).
  exists manager. split; [exact Hinit|].
  assert (Hused : Manager.poster_used manager = Some Manager.TwitterPosterSimulator).
  { destruct Hposter as [Hp|Hp]; [|exact Hp].
    apply Hreal in Hp as (_ & Huser & _). by vm_compute in Huser. }
  split; [exact Hused|]. exact (Hsim Hused None).
Defined.

(** X25. From the setup to the poster: the credentials [setup_real_posting]
    wrote, once read by [_load_env_file], make [TwitterManager.initialize]
    try the real poster, and use it when the login goes through, provided the
    password is not white space only; after [setup_simulation_mode] the
    simulator is used. *)
Theorem setup_selects_poster (username_typed password email_typed : str)
    (dotenv : option str) (env : Env.environ) (login : bool) :
  strip username_typed ≠ [] → Text.rstrip password ≠ [] →
  Env.one_line (strip username_typed) → Env.one_line password →
  Env.one_line (strip email_typed) →
  (∃ env',
     Env._load_env_file
       (Env.setup_real_posting username_typed password email_typed true dotenv) env
     = Json.Ok env'
     ∧ Manager.initialize env' None login
       = inl {| Manager.poster_used :=
                  Some (if login then Manager.TwitterPoster
                        else Manager.TwitterPosterSimulator);
                Manager.initialized := true;
                Manager.posting_enabled := login |})
  ∧ (∃ env',
       Env._load_env_file (Env.setup_simulation_mode true dotenv) env = Json.Ok env'
       ∧ Manager.initialize env' None login
         = inl {| Manager.poster_used := Some Manager.TwitterPosterSimulator;
                  Manager.initialized := true;
                  Manager.posting_enabled := false |}).
Proof.
  intros Hu Hrp Hlu Hlp Hle.
  assert (Hp : password ≠ []) by (by intros ->).
  split.
  - rewrite load_setup_real_posting by done. eexists. split; [reflexivity|].
    destruct (credentials_lookup (lit "real") (strip username_typed) (Text.rstrip password)
                (strip email_typed) env) as (Hmode & Huser & Hpass & _).
    unfold Manager.initialize, Manager.poster_initialize, Env.is_set.
    rewrite Hmode, Huser, Hpass. cbn [default].
    rewrite bool_decide_eq_true_2 by done.
    destruct (strip username_typed) as [|??]; [done|].
    destruct (Text.rstrip password) as [|??]; [done|].
    by destruct login.
  - rewrite load_setup_simulation_mode. eexists. split; [reflexivity|].
    unfold Manager.initialize, Env.getenv. rewrite lookup_insert_eq. cbn [default].
    by rewrite bool_decide_eq_false_2 by (intros H; vm_compute in H; discriminate H).
Qed.

Lemma setup_selects_poster_witness :
  ∃ env',
    Env._load_env_file
      (Env.setup_real_posting (lit " crediball_bot ") (lit "s3cret ") (lit "") true None) ∅
    = Json.Ok env'
    ∧ Manager.initialize env' None true
      = inl {| Manager.poster_used := Some Manager.TwitterPoster;
               Manager.initialized := true; Manager.posting_enabled := true |}.
Proof.
  destruct (setup_selects_poster (lit " crediball_bot ") (lit "s3cret ") (lit "") None ∅ true)
    as [(env' & Hload & Hinit) _].
  - by vm_compute.
  - by vm_compute.
  - apply one_line_decide. by vm_compute.
  - apply one_line_decide. by vm_compute.
  - apply one_line_decide. by vm_compute.
  - exists env'. split; [exact Hload|exact Hinit].
Defined.

(** X26. The start of the bot does not depend on the test of the model:
    [FootballTwitterBot.initialize] returns what the Twitter manager's
    [initialize] returns, whatever [test_connection] finds, leaving the error
    handler alone; when the manager fails it raises the same exception after
    one notification of type ERROR. *)
Theorem initialize_ignores_connection_test (env : Env.environ) (api_error : option str)
    (login : bool) (reply : Ai.http_reply) (m : Errors.moment)
    (error_handler : Errors.ErrorHandler) :
  let started := Startup.initialize env api_error login reply m error_handler in
  started.1 = Manager.initialize env api_error login
  ∧ (api_error = None → ∃ manager, started = (inl manager, error_handler))
  ∧ ∀ e, api_error = Some e →
      started.1 = inr e
      ∧ Errors.error_count started.2 = Errors.error_count error_handler + 1
      ∧ last (Errors.logged started.2) ≠ None
      ∧ Errors.Reported (lit "ERROR") (lit "Bot initialization failed: " ++ e)
        ∈ Errors.logged started.2.
Proof.
  cbv zeta. unfold Startup.initialize.
  destruct api_error as [e|].
  - change (Manager.initialize env (Some e) login) with (@inr Manager.TwitterManager _ e).
    split; [done|]. split; [done|]. intros e' [= <-]. cbn [fst snd].
    destruct (send_error_step m (lit "Bot initialization failed: " ++ e) (lit "ERROR") true
                error_handler) as (Hc & _).
    split_and!; [done|done| |].
    + unfold Errors.send_error, Errors._send_webhook_notification.
      destruct (Errors.has_url _); [destruct (Errors.reply m) as [s| |];
        [destruct (s =? 200)| |]|]; cbn; by rewrite last_snoc.
    + unfold Errors.send_error, Errors._send_webhook_notification.
      destruct (Errors.has_url _); [destruct (Errors.reply m) as [s| |];
        [destruct (s =? 200)| |]|]; cbn; rewrite !elem_of_app, !list_elem_of_singleton; auto.
  - destruct (manager_initialize_inl env login) as (manager & ->).
    split; [done|]. split; [|done]. intros _. by exists manager.
Qed.

Lemma initialize_ignores_connection_test_witness :
  let started :=
    Startup.initialize ∅ (Some (lit "unable to open database file")) true Ai.HttpTimeout
      Cases.outage (Errors.new None) in
  started.1 = inr (lit "unable to open database file")
  ∧ Errors.error_count started.2 = 1.
Proof.
  intros started.
  destruct (initialize_ignores_connection_test ∅ (Some (lit "unable to open database file"))
              true Ai.HttpTimeout Cases.outage (Errors.new None)) as (_ & _ & Hfail).
  destruct (Hfail _ eq_refl) as (Hraised & Hcount & _).
  split; [exact Hraised|exact Hcount].
Defined.

(** X27. The health check cannot report a degraded model: for every answer of
    the model's endpoint, and every roster [load_journalists] can give, the
    answer is 200 with the overall status and the model's status healthy;
    the configuration is healthy exactly when the roster is not empty, and
    the enabled journalists are at most the configured ones. *)
Theorem health_check_always_healthy (reply : Ai.http_reply) (file : Json.json_file) :
  ∃ st,
    Startup.health_check reply (Conf.load_journalists file) = (200, Some st)
    ∧ Startup.overall st = lit "healthy"
    ∧ Startup.ai_processor st = lit "healthy"
    ∧ (Startup.config st = lit "healthy" ↔ Conf.load_journalists file ≠ [])
    ∧ 0 ≤ Startup.enabled_journalists st ≤ Startup.journalists_configured st
    ∧ Startup.journalists_configured st = len (Conf.load_journalists file).
Proof.
  destruct (get_enabled_well_formed _ (load_journalists_Forall file)) as (enabled & Henabled & Hsub).
  unfold Startup.health_check. rewrite Henabled. eexists. split; [reflexivity|].
  cbn. split_and!; try done.
  - destruct (Conf.load_journalists file); cbn; [|done].
    split; [|done]. intros H. vm_compute in H. discriminate H.
  - unfold len. lia.
  - apply sublist_length in Hsub. unfold len. lia.
Qed.

(** X28. The two tables of defaults agree: a settings file that is missing,
    malformed, unreadable, not an object, or an object without any of the
    eight keys gives exactly the settings of [_set_default_settings]. *)
Theorem load_settings_defaults (file : Json.json_file) :
  (∀ settings, file = Json.Parsed (Json.JDict settings) →
     Forall (λ key, Json.dict_get settings key = None) Settings.keys) →
  Settings.load_settings file = Settings._set_default_settings.
Proof.
  intros Hkeys. destruct file as [| | |[| | | | | |settings]]; try done.
  specialize (Hkeys settings eq_refl).
  unfold Settings.load_settings, Settings.get, Settings._set_default_settings.
  repeat (apply Forall_cons in Hkeys as [-> Hkeys]). done.
Qed.

Lemma load_settings_defaults_witness :
  Settings.load_settings
    (Json.Parsed (Json.JDict [(lit "theme", Json.JStr (lit "dark"))]))
  = Settings._set_default_settings.
Proof.
  apply load_settings_defaults. intros settings [= <-].
  repeat constructor.
Defined.
